(** * weather_monitor_core: caching and freshness reconciliation

    A shallow embedding of [weather_monitor.py], of the historical
    accumulator of [test_historical.py] and of the flattening loop of
    [test_csv_conversion.py].

    Modelling conventions.
    - A Python value that travels through [json.load] / [json.dump] is a
      [value].  A [dict] is an association list in insertion order;
      lookup takes the first binding of a key, assignment replaces the
      binding in place or appends a new one.
    - Python [str] is a byte string (its UTF-8 encoding): the bytewise
      lexicographic order is the code point order used by [sorted], and
      [.encode()] is the identity.
    - A number is the rational [Q] that is its value.  Timestamps and
      coordinates are only compared, subtracted or passed on, and are
      exact.  The probabilities of the forecast go through float
      arithmetic: there a number stands for what [json.loads] makes of a
      literal of that value, an [int] when the value is an integer and
      the nearest binary64 otherwise, and a product with a float is
      rounded to binary64.  A literal of integer value written with a
      fraction or an exponent is a [float] in Python: it has the same
      value, and the same product with 100 as long as that product is
      below 2^53.  Infinities, NaN and overflow are outside the model.
    - Exceptions are an explicit outcome; the file system, the log and
      every external call live in an explicit [world] that is threaded
      through a small state-and-exception monad.
    - A file is absent, holds text that [json.load] rejects, or holds a
      JSON document.  Writing a file succeeds: the [except] branch of
      [save_json] (a failing disk) is outside the model.
    - [hashlib], [str.capitalize], the clock and the three remote
      providers are not part of the repository: they are fields of the
      environment record [Env].  The providers and the clock answer as a
      function of the history of the run, so they may change their answer
      from one call to the next. *)

From Stdlib Require Import String Ascii List ZArith QArith Qround Bool Lia.
From Stdlib Require Import Permutation Sorted DecimalString Lqa Qabs Qpower.
Import ListNotations.
Local Open Scope string_scope.
Local Open Scope list_scope.

(** ** Python values *)

#[local] Set Warnings "-register-all".

Inductive value : Type :=
| VNone
| VBool (b : bool)
| VNum (q : Q)
| VStr (s : string)
| VList (l : list value)
| VDict (d : list (string * value)).

Definition dict := list (string * value).

Inductive exn : Type :=
| AttributeError
| TypeError
| KeyError
| IndexError
| RequestException
| GeocoderTimedOut
| GeocoderUnavailable
| OtherException.

Inductive outcome (A : Type) : Type :=
| Return (a : A)
| Raise (e : exn).
Arguments Return {A} a.
Arguments Raise {A} e.

(** Sequencing of expressions that may raise. *)
Declare Scope outcome_scope.
Delimit Scope outcome_scope with outcome.
Notation "x <~ o ;; k" :=
  (match o with Return x => k | Raise e => Raise e end)
  (at level 61, o at next level, right associativity) : outcome_scope.
Local Open Scope outcome_scope.

(** *** Dictionaries *)

Fixpoint dict_get (k : string) (d : dict) : option value :=
  match d with
  | [] => None
  | (k', v) :: d' => if k' =? k then Some v else dict_get k d'
  end.

Fixpoint dict_set (k : string) (v : value) (d : dict) : dict :=
  match d with
  | [] => [(k, v)]
  | (k', v') :: d' =>
      if k' =? k then (k, v) :: d' else (k', v') :: dict_set k v d'
  end.

Definition dict_mem (k : string) (d : dict) : bool :=
  match dict_get k d with Some _ => true | None => false end.

(** *** Numbers *)

Definition Qlt_bool (x y : Q) : bool := negb (Qle_bool y x).

(** [bool] is a subtype of [int] in Python. *)
Definition as_num (v : value) : option Q :=
  match v with
  | VNum q => Some q
  | VBool true => Some 1%Q
  | VBool false => Some 0%Q
  | _ => None
  end.

(** Python 3 [round(x)]: to the nearest integer, ties to the even one. *)
Definition py_round (q : Q) : Z :=
  let f := Qfloor q in
  match Qcompare (q - inject_Z f) (1 # 2) with
  | Lt => f
  | Gt => (f + 1)%Z
  | Eq => if Z.even f then f else (f + 1)%Z
  end.

(** [max(xs, default=d)] on numbers: the running maximum is replaced
    when the next item is strictly greater. *)
Definition py_max (xs : list Q) (default : Q) : Q :=
  match xs with
  | [] => default
  | x :: xs' => fold_left (fun m y => if Qlt_bool m y then y else m) xs' x
  end.

(** *** Binary64

    The binary64 numbers near [q] are the multiples of
    [2 ^ b64_exponent q]: 53 bits of mantissa, and the fixed step
    [2 ^ -1074] of the subnormal numbers at the bottom of the range. *)

Definition b64_exponent (q : Q) : Z :=
  (Z.max 0 (Z.log2 (Qfloor (Qabs q * 2 ^ 1074)) - 52) - 1074)%Z.

(** Rounding to the nearest binary64, ties to the even mantissa: what
    a float operation makes of its exact result, and what the parser
    makes of a float literal. *)
Definition b64 (q : Q) : Q :=
  let e := b64_exponent q in
  inject_Z (py_round (q / 2 ^ e)) * 2 ^ e.

Definition is_integer (q : Q) : bool :=
  (Qnum q mod Zpos (Qden q) =? 0)%Z.

(** The number Python holds for a JSON literal of value [q]. *)
Definition py_number (q : Q) : Q :=
  if is_integer q then q else b64 q.

(** [x * y]: exact on two [int]s, a binary64 product when one of the
    operands is a [float]. *)
Definition py_mul (x y : Q) : Q :=
  if is_integer x && is_integer y then x * y else b64 (x * y).

(** *** Dynamic operations *)

(** Truth value of an object, as tested by [if x] and [not x]. *)
Definition truthy (v : value) : bool :=
  match v with
  | VNone => false
  | VBool b => b
  | VNum q => negb (Qeq_bool q 0)
  | VStr s => negb (s =? "")
  | VList l => match l with [] => false | _ => true end
  | VDict d => match d with [] => false | _ => true end
  end.

(** [obj.get(key, default)]: only a [dict] has the method. *)
Definition py_get (obj : value) (key : string) (default : value)
  : outcome value :=
  match obj with
  | VDict d =>
      Return (match dict_get key d with Some v => v | None => default end)
  | _ => Raise AttributeError
  end.

(** [obj[key]] with a string key. *)
Definition py_getitem (obj : value) (key : string) : outcome value :=
  match obj with
  | VDict d =>
      match dict_get key d with Some v => Return v | None => Raise KeyError end
  | _ => Raise TypeError
  end.

(** [obj[0]]. *)
Definition py_getitem0 (obj : value) : outcome value :=
  match obj with
  | VList (x :: _) => Return x
  | VList [] => Raise IndexError
  | VStr (String c _) => Return (VStr (String c ""))
  | VStr EmptyString => Raise IndexError
  | VDict _ => Raise KeyError
  | _ => Raise TypeError
  end.

Definition is_str (s : string) (v : value) : bool :=
  match v with VStr s' => s' =? s | _ => false end.

(** [key in container] with a string key. *)
Definition py_contains (key : string) (container : value) : outcome bool :=
  match container with
  | VDict d => Return (dict_mem key d)
  | VList l => Return (existsb (is_str key) l)
  | VStr s =>
      Return (match index 0 key s with Some _ => true | None => false end)
  | _ => Raise TypeError
  end.

(** [obj[:4]]. *)
Definition py_slice4 (obj : value) : outcome value :=
  match obj with
  | VList l => Return (VList (firstn 4 l))
  | VStr s => Return (VStr (substring 0 4 s))
  | VDict _ => Raise KeyError
  | _ => Raise TypeError
  end.

Fixpoint chars (s : string) : list value :=
  match s with
  | EmptyString => []
  | String c s' => VStr (String c "") :: chars s'
  end.

(** The items visited by [for item in obj]. *)
Definition py_iter (obj : value) : outcome (list value) :=
  match obj with
  | VList l => Return l
  | VStr s => Return (chars s)
  | VDict d => Return (map (fun kv => VStr (fst kv)) d)
  | _ => Raise TypeError
  end.

Definition py_len (obj : value) : outcome nat :=
  match obj with
  | VList l => Return (List.length l)
  | VStr s => Return (String.length s)
  | VDict d => Return (List.length d)
  | _ => Raise TypeError
  end.

(** [obj.items()]. *)
Definition py_items (obj : value) : outcome dict :=
  match obj with
  | VDict d => Return d
  | _ => Raise AttributeError
  end.

(** [obj[key] = v]. *)
Definition py_setitem (obj : value) (key : string) (v : value)
  : outcome value :=
  match obj with
  | VDict d => Return (VDict (dict_set key v d))
  | _ => Raise TypeError
  end.

(** ** The world: files, log and external calls *)

Inductive level : Type := INFO | WARNING | ERROR | CRITICAL.

(** One constructor per logging call site of [weather_monitor.py];
    the formatted text is not modelled, its arguments are. *)
Inductive log_record : Type :=
| LogDecodeFailed (path : string)
| LogBuilding
| LogGeocoding (place : string)
| LogCouldNotGeocode (place : string)
| LogGeocodingTimeout (place : string)
| LogGeocodingError (place : string)
| LogCacheBuilt
| LogCacheOutdated
| LogCacheIncomplete
| LogCacheLoaded
| LogApiKeyNotFound
| LogWeatherConnection
| LogWeatherParsing
| LogWeatherUnexpected
| LogNoForecastData (place : string)
| LogForecastConnection (place : string)
| LogForecastError (place : string)
| LogKeyNotSet
| LogNoLocations
| LogStarting (n : nat)
| LogWeatherFailed (place : string)
| LogLocationLine (place : string) (weather_ok rain_ok : bool)
| LogSaved
| LogCriticalError.

Inductive event : Type :=
| Log (lvl : level) (r : log_record)
| Stdout (text : string)
| Geocode (place : string)
| Sleep (seconds : Z)
| HttpGet (url : string) (lat lon : value)
| Save (path : string) (data : value).

(** What a path holds: nothing, text that [json.load] rejects, or the
    text of a JSON document. *)
Inductive file : Type :=
| Missing
| Corrupt
| Content (v : value).

Record world : Type := mkWorld {
  fs : string -> file;
  trace : list event
}.

Definition emit (e : event) (w : world) : world :=
  mkWorld (fs w) (trace w ++ [e]).

Definition write_file (path : string) (v : value) (w : world) : world :=
  mkWorld (fun p => if p =? path then Content v else fs w p) (trace w).

(** ** The monad of statements *)

Definition M (A : Type) : Type := world -> outcome A * world.

Definition ret {A} (a : A) : M A := fun w => (Return a, w).

Definition raise {A} (e : exn) : M A := fun w => (Raise e, w).

Definition bind {A B} (m : M A) (k : A -> M B) : M B :=
  fun w =>
    match m w with
    | (Return a, w') => k a w'
    | (Raise e, w') => (Raise e, w')
    end.

(** [try: m except Exception as e: h e]. *)
Definition try_except {A} (m : M A) (h : exn -> M A) : M A :=
  fun w =>
    match m w with
    | (Return a, w') => (Return a, w')
    | (Raise e, w') => h e w'
    end.

Definition lift {A} (o : outcome A) : M A := fun w => (o, w).

Definition tell (e : event) : M unit := fun w => (Return tt, emit e w).

Definition logging (lvl : level) (r : log_record) : M unit :=
  tell (Log lvl r).

Definition history : M (list event) := fun w => (Return (trace w), w).

Declare Scope py_scope.
Delimit Scope py_scope with py.
Notation "x <- m ;; k" := (bind m (fun x => k))
  (at level 61, m at next level, right associativity) : py_scope.
Notation "m ;; k" := (bind m (fun _ => k))
  (at level 61, right associativity) : py_scope.
Local Open Scope py_scope.

Fixpoint for_each {A B} (body : A -> M B) (xs : list A) : M (list B) :=
  match xs with
  | [] => ret []
  | x :: xs' =>
      y <- body x ;;
      ys <- for_each body xs' ;;
      ret (y :: ys)
  end.

(** ** The environment of a run *)

Inductive http_result : Type :=
| HttpRaises (e : exn)      (* [requests.get], [raise_for_status], [.json()] *)
| HttpJson (body : value).

Inductive geocode_result : Type :=
| Located (latitude longitude : Q)
| NotLocated                (* [geocode] returned [None] *)
| GeocodeRaises (e : exn).

Record Env : Type := mkEnv {
  API_KEY : option string;              (* [os.environ.get(...)] *)
  LOCATIONS : list string;
  sha256_hexdigest : string -> string;  (* [hashlib.sha256(b).hexdigest()] *)
  capitalize : string -> string;        (* [str.capitalize] *)
  time_time : list event -> Q;          (* [time.time()] *)
  utcnow_isoformat : list event -> string;
  geolocator_geocode : list event -> string -> geocode_result;
  requests_get : list event -> string -> value -> value -> http_result
}.

Definition LOCATION_CACHE_FILE := "location_cache.json".
Definition FORECAST_CACHE_FILE := "forecast_cache.json".
Definition WEATHER_DATA_FILE := "weather_data.json".
Definition FORECAST_REFRESH_INTERVAL : Q := 7200.

Definition WEATHER_URL := "https://api.openweathermap.org/data/2.5/weather".
Definition FORECAST_URL := "https://api.openweathermap.org/data/2.5/forecast".

(** [if not API_KEY]: the variable is unset or set to the empty string. *)
Definition has_api_key (E : Env) : bool :=
  match API_KEY E with
  | Some k => negb (k =? "")
  | None => false
  end.

(** ** Utilities *)

Fixpoint insert_sorted (x : string) (l : list string) : list string :=
  match l with
  | [] => [x]
  | y :: l' => if (x <=? y)%string then x :: l else y :: insert_sorted x l'
  end.

(** [sorted(locations)] on strings: the ascending list with the same
    elements.  Equal strings are indistinguishable, so the result does
    not depend on the sorting algorithm. *)
Definition sorted (l : list string) : list string :=
  fold_right insert_sorted [] l.

Definition hash_locations (E : Env) (locations : list string) : string :=
  sha256_hexdigest E (String.concat "|" (sorted locations)).

Definition load_json (path : string) : M value :=
  fun w =>
    match fs w path with
    | Missing => (Return (VDict []), w)
    | Corrupt =>
        (Return (VDict []), emit (Log ERROR (LogDecodeFailed path)) w)
    | Content v => (Return v, w)
    end.

Definition save_json (path : string) (data : value) : M unit :=
  fun w => (Return tt, emit (Save path data) (write_file path data w)).

(** ** Geocoding *)

(** One iteration of the loop of [build_location_cache]: the entries
    collected so far are [entries]. *)
Definition geocode_place (E : Env) (entries : dict) (place : string)
  : M dict :=
  logging INFO (LogGeocoding place) ;;
  h <- history ;;
  tell (Geocode place) ;;
  match geolocator_geocode E h place with
  | Located lat lon =>
      tell (Sleep 1) ;;
      ret (dict_set place
             (VDict [("lat", VNum lat); ("lon", VNum lon)]) entries)
  | NotLocated =>
      logging WARNING (LogCouldNotGeocode place) ;;
      tell (Sleep 1) ;;
      ret entries
  | GeocodeRaises GeocoderTimedOut
  | GeocodeRaises GeocoderUnavailable =>
      logging ERROR (LogGeocodingTimeout place) ;;
      ret entries
  | GeocodeRaises _ =>
      logging ERROR (LogGeocodingError place) ;;
      ret entries
  end.

Fixpoint geocode_all (E : Env) (entries : dict) (places : list string)
  : M dict :=
  match places with
  | [] => ret entries
  | place :: rest =>
      entries' <- geocode_place E entries place ;;
      geocode_all E entries' rest
  end.

Definition build_location_cache (E : Env) : M value :=
  logging INFO LogBuilding ;;
  entries <- geocode_all E [] (LOCATIONS E) ;;
  let cache :=
    VDict [("version", VStr (hash_locations E (LOCATIONS E)));
           ("locations", VDict entries)] in
  save_json LOCATION_CACHE_FILE cache ;;
  logging INFO LogCacheBuilt ;;
  ret cache.

(** [all(loc in cache.get("locations", {}) for loc in LOCATIONS)]:
    evaluated lazily, stopping at the first absent name. *)
Fixpoint all_present (cache : value) (locs : list string) : outcome bool :=
  match locs with
  | [] => Return true
  | loc :: rest =>
      entries <~ py_get cache "locations" (VDict []) ;;
      present <~ py_contains loc entries ;;
      if present : bool then all_present cache rest else Return false
  end.

(** [cache.get("version") != current_hash]. *)
Definition version_differs (cache : value) (current_hash : string)
  : outcome bool :=
  v <~ py_get cache "version" VNone ;;
  Return (negb (is_str current_hash v)).

Definition get_location_cache (E : Env) : M value :=
  cache <- load_json LOCATION_CACHE_FILE ;;
  let current_hash := hash_locations E (LOCATIONS E) in
  outdated <- (if negb (truthy cache) then ret true
               else lift (version_differs cache current_hash)) ;;
  if outdated : bool then
    logging INFO LogCacheOutdated ;;
    build_location_cache E
  else
    complete <- lift (all_present cache (LOCATIONS E)) ;;
    if complete : bool then
      logging INFO LogCacheLoaded ;;
      ret cache
    else
      logging INFO LogCacheIncomplete ;;
      build_location_cache E.

(** ** Weather and forecast *)

Definition http_json (r : http_result) : outcome value :=
  match r with
  | HttpRaises e => Raise e
  | HttpJson body => Return body
  end.

(** [requests.get(url, params, timeout=10)], [raise_for_status()] and
    [response.json()]. *)
Definition http_get_json (E : Env) (url : string) (lat lon : value)
  : M value :=
  h <- history ;;
  tell (HttpGet url lat lon) ;;
  lift (http_json (requests_get E h url lat lon)).

Definition py_capitalize (E : Env) (v : value) : outcome value :=
  match v with
  | VStr s => Return (VStr (capitalize E s))
  | _ => Raise AttributeError
  end.

Definition fetch_weather (E : Env) (lat lon : value) : M value :=
  if negb (has_api_key E) then
    logging ERROR LogApiKeyNotFound ;;
    ret VNone
  else
    try_except
      (data <- http_get_json E WEATHER_URL lat lon ;;
       main <- lift (py_getitem data "main") ;;
       weather <- lift (py_getitem data "weather") ;;
       first <- lift (py_getitem0 weather) ;;
       description <- lift (py_getitem first "description") ;;
       weather_desc <- lift (py_capitalize E description) ;;
       temp <- lift (py_getitem main "temp") ;;
       feels_like <- lift (py_getitem main "feels_like") ;;
       temp_min <- lift (py_getitem main "temp_min") ;;
       temp_max <- lift (py_getitem main "temp_max") ;;
       humidity <- lift (py_getitem main "humidity") ;;
       wind <- lift (py_get data "wind" (VDict [])) ;;
       speed <- lift (py_get wind "speed" (VNum 0)) ;;
       clouds <- lift (py_get data "clouds" (VDict [])) ;;
       all <- lift (py_get clouds "all" (VNum 0)) ;;
       ret (VDict [("temp", temp); ("feels_like", feels_like);
                   ("temp_min", temp_min); ("temp_max", temp_max);
                   ("humidity", humidity); ("wind_speed", speed);
                   ("clouds", all); ("description", weather_desc)]))
      (fun e =>
         match e with
         | RequestException => logging ERROR LogWeatherConnection
         | KeyError => logging ERROR LogWeatherParsing
         | _ => logging ERROR LogWeatherUnexpected
         end ;;
         ret VNone).

(** [now - cached_ts]. *)
Definition py_age (now : Q) (cached_ts : value) : outcome Q :=
  match as_num cached_ts with
  | Some ts => Return (now - ts)
  | None => Raise TypeError
  end.

(** The cache check of [fetch_rain_probability]: [Some data] when the
    function returns the cached [data], [None] when it goes on to fetch. *)
Definition fresh_data (now : Q) (cached_entry : value)
  : outcome (option value) :=
  if truthy cached_entry then
    cached_ts <~ py_get cached_entry "timestamp" (VNum 0) ;;
    data <~ py_get cached_entry "data" (VDict []) ;;
    age <~ py_age now cached_ts ;;
    if Qlt_bool age FORECAST_REFRESH_INTERVAL then
      has_prob <~ py_contains "max_rain_prob" data ;;
      if has_prob : bool then
        has_risk <~ py_contains "risk_level" data ;;
        Return (if has_risk : bool then Some data else None)
      else Return None
    else Return None
  else Return None.

(** [item.get("pop", 0) for item in next_12h], for [max] and the
    comparisons that follow: every value has to be a number. *)
Fixpoint pops_of (items : list value) : outcome (list Q) :=
  match items with
  | [] => Return []
  | item :: rest =>
      p <~ py_get item "pop" (VNum 0) ;;
      match as_num p with
      | None => Raise TypeError
      | Some q => qs <~ pops_of rest ;; Return (py_number q :: qs)
      end
  end.

(** [data.get("list", [])[:4]]. *)
Definition next_12h_of (data : value) : outcome value :=
  forecast_list <~ py_get data "list" (VList []) ;;
  py_slice4 forecast_list.

(** [max((item.get("pop", 0) for item in next_12h), default=0)]. *)
Definition max_pop_of (next_12h : value) : outcome Q :=
  items <~ py_iter next_12h ;;
  pops <~ pops_of items ;;
  Return (py_max pops 0).

(** The comparisons with the float literals [0.7] and [0.4]: Python
    compares an [int] or a [float] with a [float] by value. *)
Definition risk_of (max_pop : Q) : string :=
  if Qle_bool (b64 (7 # 10)) max_pop then "HIGH"
  else if Qle_bool (b64 (4 # 10)) max_pop then "MODERATE"
  else "LOW".

Definition summary_of (max_pop : Q) : value :=
  VDict [("max_rain_prob", VNum (inject_Z (py_round (py_mul max_pop 100))));
         ("risk_level", VStr (risk_of max_pop))].

(** The body of the [try] block of [fetch_rain_probability]. *)
Definition fetch_forecast (E : Env) (lat lon : value) (place : string)
  (now : Q) (forecast_cache : value) : M value :=
  data <- http_get_json E FORECAST_URL lat lon ;;
  next_12h <- lift (next_12h_of data) ;;
  if negb (truthy next_12h) then
    logging WARNING (LogNoForecastData place) ;;
    ret VNone
  else
    max_pop <- lift (max_pop_of next_12h) ;;
    let summary := summary_of max_pop in
    forecast_cache' <-
      lift (py_setitem forecast_cache place
              (VDict [("timestamp", VNum now); ("data", summary)])) ;;
    save_json FORECAST_CACHE_FILE forecast_cache' ;;
    ret summary.

Definition fetch_rain_probability (E : Env) (lat lon : value)
  (place : string) : M value :=
  if negb (has_api_key E) then ret VNone
  else
    h <- history ;;
    let now := time_time E h in
    forecast_cache <- load_json FORECAST_CACHE_FILE ;;
    cached_entry <- lift (py_get forecast_cache place VNone) ;;
    fresh <- lift (fresh_data now cached_entry) ;;
    match fresh with
    | Some data => ret data
    | None =>
        try_except (fetch_forecast E lat lon place now forecast_cache)
          (fun e =>
             match e with
             | RequestException =>
                 logging ERROR (LogForecastConnection place)
             | _ => logging ERROR (LogForecastError place)
             end ;;
             ret VNone)
    end.

(** ** Main execution *)

Definition empty_result (place : string) : dict :=
  [("place", VStr place); ("temp", VNone); ("feels_like", VNone);
   ("humidity", VNone); ("wind_speed", VNone); ("clouds", VNone);
   ("description", VNone); ("rain_probability", VNone);
   ("risk", VStr "UNKNOWN")].

(** [d.update({k: src[k'] ...})] for the listed pairs [(k, k')]. *)
Fixpoint update_from (src : value) (keys : list (string * string))
  (d : dict) : outcome dict :=
  match keys with
  | [] => Return d
  | (k, k') :: rest =>
      v <~ py_getitem src k' ;;
      d' <~ update_from src rest d ;;
      Return (dict_set k v d')
  end.

(** The body of the loop of [main]. *)
Definition process_location (E : Env) (item : string * value) : M value :=
  let place := fst item in
  let coords := snd item in
  lat <- lift (py_getitem coords "lat") ;;
  lon <- lift (py_getitem coords "lon") ;;
  weather <- fetch_weather E lat lon ;;
  rain <- fetch_rain_probability E lat lon place ;;
  let location_result := empty_result place in
  location_result <-
    (if truthy weather then
       lift (update_from weather
               [("temp", "temp"); ("feels_like", "feels_like");
                ("humidity", "humidity"); ("wind_speed", "wind_speed");
                ("clouds", "clouds"); ("description", "description")]
               location_result)
     else
       logging WARNING (LogWeatherFailed place) ;;
       ret location_result) ;;
  location_result <-
    (if truthy rain then
       lift (update_from rain
               [("rain_probability", "max_rain_prob");
                ("risk", "risk_level")]
               location_result)
     else ret location_result) ;;
  logging INFO (LogLocationLine place (truthy weather) (truthy rain)) ;;
  ret (VDict location_result).

(** The [try] block of [main]. *)
Definition main_try (E : Env) : M unit :=
  location_cache <- get_location_cache E ;;
  locations_data <- lift (py_get location_cache "locations" (VDict [])) ;;
  if negb (truthy locations_data) then
    logging ERROR LogNoLocations
  else
    n <- lift (py_len locations_data) ;;
    logging INFO (LogStarting n) ;;
    items <- lift (py_items locations_data) ;;
    weather_results <- for_each (process_location E) items ;;
    h <- history ;;
    let output_data :=
      VDict [("generated_at", VStr (utcnow_isoformat E h));
             ("locations", VList weather_results)] in
    save_json WEATHER_DATA_FILE output_data ;;
    logging INFO LogSaved.

Definition main (E : Env) : M unit :=
  if negb (has_api_key E) then
    logging CRITICAL LogKeyNotSet
  else
    try_except (main_try E) (fun _ => logging CRITICAL LogCriticalError).

(** ** The historical accumulator ([test_historical.py]) *)

Module TestHistorical.

Definition HISTORICAL_DATA_FILE := "historical_data.json".

Definition str_of_nat (n : nat) : string :=
  NilEmpty.string_of_uint (Nat.to_uint n).

Definition load_historical_data : M (list value) :=
  fun w =>
    match fs w HISTORICAL_DATA_FILE with
    | Missing => (Return [], w)
    | Corrupt =>
        (Return [],
         emit (Stdout ("Failed to decode JSON from " ++ HISTORICAL_DATA_FILE
                      ++ ". Returning empty list.")) w)
    | Content (VList l) => (Return l, w)
    | Content _ =>
        (Return [],
         emit (Stdout (HISTORICAL_DATA_FILE
                      ++ " is not a list. Resetting to empty list.")) w)
    end.

Definition save_json (path : string) (data : value) : M unit :=
  fun w =>
    (Return tt,
     emit (Stdout ("[OK] Saved to " ++ path))
       (emit (Save path data) (write_file path data w))).

(** Lines 71 to 87 of the script: load the record, append the snapshot,
    save the record.  The value is the list as it stands at the end. *)
Definition append_snapshot (snapshot : value) : M (list value) :=
  historical_data <- load_historical_data ;;
  tell (Stdout (String "010" "Current snapshots in historical data: "
               ++ str_of_nat (List.length historical_data))) ;;
  let historical_data := historical_data ++ [snapshot] in
  tell (Stdout "Adding new snapshot...") ;;
  save_json HISTORICAL_DATA_FILE (VList historical_data) ;;
  tell (Stdout ("Total snapshots after update: "
               ++ str_of_nat (List.length historical_data))) ;;
  ret historical_data.

(** The script run once per snapshot, in order. *)
Fixpoint append_all (snapshots : list value) (w : world) : world :=
  match snapshots with
  | [] => w
  | s :: rest => append_all rest (snd (append_snapshot s w))
  end.

End TestHistorical.

(** ** Observations on a run *)

(** The order of [sorted] on names. *)
Definition name_le (s1 s2 : string) : Prop := (s1 <=? s2)%string = true.

(** [extend w evs]: the world [w] after the events [evs] were recorded. *)
Definition extend (w : world) (evs : list event) : world :=
  mkWorld (fs w) (trace w ++ evs).

(** The events recorded between [w] and a later world [w']. *)
Definition new_events (w w' : world) : list event :=
  skipn (List.length (trace w)) (trace w').

(** An invocation of [build_location_cache] announces itself on entry. *)
Definition is_rebuild (e : event) : bool :=
  match e with
  | Log INFO LogBuilding => true
  | _ => false
  end.

Definition rebuilds (evs : list event) : nat :=
  List.length (filter is_rebuild evs).

Definition is_forecast_fetch (e : event) : bool :=
  match e with
  | HttpGet url _ _ => url =? FORECAST_URL
  | _ => false
  end.

Definition forecast_fetches (evs : list event) : nat :=
  List.length (filter is_forecast_fetch evs).

Definition is_save (path : string) (e : event) : bool :=
  match e with
  | Save p _ => p =? path
  | _ => false
  end.

Definition saves (path : string) (evs : list event) : nat :=
  List.length (filter (is_save path) evs).

(** The entries of a location cache of the documented shape. *)
Definition locations_of (d : dict) : dict :=
  match dict_get "locations" d with
  | Some (VDict entries) => entries
  | _ => []
  end.

(** Validity of a location cache, in the words of the specification:
    the fingerprint is that of the configured list and every configured
    name has an entry. *)
Definition cache_valid (E : Env) (d : dict) : Prop :=
  dict_get "version" d = Some (VStr (hash_locations E (LOCATIONS E))) /\
  forall loc, In loc (LOCATIONS E) -> dict_mem loc (locations_of d) = true.

(** The three triggers of a rebuild. *)
Definition cache_invalid (E : Env) (d : dict) : Prop :=
  d = [] \/
  dict_get "version" d <> Some (VStr (hash_locations E (LOCATIONS E))) \/
  exists loc, In loc (LOCATIONS E) /\ dict_mem loc (locations_of d) = false.

(** Events of the geocoding loop. *)
Definition geocoding_event (e : event) : bool :=
  match e with
  | Log INFO (LogGeocoding _) => true
  | Log WARNING (LogCouldNotGeocode _) => true
  | Log ERROR (LogGeocodingTimeout _) => true
  | Log ERROR (LogGeocodingError _) => true
  | Geocode _ => true
  | Sleep _ => true
  | _ => false
  end.

(** [cache_valid] as a test. *)
Definition cache_valid_b (E : Env) (d : dict) : bool :=
  match dict_get "version" d with
  | Some v => is_str (hash_locations E (LOCATIONS E)) v
  | None => false
  end
  && forallb (fun loc => dict_mem loc (locations_of d)) (LOCATIONS E).

(** ** The runs of [fetch_rain_probability] *)

(** What the answer of the forecast provider is turned into by the
    [try] block: an exception, [None] for an empty series, or the
    maximal probability of precipitation. *)
Definition forecast_outcome (resp : http_result) : outcome (option Q) :=
  data <~ http_json resp ;;
  next_12h <~ next_12h_of data ;;
  if negb (truthy next_12h) then Return None
  else
    max_pop <~ max_pop_of next_12h ;;
    Return (Some max_pop).

Definition forecast_error_record (place : string) (e : exn) : log_record :=
  match e with
  | RequestException => LogForecastConnection place
  | _ => LogForecastError place
  end.

(** [forecast_cache.get(place)]. *)
Definition cached_entry_of (place : string) (d : dict) : value :=
  match dict_get place d with
  | Some v => v
  | None => VNone
  end.

Definition new_entry (now : Q) (max_pop : Q) : value :=
  VDict [("timestamp", VNum now); ("data", summary_of max_pop)].

(** [load_json path] in [w] gives [v] and records [evs]. *)
Definition loads (path : string) (w : world) (v : value)
  (evs : list event) : Prop :=
  load_json path w = (Return v, extend w evs) /\
  (evs = [] \/ evs = [Log ERROR (LogDecodeFailed path)]).

(** Every way a call of [fetch_rain_probability] can go. *)
Inductive rain_run (E : Env) (lat lon : value) (place : string) (w : world)
  : outcome value * world -> Prop :=
| RunNoKey :
    has_api_key E = false ->
    rain_run E lat lon place w (Return VNone, w)
| RunNotDict v evs0 e :
    has_api_key E = true ->
    loads FORECAST_CACHE_FILE w v evs0 ->
    py_get v place VNone = Raise e ->
    rain_run E lat lon place w (Raise e, extend w evs0)
| RunBadEntry d evs0 e :
    has_api_key E = true ->
    loads FORECAST_CACHE_FILE w (VDict d) evs0 ->
    fresh_data (time_time E (trace w)) (cached_entry_of place d) = Raise e ->
    rain_run E lat lon place w (Raise e, extend w evs0)
| RunServed d evs0 data :
    has_api_key E = true ->
    loads FORECAST_CACHE_FILE w (VDict d) evs0 ->
    fresh_data (time_time E (trace w)) (cached_entry_of place d)
      = Return (Some data) ->
    rain_run E lat lon place w (Return data, extend w evs0)
| RunFailed d evs0 e :
    has_api_key E = true ->
    loads FORECAST_CACHE_FILE w (VDict d) evs0 ->
    fresh_data (time_time E (trace w)) (cached_entry_of place d)
      = Return None ->
    forecast_outcome (requests_get E (trace w ++ evs0) FORECAST_URL lat lon)
      = Raise e ->
    rain_run E lat lon place w
      (Return VNone,
       extend w (evs0 ++ [HttpGet FORECAST_URL lat lon;
                          Log ERROR (forecast_error_record place e)]))
| RunEmpty d evs0 :
    has_api_key E = true ->
    loads FORECAST_CACHE_FILE w (VDict d) evs0 ->
    fresh_data (time_time E (trace w)) (cached_entry_of place d)
      = Return None ->
    forecast_outcome (requests_get E (trace w ++ evs0) FORECAST_URL lat lon)
      = Return None ->
    rain_run E lat lon place w
      (Return VNone,
       extend w (evs0 ++ [HttpGet FORECAST_URL lat lon;
                          Log WARNING (LogNoForecastData place)]))
| RunFetched d evs0 m :
    has_api_key E = true ->
    loads FORECAST_CACHE_FILE w (VDict d) evs0 ->
    fresh_data (time_time E (trace w)) (cached_entry_of place d)
      = Return None ->
    forecast_outcome (requests_get E (trace w ++ evs0) FORECAST_URL lat lon)
      = Return (Some m) ->
    let cache' :=
      VDict (dict_set place (new_entry (time_time E (trace w)) m) d) in
    rain_run E lat lon place w
      (Return (summary_of m),
       extend (write_file FORECAST_CACHE_FILE cache' w)
         (evs0 ++ [HttpGet FORECAST_URL lat lon;
                   Save FORECAST_CACHE_FILE cache'])).

(** Freshness of a forecast cache entry, in the words of the
    specification: younger than the refresh interval, with both fields
    of the summary. *)
Definition entry_fresh (now : Q) (entry : dict) : Prop :=
  exists ts data,
    dict_get "timestamp" entry = Some (VNum ts) /\
    dict_get "data" entry = Some (VDict data) /\
    now - ts < FORECAST_REFRESH_INTERVAL /\
    dict_mem "max_rain_prob" data = true /\
    dict_mem "risk_level" data = true.

(** The documented shape of a forecast cache entry: a timestamp that is
    a number and, when present, a summary that is a mapping. *)
Definition entry_shaped (v : value) : Prop :=
  exists entry ts,
    v = VDict entry /\
    dict_get "timestamp" entry = Some (VNum ts) /\
    forall x, dict_get "data" entry = Some x -> exists data, x = VDict data.

(** [q] is the probability of precipitation written in a forecast
    item, 0 when the item has none. *)
Definition is_pop (item : value) (q : Q) : Prop :=
  exists i,
    item = VDict i /\
    match dict_get "pop" i with
    | Some v => as_num v = Some q
    | None => q = 0
    end.

Definition is_max (m : Q) (xs : list Q) : Prop :=
  In m xs /\ forall x, In x xs -> x <= m.

(** ** The two ends of a forecast request *)

(** The call returned [None] and wrote nothing. *)
Definition left_untouched (w : world) (run : outcome value * world)
  : Prop :=
  fst run = Return VNone /\
  fs (snd run) = fs w /\
  saves FORECAST_CACHE_FILE (new_events w (snd run)) = 0%nat.

(** The call started at [now] on a cache that loaded as [d]: it
    returned a summary and persisted [d] with that summary under
    [place], every other key and every other file as it was. *)
Definition stored_under (place : string) (now : Q) (d : dict) (w : world)
  (run : outcome value * world) : Prop :=
  exists summary cache',
    fst run = Return summary /\
    summary <> VNone /\
    fs (snd run) FORECAST_CACHE_FILE = Content (VDict cache') /\
    dict_get place cache'
    = Some (VDict [("timestamp", VNum now); ("data", summary)]) /\
    (forall other, other <> place ->
                   dict_get other cache' = dict_get other d) /\
    (forall path, path <> FORECAST_CACHE_FILE ->
                  fs (snd run) path = fs w path).

(** ** Python arithmetic, stated without the functions above *)

(** A binary64 number: a mantissa of at most 53 bits at an exponent
    of at least -1074.  (The exponent has no upper bound here: overflow
    is outside the model.) *)
Definition binary64 (x : Q) : Prop :=
  exists M e : Z,
    (Z.abs M <= 2 ^ 53)%Z /\ (-1074 <= e)%Z /\ x == inject_Z M * 2 ^ e.

(** A binary64 number that can be written with an even mantissa. *)
Definition binary64_even (x : Q) : Prop :=
  exists M e : Z,
    (Z.abs (2 * M) <= 2 ^ 53)%Z /\ (-1074 <= e)%Z /\
    x == inject_Z (2 * M) * 2 ^ e.

(** [x] is the binary64 that round-to-nearest, ties-to-even, makes of
    the real number [t]. *)
Definition nearest_binary64 (t x : Q) : Prop :=
  binary64 x /\
  (forall y, binary64 y -> Qabs (t - x) <= Qabs (t - y)) /\
  (forall y, binary64 y -> ~ y == x -> Qabs (t - y) == Qabs (t - x) ->
             binary64_even x).

(** [n] is the integer nearest to [t], the even one on a tie. *)
Definition nearest_integer (t : Q) (n : Z) : Prop :=
  Qabs (t - inject_Z n) <= 1 # 2 /\
  (Qabs (t - inject_Z n) == 1 # 2 -> Z.even n = true).

Definition is_int (x : Q) : Prop := exists z : Z, x == inject_Z z.

(** [q] is the number Python holds for a literal of value [x]. *)
Definition python_number (x q : Q) : Prop :=
  (is_int x -> q == x) /\ (~ is_int x -> nearest_binary64 x q).

(** [p] is the value of [x * 100] in Python. *)
Definition times_100 (x p : Q) : Prop :=
  (is_int x -> p == x * 100) /\
  (~ is_int x -> nearest_binary64 (x * 100) p).

(** ** Observations on snapshots *)

(** Every event except a write of the snapshot file. *)
Definition not_snapshot (e : event) : bool :=
  negb (is_save WEATHER_DATA_FILE e).

(** A location result carries no timestamp of its own. *)
Definition no_stamp (r : value) : Prop :=
  exists d, r = VDict d /\ dict_get "generated_at" d = None.

(** The history up to the start of the per-location loop of [main]:
    through the line that announces the number of locations. *)
Fixpoint assembly_start (tr : list event) : list event :=
  match tr with
  | [] => []
  | Log INFO (LogStarting n) :: _ => [Log INFO (LogStarting n)]
  | e :: tr' => e :: assembly_start tr'
  end.

(** [m] records only events accepted by [P], after those already there. *)
Definition emits {A} (P : event -> bool) (m : M A) : Prop :=
  forall w, exists evs,
    trace (snd (m w)) = trace w ++ evs /\ forallb P evs = true.

(** Every value [m] returns satisfies [Q]. *)
Definition returns {A} (Q : A -> Prop) (m : M A) : Prop :=
  forall w a w', m w = (Return a, w') -> Q a.

(** ** A sample environment for concrete runs

    One configured place, an API key, providers that answer every
    request, and a clock that advances by one second with every event
    of the history.  The digest and [capitalize] are stand-ins: the runs
    below do not depend on their values. *)

Definition sample_forecast : value :=
  VDict [("list", VList [VDict [("pop", VNum (7 # 10))]; VDict []])].

Definition sample_weather : value :=
  VDict [("main", VDict [("temp", VNum 31); ("feels_like", VNum 33);
                         ("temp_min", VNum 30); ("temp_max", VNum 32);
                         ("humidity", VNum 40)]);
         ("weather", VList [VDict [("description", VStr "Clear sky")]]);
         ("wind", VDict [("speed", VNum 3)]);
         ("clouds", VDict [("all", VNum 5)])].

Definition iso_second (n : nat) : string :=
  "2024-01-01T00:00:" ++ (if Nat.ltb n 10 then "0" else "")
    ++ TestHistorical.str_of_nat n ++ "+00:00".

Definition sample_env : Env :=
  mkEnv (Some "key") ["Kano, Kano, Nigeria"]
    (fun s => s) (fun s => s)
    (fun h => 100000 + inject_Z (Z.of_nat (List.length h)))
    (fun h => iso_second (List.length h))
    (fun _ _ => Located 12 (17 # 2))
    (fun _ url _ _ =>
       HttpJson (if url =? WEATHER_URL then sample_weather
                 else sample_forecast)).

Definition empty_world : world := mkWorld (fun _ => Missing) [].

(** A world whose only file is [path], holding [v]. *)
Definition world_with (path : string) (v : value) : world :=
  write_file path v empty_world.

(** A location cache whose fingerprint matches [sample_env] but whose
    entries lack the configured place. *)
Definition incomplete_cache : dict :=
  [("version", VStr (hash_locations sample_env (LOCATIONS sample_env)));
   ("locations", VDict [])].

Definition incomplete_world : world :=
  world_with LOCATION_CACHE_FILE (VDict incomplete_cache).

(** A location cache file that holds a JSON array. *)
Definition array_world : world :=
  world_with LOCATION_CACHE_FILE (VList [VStr "Kano"]).

(** A configuration with the single name ["a|b"], started on the cache
    that was built for the two names ["a"] and ["b"]. *)
Definition pipe_env : Env :=
  mkEnv (Some "key") ["a|b"] (fun s => s) (fun s => s)
    (fun _ => 0) (fun _ => "") (fun _ _ => NotLocated)
    (fun _ _ _ _ => HttpRaises RequestException).

Definition pipe_entries : dict :=
  [("a", VDict [("lat", VNum 1); ("lon", VNum 2)]);
   ("b", VDict [("lat", VNum 3); ("lon", VNum 4)])].

Definition pipe_world : world :=
  world_with LOCATION_CACHE_FILE
    (VDict [("version", VStr (hash_locations pipe_env ["a"; "b"]));
            ("locations", VDict pipe_entries)]).

(** A forecast cache with one entry for the place of [sample_env],
    captured [age] seconds before the clock of [sample_env] at the
    start of a run. *)
Definition cached_summary : dict :=
  [("max_rain_prob", VNum 45); ("risk_level", VStr "MODERATE")].

Definition cached_entry (age : Q) : dict :=
  [("timestamp", VNum (100000 - age)); ("data", VDict cached_summary)].

Definition cached_world (age : Q) : world :=
  world_with FORECAST_CACHE_FILE
    (VDict [("Kano, Kano, Nigeria", VDict (cached_entry age))]).

(** [sample_env] without the API key. *)
Definition nokey_env : Env :=
  mkEnv None (LOCATIONS sample_env)
    (sha256_hexdigest sample_env) (capitalize sample_env)
    (time_time sample_env) (utcnow_isoformat sample_env)
    (geolocator_geocode sample_env) (requests_get sample_env).

(** [sample_env] with a provider that answers with an empty series. *)
Definition empty_series_env : Env :=
  mkEnv (API_KEY sample_env) (LOCATIONS sample_env)
    (sha256_hexdigest sample_env) (capitalize sample_env)
    (time_time sample_env) (utcnow_isoformat sample_env)
    (geolocator_geocode sample_env)
    (fun _ _ _ _ => HttpJson (VDict [("list", VList [])])).

(** A forecast cache that already holds an entry for another place. *)
Definition other_place_world : world :=
  world_with FORECAST_CACHE_FILE
    (VDict [("Jos, Plateau, Nigeria", VDict (cached_entry 100))]).

(** A historical file that holds a JSON object instead of an array. *)
Definition malformed_history : world :=
  world_with TestHistorical.HISTORICAL_DATA_FILE
    (VDict [("generated_at", VStr "2024-01-01T00:00:00+00:00")]).

Definition sample_snapshot (stamp : string) : value :=
  VDict [("generated_at", VStr stamp); ("locations", VList [])].

(** The location result and the snapshot of the run of [main] in
    [sample_env] from [empty_world]. *)
Definition sample_result : value :=
  VDict [("place", VStr "Kano, Kano, Nigeria"); ("temp", VNum 31);
         ("feels_like", VNum 33); ("humidity", VNum 40);
         ("wind_speed", VNum 3); ("clouds", VNum 5);
         ("description", VStr "Clear sky"); ("rain_probability", VNum 70);
         ("risk", VStr "HIGH")].

Definition sample_run_snapshot : value :=
  VDict [("generated_at", VStr "2024-01-01T00:00:12+00:00");
         ("locations", VList [sample_result])].

(** ** Further observations *)

(** [m] changes a file only through a recorded [Save] of its path. *)
Definition tracks {A} (m : M A) : Prop :=
  forall w, exists evs,
    trace (snd (m w)) = trace w ++ evs /\
    forall p, saves p evs = 0%nat -> fs (snd (m w)) p = fs w p.

(** The files of [weather_monitor.py]. *)
Definition known_file (p : string) : bool :=
  (p =? LOCATION_CACHE_FILE) || (p =? FORECAST_CACHE_FILE)
  || (p =? WEATHER_DATA_FILE).

(** Every event except a write of a file that is not one of the three. *)
Definition writes_known (e : event) : bool :=
  match e with
  | Save p _ => known_file p
  | _ => true
  end.

(** A call of [requests.get].  The geocoder reaches its own web
    service inside [geolocator.geocode]: that traffic is not a call of
    [requests.get], and is recorded as the [Geocode] event of the
    call. *)
Definition is_requests_get (e : event) : bool :=
  match e with
  | HttpGet _ _ _ => true
  | _ => false
  end.

(** The calls of [requests.get] among the events, in order. *)
Definition requests_get_calls (evs : list event) : list event :=
  filter is_requests_get evs.

(** [m] calls [requests.get] at most [n] times. *)
Definition requests_at_most {A} (n : nat) (m : M A) : Prop :=
  forall w, exists evs,
    trace (snd (m w)) = trace w ++ evs /\
    (List.length (requests_get_calls evs) <= n)%nat.

(** The calls of the geocoder and the pauses among the events. *)
Definition is_geocoder_step (e : event) : bool :=
  match e with
  | Geocode _ => true
  | Sleep _ => true
  | _ => false
  end.

Definition geocoder_steps (evs : list event) : list event :=
  filter is_geocoder_step evs.

(** The keys of a location result, in order. *)
Definition RESULT_KEYS : list string :=
  ["place"; "temp"; "feels_like"; "humidity"; "wind_speed"; "clouds";
   "description"; "rain_probability"; "risk"].

Definition keys (d : dict) : list string := map fst d.

Definition is_geocode (e : event) : bool :=
  match e with
  | Geocode _ => true
  | _ => false
  end.

(** The calls of the geocoder among the events, in order. *)
Definition geocode_calls (evs : list event) : list event :=
  filter is_geocode evs.

(** The coordinates stored for a located place. *)
Definition is_coordinates (v : value) : Prop :=
  exists lat lon, v = VDict [("lat", VNum lat); ("lon", VNum lon)].

(** A body of the weather endpoint with the required fields and
    without the optional ones. *)
Definition bare_weather : value :=
  VDict [("main", VDict [("temp", VNum 31); ("feels_like", VNum 33);
                         ("temp_min", VNum 30); ("temp_max", VNum 32);
                         ("humidity", VNum 40)]);
         ("weather", VList [VDict [("description", VStr "Clear sky")]])].

Definition bare_weather_env : Env :=
  mkEnv (Some "key") [] (fun s => s) (fun s => s) (fun _ => 0)
    (fun _ => "") (fun _ _ => NotLocated)
    (fun _ _ _ _ => HttpJson bare_weather).

(** Two configured places, of which the geocoder finds the first only. *)
Definition half_located_env : Env :=
  mkEnv (Some "key") ["Kano, Kano, Nigeria"; "Atlantis"]
    (fun s => s) (fun s => s)
    (fun h => 100000 + inject_Z (Z.of_nat (List.length h)))
    (fun h => iso_second (List.length h))
    (fun _ p => if p =? "Atlantis" then NotLocated
                else Located 12 (17 # 2))
    (requests_get sample_env).

(** The result of processing one entry of the location cache. *)
Definition result_of (item : string * value) (r : value) : Prop :=
  exists d,
    r = VDict d /\ keys d = RESULT_KEYS /\
    dict_get "place" d = Some (VStr (fst item)).

(** The location cache that [sample_env] builds. *)
Definition sample_items : dict :=
  [("Kano, Kano, Nigeria", VDict [("lat", VNum 12); ("lon", VNum (17 # 2))])].

Definition sample_cache : value :=
  VDict [("version", VStr "Kano, Kano, Nigeria");
         ("locations", VDict sample_items)].

(** [sample_env] with a forecast provider that times out. *)
Definition forecast_down_env : Env :=
  mkEnv (API_KEY sample_env) (LOCATIONS sample_env)
    (sha256_hexdigest sample_env) (capitalize sample_env)
    (time_time sample_env) (utcnow_isoformat sample_env)
    (geolocator_geocode sample_env)
    (fun _ url _ _ =>
       if url =? WEATHER_URL then HttpJson sample_weather
       else HttpRaises RequestException).

(** ** The export to a table ([test_csv_conversion.py])

    The loop of lines 29 to 48, which flattens the historical record
    into the rows handed to [writer.writerow].  A row is kept as the
    list of its cells; the text that [csv.writer] makes of a cell is
    not modelled.  The value is the rows written and, when the loop
    stops on an exception, that exception. *)

Module TestCsvConversion.

Definition COLUMNS : list string :=
  ["place"; "temp"; "feels_like"; "humidity"; "wind_speed"; "clouds";
   "description"; "rain_probability"; "risk"].

Definition HEADER : list string := "timestamp" :: COLUMNS.

(** [location.get(k, "")] for the listed columns. *)
Fixpoint cells (location : value) (ks : list string)
  : outcome (list value) :=
  match ks with
  | [] => Return []
  | k :: rest =>
      c <~ py_get location k (VStr "") ;;
      cs <~ cells location rest ;;
      Return (c :: cs)
  end.

(** The inner loop, for one snapshot. *)
Fixpoint location_rows (timestamp : value) (locations : list value)
  : list (list value) * option exn :=
  match locations with
  | [] => ([], None)
  | location :: rest =>
      match cells location COLUMNS with
      | Raise e => ([], Some e)
      | Return cs =>
          let (rows, err) := location_rows timestamp rest in
          ((timestamp :: cs) :: rows, err)
      end
  end.

Definition snapshot_rows (snapshot : value)
  : list (list value) * option exn :=
  match py_get snapshot "generated_at" (VStr "") with
  | Raise e => ([], Some e)
  | Return timestamp =>
      match py_get snapshot "locations" (VList []) with
      | Raise e => ([], Some e)
      | Return locations =>
          match py_iter locations with
          | Raise e => ([], Some e)
          | Return items => location_rows timestamp items
          end
      end
  end.

(** The outer loop. *)
Fixpoint flatten (snapshots : list value)
  : list (list value) * option exn :=
  match snapshots with
  | [] => ([], None)
  | snapshot :: rest =>
      match snapshot_rows snapshot with
      | (rows, Some e) => (rows, Some e)
      | (rows, None) =>
          let (rows', err) := flatten rest in (rows ++ rows', err)
      end
  end.

(** [for snapshot in historical_data: ...]. *)
Definition convert_rows (historical_data : value)
  : list (list value) * option exn :=
  match py_iter historical_data with
  | Raise e => ([], Some e)
  | Return snapshots => flatten snapshots
  end.

End TestCsvConversion.

(** A snapshot as [main] builds it: a stamp and location results. *)
Definition snapshot_of (s : string * list dict) : value :=
  VDict [("generated_at", VStr (fst s));
         ("locations", VList (map VDict (snd s)))].

(** The row of a location result under the stamp of its snapshot. *)
Definition row_of (stamp : string) (d : dict) : list value :=
  VStr stamp :: map snd d.

(** * Properties *)

(** ** The order on names used by [sorted] *)

Section StringOrder.

Local Open Scope string_scope.

Lemma string_compare_refl (s : string) : (s ?= s) = Eq.
Proof.
  induction s as [|c s IH]; simpl; [reflexivity|].
  unfold Ascii.compare. now rewrite N.compare_refl.
Qed.

Lemma string_lt_trans (s1 s2 s3 : string) :
  (s1 ?= s2) = Lt -> (s2 ?= s3) = Lt -> (s1 ?= s3) = Lt.
Proof.
  revert s2 s3.
  induction s1 as [|c1 s1 IH]; intros [|c2 s2] [|c3 s3]; simpl;
    try discriminate; try reflexivity.
  unfold Ascii.compare.
  destruct (N.compare_spec (N_of_ascii c1) (N_of_ascii c2)) as [e12|l12|g12];
    try discriminate;
    destruct (N.compare_spec (N_of_ascii c2) (N_of_ascii c3)) as [e23|l23|g23];
    try discriminate; intros H12 H23.
  - rewrite e12, e23, N.compare_refl. eauto.
  - rewrite e12. now rewrite (proj2 (N.compare_lt_iff _ _) l23).
  - rewrite <- e23. now rewrite (proj2 (N.compare_lt_iff _ _) l12).
  - now rewrite (proj2 (N.compare_lt_iff _ _) (N.lt_trans _ _ _ l12 l23)).
Qed.

Lemma string_leb_trans (s1 s2 s3 : string) :
  (s1 <=? s2) = true -> (s2 <=? s3) = true -> (s1 <=? s3) = true.
Proof.
  unfold String.leb.
  destruct (s1 ?= s2) eqn:H12; try discriminate;
    destruct (s2 ?= s3) eqn:H23; try discriminate; intros _ _.
  - apply String.compare_eq_iff in H12. subst. now rewrite H23.
  - apply String.compare_eq_iff in H12. subst. now rewrite H23.
  - apply String.compare_eq_iff in H23. subst. now rewrite H12.
  - now rewrite (string_lt_trans _ _ _ H12 H23).
Qed.

Lemma insert_sorted_perm (x : string) (l : list string) :
  Permutation (x :: l) (insert_sorted x l).
Proof.
  induction l as [|y l IH]; simpl; [reflexivity|].
  destruct (x <=? y); [reflexivity|].
  rewrite perm_swap. now constructor.
Qed.

Lemma sorted_perm (l : list string) : Permutation l (sorted l).
Proof.
  induction l as [|x l IH]; simpl; [constructor|].
  rewrite <- insert_sorted_perm. now constructor.
Qed.

Lemma insert_sorted_ordered (x : string) (l : list string) :
  StronglySorted name_le l -> StronglySorted name_le (insert_sorted x l).
Proof.
  induction 1 as [|y l Hl IH Hy]; simpl.
  - repeat constructor.
  - destruct (x <=? y) eqn:Hxy.
    + constructor; [now constructor|].
      constructor; [exact Hxy|].
      rewrite Forall_forall in *. intros z Hz.
      apply string_leb_trans with y; auto. apply Hy, Hz.
    + constructor; [exact IH|].
      assert (Hyx : name_le y x).
      { destruct (String.leb_total x y) as [H|H]; [congruence|exact H]. }
      rewrite Forall_forall in *. intros z Hz.
      apply (Permutation_in _ (Permutation_sym (insert_sorted_perm x l))) in Hz.
      destruct Hz as [<-|Hz]; auto.
Qed.

Lemma sorted_ordered (l : list string) : StronglySorted name_le (sorted l).
Proof.
  induction l as [|x l IH]; simpl; [constructor|].
  now apply insert_sorted_ordered.
Qed.

(** Two ordered lists with the same elements are the same list. *)
Lemma ordered_perm_unique (l l' : list string) :
  StronglySorted name_le l -> StronglySorted name_le l' ->
  Permutation l l' -> l = l'.
Proof.
  intros Hl. revert l'.
  induction Hl as [|x l Hl IH Hx]; intros l' Hl' P.
  - apply Permutation_nil in P. now subst.
  - destruct Hl' as [|y l' Hl' Hy].
    + apply Permutation_sym, Permutation_nil in P. discriminate.
    + assert (x = y) as <-.
      { rewrite Forall_forall in Hx, Hy.
        assert (Hyin : In y (x :: l))
          by (apply (Permutation_in _ (Permutation_sym P)); now left).
        assert (Hxin : In x (y :: l'))
          by (apply (Permutation_in _ P); now left).
        destruct Hyin as [e|Hyin]; [exact e|].
        destruct Hxin as [e|Hxin]; [now symmetry|].
        apply String.leb_antisym; [apply Hx, Hyin | apply Hy, Hxin]. }
      f_equal. apply IH; [exact Hl'|].
      now apply Permutation_cons_inv with x.
Qed.

Lemma sorted_permutation (l l' : list string) :
  Permutation l l' -> sorted l = sorted l'.
Proof.
  intros P. apply ordered_perm_unique; try apply sorted_ordered.
  rewrite <- (sorted_perm l), <- (sorted_perm l'). exact P.
Qed.

End StringOrder.

(** ** Fingerprint *)

(** C7: [hash_locations] gives the same digest for every permutation of
    a list of names.  It is a function of its argument alone (and of the
    digest primitive): the embedding has it outside the monad. *)
Theorem hash_locations_order_independent (E : Env) (l l' : list string) :
  Permutation l l' -> hash_locations E l = hash_locations E l'.
Proof.
  intros P. unfold hash_locations. now rewrite (sorted_permutation l l' P).
Qed.

Lemma hash_locations_order_independent_witness :
  Permutation ["A"; "B"] ["B"; "A"] /\
  hash_locations sample_env ["A"; "B"] = hash_locations sample_env ["B"; "A"].
Proof.
  split; [apply perm_swap|].
  apply (hash_locations_order_independent sample_env), perm_swap.
Defined.

(** ** Worlds and traces *)

Lemma emit_extend (e : event) (w : world) : emit e w = extend w [e].
Proof. reflexivity. Qed.

Lemma extend_extend (w : world) (a b : list event) :
  extend (extend w a) b = extend w (a ++ b).
Proof. unfold extend; simpl. now rewrite app_assoc. Qed.

Lemma extend_nil (w : world) : extend w [] = w.
Proof. destruct w; unfold extend; simpl. now rewrite app_nil_r. Qed.

Lemma new_events_app (w w' : world) (evs : list event) :
  trace w' = trace w ++ evs -> new_events w w' = evs.
Proof.
  intros H. unfold new_events. rewrite H.
  rewrite skipn_app, skipn_all, Nat.sub_diag. reflexivity.
Qed.

Lemma new_events_extend (w : world) (evs : list event) :
  new_events w (extend w evs) = evs.
Proof. now apply new_events_app. Qed.

Lemma rebuilds_app (a b : list event) :
  rebuilds (a ++ b) = (rebuilds a + rebuilds b)%nat.
Proof. unfold rebuilds. now rewrite filter_app, length_app. Qed.

Lemma forecast_fetches_app (a b : list event) :
  forecast_fetches (a ++ b) = (forecast_fetches a + forecast_fetches b)%nat.
Proof. unfold forecast_fetches. now rewrite filter_app, length_app. Qed.

Lemma saves_app (path : string) (a b : list event) :
  saves path (a ++ b) = (saves path a + saves path b)%nat.
Proof. unfold saves. now rewrite filter_app, length_app. Qed.

(** ** Dictionaries *)

Lemma dict_get_set_same (k : string) (v : value) (d : dict) :
  dict_get k (dict_set k v d) = Some v.
Proof.
  induction d as [|[k' v'] d IH]; simpl.
  - now rewrite String.eqb_refl.
  - destruct (k' =? k) eqn:He; simpl.
    + now rewrite String.eqb_refl.
    + now rewrite He.
Qed.

Lemma dict_get_set_other (k k' : string) (v : value) (d : dict) :
  k' <> k -> dict_get k' (dict_set k v d) = dict_get k' d.
Proof.
  intros Hne. induction d as [|[k0 v0] d IH]; simpl.
  - destruct (String.eqb_spec k k'); [congruence|reflexivity].
  - destruct (String.eqb_spec k0 k) as [->|Hk0]; simpl.
    + destruct (String.eqb_spec k k'); [congruence|].
      destruct (String.eqb_spec k k'); [congruence|reflexivity].
    + destruct (String.eqb_spec k0 k'); [reflexivity|exact IH].
Qed.

(** ** The JSON store *)

Lemma load_json_content (path : string) (w : world) (v : value) :
  fs w path = Content v -> load_json path w = (Return v, w).
Proof. intros H. unfold load_json. now rewrite H. Qed.

(** What [load_json] leaves behind: the files are untouched and at most
    one line is logged. *)
Lemma load_json_world (path : string) (w : world) :
  exists v evs,
    load_json path w = (Return v, extend w evs) /\
    (evs = [] \/ evs = [Log ERROR (LogDecodeFailed path)]) /\
    (forall x, fs w path = Content x -> v = x) /\
    (fs w path = Missing \/ fs w path = Corrupt -> v = VDict []).
Proof.
  unfold load_json. destruct (fs w path) as [| |x] eqn:Hf.
  - exists (VDict []), []. rewrite extend_nil.
    repeat split; auto; intros; discriminate.
  - exists (VDict []), [Log ERROR (LogDecodeFailed path)].
    repeat split; auto; intros; discriminate.
  - exists x, []. rewrite extend_nil.
    repeat split; auto.
    + intros y Hy. now inversion Hy.
    + intros [H|H]; discriminate.
Qed.

(** ** Location cache *)

Lemma count_none (P Q : event -> bool) (evs : list event) :
  (forall e, P e = true -> Q e = false) ->
  forallb P evs = true -> List.length (filter Q evs) = 0%nat.
Proof.
  intros HPQ. induction evs as [|e evs IH]; simpl; [reflexivity|].
  intros H. apply andb_prop in H. destruct H as [He Hevs].
  rewrite (HPQ e He). auto.
Qed.

Lemma geocoding_no_rebuild (evs : list event) :
  forallb geocoding_event evs = true -> rebuilds evs = 0%nat.
Proof.
  apply count_none. intros [[] []| | | | |]; simpl; congruence.
Qed.

Lemma geocode_place_world (E : Env) (entries : dict) (place : string)
  (w : world) :
  exists entries' evs,
    geocode_place E entries place w = (Return entries', extend w evs) /\
    forallb geocoding_event evs = true.
Proof.
  unfold geocode_place, bind, logging, tell, history, ret; simpl.
  destruct (geolocator_geocode E (trace w ++ [Log INFO (LogGeocoding place)])
              place) as [lat lon| |e]; simpl.
  - eexists _, [_; _; _]. rewrite !emit_extend, !extend_extend.
    split; reflexivity.
  - eexists _, [_; _; _; _]. rewrite !emit_extend, !extend_extend.
    split; reflexivity.
  - destruct e; simpl;
      eexists _, [_; _; _]; rewrite !emit_extend, !extend_extend;
      split; reflexivity.
Qed.

Lemma geocode_all_world (E : Env) (places : list string) :
  forall (entries : dict) (w : world),
  exists entries' evs,
    geocode_all E entries places w = (Return entries', extend w evs) /\
    forallb geocoding_event evs = true.
Proof.
  induction places as [|place rest IH]; intros entries w; simpl.
  - exists entries, []. now rewrite extend_nil.
  - destruct (geocode_place_world E entries place w) as (e1 & evs1 & H1 & G1).
    destruct (IH e1 (extend w evs1)) as (e2 & evs2 & H2 & G2).
    exists e2, (evs1 ++ evs2).
    unfold bind. rewrite H1, H2, extend_extend, forallb_app, G1, G2.
    now split.
Qed.

(** One invocation of [build_location_cache]: it announces itself once,
    geocodes, persists the new cache and returns it. *)
Lemma build_location_cache_world (E : Env) (w : world) :
  exists entries evs,
    let cache :=
      VDict [("version", VStr (hash_locations E (LOCATIONS E)));
             ("locations", VDict entries)] in
    build_location_cache E w =
      (Return cache,
       extend (write_file LOCATION_CACHE_FILE cache w)
         (Log INFO LogBuilding :: evs
            ++ [Save LOCATION_CACHE_FILE cache; Log INFO LogCacheBuilt])) /\
    forallb geocoding_event evs = true.
Proof.
  unfold build_location_cache, bind, logging, tell, save_json, ret.
  destruct (geocode_all_world E (LOCATIONS E) []
              (emit (Log INFO LogBuilding) w)) as (entries & evs & H & G).
  exists entries, evs. simpl. rewrite H. split; [|exact G].
  f_equal. unfold extend, emit, write_file; simpl.
  f_equal. rewrite <- !app_assoc. reflexivity.
Qed.

Lemma build_location_cache_rebuilds (E : Env) (w : world) :
  rebuilds (new_events w (snd (build_location_cache E w))) = 1%nat.
Proof.
  destruct (build_location_cache_world E w) as (entries & evs & H & G).
  simpl in H. rewrite H. simpl snd.
  erewrite new_events_app by reflexivity.
  change (Log INFO LogBuilding :: ?l) with ([Log INFO LogBuilding] ++ l).
  rewrite !rebuilds_app, (geocoding_no_rebuild evs G). reflexivity.
Qed.

Lemma is_str_true (s : string) (v : value) :
  is_str s v = true <-> v = VStr s.
Proof.
  destruct v; simpl; try (split; discriminate).
  rewrite String.eqb_eq. split; [now intros ->|now inversion 1].
Qed.

Lemma all_present_typed (d : dict) (locs : list string) :
  (forall v, dict_get "locations" d = Some v -> exists e, v = VDict e) ->
  all_present (VDict d) locs =
    Return (forallb (fun loc => dict_mem loc (locations_of d)) locs).
Proof.
  intros Hty. unfold locations_of.
  induction locs as [|loc rest IH]; simpl; [reflexivity|].
  destruct (dict_get "locations" d) as [v|] eqn:Hl.
  - destruct (Hty v eq_refl) as [e ->]. simpl in *.
    destruct (dict_mem loc e); [exact IH|reflexivity].
  - reflexivity.
Qed.

Lemma cache_valid_b_true (E : Env) (d : dict) :
  cache_valid_b E d = true <-> cache_valid E d.
Proof.
  unfold cache_valid_b, cache_valid.
  rewrite andb_true_iff, forallb_forall.
  destruct (dict_get "version" d) as [v|].
  - rewrite is_str_true. split; intros [H1 H2]; split; auto; congruence.
  - split; intros [H1 H2]; discriminate.
Qed.

Lemma cache_valid_b_false (E : Env) (d : dict) :
  cache_valid_b E d = false <-> cache_invalid E d.
Proof.
  split.
  - intros H. unfold cache_valid_b in H. apply andb_false_iff in H.
    destruct H as [H|H].
    + right; left. intros Hv. rewrite Hv in H.
      simpl in H. now rewrite String.eqb_refl in H.
    + right; right.
      induction (LOCATIONS E) as [|loc rest IH]; simpl in H; [discriminate|].
      apply andb_false_iff in H. destruct H as [H|H].
      * exists loc. split; [now left|exact H].
      * destruct (IH H) as (l & Hin & Hl). exists l. split; [now right|auto].
  - intros H. destruct (cache_valid_b E d) eqn:Hb; [|reflexivity].
    apply cache_valid_b_true in Hb. destruct Hb as [Hv Hall].
    destruct H as [->|[H|(loc & Hin & Hl)]].
    + discriminate.
    + contradiction.
    + rewrite (Hall loc Hin) in Hl. discriminate.
Qed.

(** The two ways out of [get_location_cache] on a cache of the documented
    shape: the cache itself, or one call of [build_location_cache]. *)
Lemma get_location_cache_run (E : Env) (w : world) (d : dict) :
  fst (load_json LOCATION_CACHE_FILE w) = Return (VDict d) ->
  (forall v, dict_get "locations" d = Some v -> exists e, v = VDict e) ->
  exists evs,
    (forall e, In e evs -> is_rebuild e = false) /\
    if cache_valid_b E d then
      get_location_cache E w =
        (Return (VDict d), extend w (evs ++ [Log INFO LogCacheLoaded]))
    else
      exists reason,
        get_location_cache E w =
          build_location_cache E (extend w (evs ++ [Log INFO reason])) /\
        (reason = LogCacheOutdated \/ reason = LogCacheIncomplete).
Proof.
  intros Hload Hty.
  destruct (load_json_world LOCATION_CACHE_FILE w)
    as (v & evs & Hl & Hevs & _ & _).
  rewrite Hl in Hload. simpl in Hload. inversion Hload; subst v.
  exists evs. split.
  { intros e He. destruct Hevs as [->| ->]; [contradiction|].
    destruct He as [<-|[]]. reflexivity. }
  unfold get_location_cache, bind. rewrite Hl.
  unfold cache_valid_b.
  destruct d as [|kv d'].
  - simpl. exists LogCacheOutdated. unfold logging, tell, bind.
    rewrite emit_extend, extend_extend. auto.
  - set (d := kv :: d') in *.
    change (negb (truthy (VDict d))) with false. cbv iota.
    unfold lift, version_differs, py_get.
    destruct (dict_get "version" d) as [v|] eqn:Hv.
    + destruct (is_str (hash_locations E (LOCATIONS E)) v) eqn:Hs; simpl.
      * rewrite (all_present_typed d (LOCATIONS E) Hty).
        destruct (forallb _ (LOCATIONS E)); unfold logging, tell, bind, ret;
          rewrite emit_extend, extend_extend.
        -- reflexivity.
        -- exists LogCacheIncomplete. auto.
      * exists LogCacheOutdated. unfold logging, tell, bind.
        rewrite emit_extend, extend_extend. auto.
    + simpl. exists LogCacheOutdated. unfold logging, tell, bind.
      rewrite emit_extend, extend_extend. auto.
Qed.

(** C3: on a location cache of the documented shape,
    [get_location_cache] runs [build_location_cache] exactly once when
    the cache is empty, its version differs from the fingerprint of
    [LOCATIONS], or a configured name has no entry (also when the
    fingerprint matches); a valid cache is returned as it is, without a
    rebuild and without touching any file. *)
Theorem get_location_cache_rebuilds_once (E : Env) (w : world) (d : dict) :
  fst (load_json LOCATION_CACHE_FILE w) = Return (VDict d) ->
  (forall v, dict_get "locations" d = Some v -> exists e, v = VDict e) ->
  let run := get_location_cache E w in
  (cache_invalid E d ->
     rebuilds (new_events w (snd run)) = 1%nat /\
     exists w0, fs w0 = fs w /\ run = build_location_cache E w0) /\
  (cache_valid E d ->
     fst run = Return (VDict d) /\
     rebuilds (new_events w (snd run)) = 0%nat /\
     fs (snd run) = fs w).
Proof.
  intros Hload Hty run.
  destruct (get_location_cache_run E w d Hload Hty) as (evs & Hq & Hrun).
  assert (Hevs : rebuilds evs = 0%nat).
  { unfold rebuilds. clear Hrun.
    induction evs as [|e evs IH]; simpl; [reflexivity|].
    rewrite (Hq e (or_introl eq_refl)). apply IH.
    intros e' He'. apply Hq. now right. }
  split.
  - intros Hinv. apply cache_valid_b_false in Hinv. rewrite Hinv in Hrun.
    destruct Hrun as (reason & Hrun & Hreason).
    fold run in Hrun. split.
    + rewrite Hrun.
      destruct (build_location_cache_world E
                  (extend w (evs ++ [Log INFO reason])))
        as (entries & bevs & Hb & G).
      simpl in Hb. rewrite Hb. simpl snd.
      erewrite new_events_app
        by (unfold extend; simpl; rewrite <- app_assoc; reflexivity).
      change (Log INFO LogBuilding :: ?l) with ([Log INFO LogBuilding] ++ l).
      rewrite !rebuilds_app, Hevs, (geocoding_no_rebuild bevs G).
      destruct Hreason as [-> | ->]; reflexivity.
    + exists (extend w (evs ++ [Log INFO reason])). split; [reflexivity|exact Hrun].
  - intros Hval. apply cache_valid_b_true in Hval. rewrite Hval in Hrun.
    fold run in Hrun. rewrite Hrun. simpl.
    rewrite new_events_extend, rebuilds_app, Hevs. auto.
Qed.

Lemma get_location_cache_rebuilds_once_witness :
  rebuilds (new_events incomplete_world
              (snd (get_location_cache sample_env incomplete_world))) = 1%nat.
Proof.
  apply (get_location_cache_rebuilds_once sample_env incomplete_world
           incomplete_cache).
  - reflexivity.
  - simpl. intros v Hv. inversion Hv. now exists [].
  - right; right. exists "Kano, Kano, Nigeria". split; [now left|reflexivity].
Defined.

(** C9: the fingerprint is not injective.  The one-name list ["a|b"] and
    the two-name list ["a"; "b"] have the same digest, so a cache built
    for the latter passes the version test of [get_location_cache] under
    the former: the version-mismatch branch is not taken. *)
Theorem hash_locations_not_injective (E : Env) (w : world) (entries : dict) :
  LOCATIONS E = ["a|b"] ->
  fs w LOCATION_CACHE_FILE =
    Content (VDict [("version", VStr (hash_locations E ["a"; "b"]));
                    ("locations", VDict entries)]) ->
  ["a|b"] <> ["a"; "b"] /\
  hash_locations E ["a|b"] = hash_locations E ["a"; "b"] /\
  ~ In (Log INFO LogCacheOutdated)
       (new_events w (snd (get_location_cache E w))).
Proof.
  intros HL Hf. split; [discriminate|]. split; [reflexivity|].
  set (d := [("version", VStr (hash_locations E ["a"; "b"]));
             ("locations", VDict entries)]) in *.
  assert (Hload : fst (load_json LOCATION_CACHE_FILE w) = Return (VDict d))
    by now rewrite (load_json_content _ _ _ Hf).
  assert (Hty : forall v, dict_get "locations" d = Some v ->
                          exists e, v = VDict e).
  { simpl. intros v Hv. inversion Hv. now exists entries. }
  unfold get_location_cache, bind.
  rewrite (load_json_content _ _ _ Hf).
  change (negb (truthy (VDict d))) with false. cbv iota.
  rewrite HL.
  assert (Hv : version_differs (VDict d) (hash_locations E ["a|b"])
               = Return false).
  { unfold version_differs, d. simpl.
    change (hash_locations E ["a|b"]) with (hash_locations E ["a"; "b"]).
    now rewrite String.eqb_refl. }
  unfold lift at 1. rewrite Hv.
  unfold lift. rewrite (all_present_typed d ["a|b"] Hty).
  destruct (forallb _ ["a|b"]).
  - unfold logging, tell, bind, ret. simpl snd.
    rewrite emit_extend, new_events_extend.
    intros [H|[]]. discriminate.
  - unfold logging, tell, bind.
    destruct (build_location_cache_world E (emit (Log INFO LogCacheIncomplete) w))
      as (es & bevs & Hb & G).
    simpl in Hb. rewrite Hb. simpl snd.
    erewrite new_events_app
      by (unfold extend, emit; simpl; rewrite <- app_assoc; reflexivity).
    simpl. intros [H|[H|H]]; try discriminate.
    apply in_app_or in H. destruct H as [H|[H|[H|[]]]]; try discriminate.
    rewrite forallb_forall in G. apply G in H. discriminate.
Qed.

Lemma hash_locations_not_injective_witness :
  hash_locations pipe_env ["a|b"] = hash_locations pipe_env ["a"; "b"] /\
  ~ In (Log INFO LogCacheOutdated)
       (new_events pipe_world (snd (get_location_cache pipe_env pipe_world))).
Proof.
  apply (hash_locations_not_injective pipe_env pipe_world pipe_entries);
    reflexivity.
Defined.

(** C10: [load_json] hands back whatever parsed, of any shape.  When the
    location cache file holds a non-empty JSON array,
    [get_location_cache] raises ([list] has no [get]) instead of
    rebuilding, and [main] ends in its top-level handler: the critical
    line is logged and nothing else happens, so no snapshot is written. *)
Theorem location_cache_array_aborts_run (E : Env) (w : world)
  (x : value) (l : list value) :
  has_api_key E = true ->
  fs w LOCATION_CACHE_FILE = Content (VList (x :: l)) ->
  (forall path v w0, fs w0 path = Content v ->
                     load_json path w0 = (Return v, w0)) /\
  get_location_cache E w = (Raise AttributeError, w) /\
  main E w = (Return tt, emit (Log CRITICAL LogCriticalError) w) /\
  saves WEATHER_DATA_FILE (new_events w (snd (main E w))) = 0%nat /\
  fs (snd (main E w)) = fs w.
Proof.
  intros Hkey Hf.
  assert (Hg : get_location_cache E w = (Raise AttributeError, w)).
  { unfold get_location_cache, bind.
    now rewrite (load_json_content _ _ _ Hf). }
  assert (Hm : main E w = (Return tt, emit (Log CRITICAL LogCriticalError) w)).
  { unfold main. rewrite Hkey. simpl.
    unfold try_except, main_try, bind. now rewrite Hg. }
  split; [intros path v w0; apply load_json_content|].
  split; [exact Hg|]. split; [exact Hm|].
  rewrite Hm. simpl snd. rewrite emit_extend, new_events_extend. now split.
Qed.

Lemma location_cache_array_aborts_run_witness :
  main sample_env array_world =
    (Return tt, emit (Log CRITICAL LogCriticalError) array_world).
Proof.
  apply (location_cache_array_aborts_run sample_env array_world
           (VStr "Kano") []); reflexivity.
Defined.

(** ** Forecast cache *)

Lemma loads_exists (path : string) (w : world) :
  exists v evs, loads path w v evs.
Proof.
  destruct (load_json_world path w) as (v & evs & H & Hq & _).
  exists v, evs. now split.
Qed.

Lemma fetch_rain_probability_run (E : Env) (lat lon : value)
  (place : string) (w : world) :
  rain_run E lat lon place w (fetch_rain_probability E lat lon place w).
Proof.
  unfold fetch_rain_probability.
  destruct (has_api_key E) eqn:K; simpl; [|now apply RunNoKey].
  destruct (loads_exists FORECAST_CACHE_FILE w) as (v & evs0 & L).
  pose proof L as [Hl _].
  unfold bind at 1. unfold history. unfold bind at 1. rewrite Hl.
  unfold bind at 1. unfold lift at 1.
  destruct (py_get v place VNone) as [entry|e] eqn:Hg;
    [|now apply RunNotDict with v].
  destruct v as [| | | | |d]; try discriminate.
  simpl in Hg. inversion Hg as [Hentry]. fold (cached_entry_of place d) in *.
  unfold bind at 1. unfold lift at 1.
  destruct (fresh_data (time_time E (trace w)) (cached_entry_of place d))
    as [[data|]|e] eqn:Hfresh.
  - now apply RunServed with d.
  - unfold try_except, fetch_forecast, http_get_json.
    unfold bind, history, tell, lift, logging, tell, save_json, ret.
    change (trace (extend w evs0)) with (trace w ++ evs0).
    destruct (requests_get E (trace w ++ evs0) FORECAST_URL lat lon)
      as [e|body] eqn:Hresp; simpl http_json; cbv iota beta.
    + assert (Ho : forecast_outcome
                     (requests_get E (trace w ++ evs0) FORECAST_URL lat lon)
                   = Raise e) by now rewrite Hresp.
      pose proof (RunFailed E lat lon place w d evs0 e K L Hfresh Ho) as R.
      destruct e; simpl in R |- *;
        rewrite !emit_extend, !extend_extend; exact R.
    + destruct (next_12h_of body) as [next|e] eqn:Hnext.
      * destruct (truthy next) eqn:Ht; simpl negb; cbv iota.
        -- destruct (max_pop_of next) as [m|e] eqn:Hm.
           ++ assert (Ho : forecast_outcome
                             (requests_get E (trace w ++ evs0)
                                FORECAST_URL lat lon)
                           = Return (Some m)).
              { rewrite Hresp. unfold forecast_outcome. simpl.
                now rewrite Hnext, Ht, Hm. }
              pose proof (RunFetched E lat lon place w d evs0 m K L Hfresh Ho)
                as R.
              simpl in R |- *.
              replace (emit _ (write_file _ _ (emit _ (extend w evs0))))
                with (extend
                        (write_file FORECAST_CACHE_FILE
                           (VDict (dict_set place
                                     (new_entry (time_time E (trace w)) m) d))
                           w)
                        (evs0 ++ [HttpGet FORECAST_URL lat lon;
                                  Save FORECAST_CACHE_FILE
                                    (VDict
                                       (dict_set place
                                          (new_entry (time_time E (trace w)) m)
                                          d))])); [exact R|].
              unfold extend, emit, write_file, new_entry; simpl.
              f_equal. now rewrite <- !app_assoc.
           ++ assert (Ho : forecast_outcome
                             (requests_get E (trace w ++ evs0)
                                FORECAST_URL lat lon)
                           = Raise e).
              { rewrite Hresp. unfold forecast_outcome. simpl.
                now rewrite Hnext, Ht, Hm. }
              pose proof (RunFailed E lat lon place w d evs0 e K L Hfresh Ho)
                as R.
              destruct e; simpl in R |- *;
                rewrite !emit_extend, !extend_extend; exact R.
        -- assert (Ho : forecast_outcome
                          (requests_get E (trace w ++ evs0)
                             FORECAST_URL lat lon)
                        = Return None).
           { rewrite Hresp. unfold forecast_outcome. simpl.
             now rewrite Hnext, Ht. }
           pose proof (RunEmpty E lat lon place w d evs0 K L Hfresh Ho) as R.
           simpl. rewrite !emit_extend, !extend_extend; exact R.
      * assert (Ho : forecast_outcome
                       (requests_get E (trace w ++ evs0) FORECAST_URL lat lon)
                     = Raise e).
        { rewrite Hresp. unfold forecast_outcome. simpl. now rewrite Hnext. }
        pose proof (RunFailed E lat lon place w d evs0 e K L Hfresh Ho) as R.
        destruct e; simpl in R |- *;
          rewrite !emit_extend, !extend_extend; exact R.
  - now apply RunBadEntry with d.
Qed.

Lemma Qlt_bool_iff (x y : Q) : Qlt_bool x y = true <-> x < y.
Proof.
  unfold Qlt_bool. rewrite negb_true_iff. split.
  - intros H. apply Qnot_le_lt. intros Hle.
    apply Qle_bool_iff in Hle. congruence.
  - intros H. destruct (Qle_bool y x) eqn:Hb; [|reflexivity].
    apply Qle_bool_iff in Hb. exfalso. now apply (Qlt_not_le x y).
Qed.

Lemma loads_fst (path : string) (w : world) (v v' : value)
  (evs : list event) :
  loads path w v evs -> fst (load_json path w) = Return v' -> v = v'.
Proof. intros [H _] H'. rewrite H in H'. now inversion H'. Qed.

Lemma loads_quiet (path : string) (w : world) (v : value)
  (evs : list event) (e : event) :
  loads path w v evs -> In e evs -> e = Log ERROR (LogDecodeFailed path).
Proof.
  intros [_ [-> | ->]] H; [contradiction|]. now destruct H as [<-|[]].
Qed.

Lemma loads_no_fetch (path : string) (w : world) (v : value)
  (evs : list event) :
  loads path w v evs -> forecast_fetches evs = 0%nat.
Proof. intros [_ [-> | ->]]; reflexivity. Qed.

(** The cache check on an entry of the documented shape. *)
Lemma fresh_data_shaped (now : Q) (entry : dict) :
  entry_shaped (VDict entry) ->
  (entry_fresh now entry ->
     exists data, dict_get "data" entry = Some (VDict data) /\
                  fresh_data now (VDict entry) = Return (Some (VDict data))) /\
  (~ entry_fresh now entry -> fresh_data now (VDict entry) = Return None).
Proof.
  intros (entry' & ts & He & Hts & Hdata). inversion He; subst entry'.
  assert (Ht : truthy (VDict entry) = true).
  { destruct entry; [discriminate|reflexivity]. }
  unfold fresh_data. rewrite Ht. unfold py_get. rewrite Hts.
  unfold py_age, as_num.
  destruct (dict_get "data" entry) as [x|] eqn:Hx.
  - destruct (Hdata x eq_refl) as [data ->].
    split.
    + intros (ts' & data' & Hts' & Hd' & Hage & Hp & Hr).
      rewrite Hts in Hts'. rewrite Hx in Hd'.
      inversion Hts'; inversion Hd'; subst ts' data'.
      exists data. split; [reflexivity|].
      rewrite (proj2 (Qlt_bool_iff _ _) Hage). simpl.
      now rewrite Hp, Hr.
    + intros Hn.
      destruct (Qlt_bool (now - ts) FORECAST_REFRESH_INTERVAL) eqn:Hage;
        [|reflexivity].
      simpl. destruct (dict_mem "max_rain_prob" data) eqn:Hp; [|reflexivity].
      destruct (dict_mem "risk_level" data) eqn:Hr; [|reflexivity].
      exfalso. apply Hn. exists ts, data.
      rewrite Qlt_bool_iff in Hage. auto.
  - split.
    + intros (ts' & data' & _ & Hd' & _). congruence.
    + intros _.
      destruct (Qlt_bool (now - ts) FORECAST_REFRESH_INTERVAL); reflexivity.
Qed.

Lemma fresh_data_of_cache (now : Q) (place : string) (d : dict) :
  (forall v, dict_get place d = Some v -> entry_shaped v) ->
  (forall entry, dict_get place d = Some (VDict entry) ->
     entry_fresh now entry ->
     exists data, dict_get "data" entry = Some (VDict data) /\
       fresh_data now (cached_entry_of place d) = Return (Some (VDict data))) /\
  ((forall entry, dict_get place d = Some (VDict entry) ->
      ~ entry_fresh now entry) ->
   fresh_data now (cached_entry_of place d) = Return None).
Proof.
  intros Hshape. unfold cached_entry_of.
  destruct (dict_get place d) as [v|] eqn:Hv.
  - pose proof (Hshape v eq_refl) as Hs.
    pose proof Hs as (entry & ts & -> & _).
    destruct (fresh_data_shaped now entry Hs) as [Hyes Hno].
    split.
    + intros entry' He' Hf. inversion He'; subst entry'. auto.
    + intros Hn. apply Hno. now apply Hn.
  - split; [intros entry He; discriminate|reflexivity].
Qed.

Ltac rain_cases E lat lon place w :=
  let R := fresh "R" in
  let run := fresh "run" in
  pose proof (fetch_rain_probability_run E lat lon place w) as R;
  remember (fetch_rain_probability E lat lon place w) as run;
  destruct R.

(** C1: on a call that gets past the API key guard and finds a forecast
    cache of the documented shape, a fresh entry for the place (younger
    than 7200 seconds, with both fields of the summary) is returned as
    it is, with no forecast request and no file touched; in every other
    case (no entry, age of 7200 seconds or more, a field of the summary
    missing) exactly one forecast request is made. *)
Theorem forecast_cache_freshness (E : Env) (lat lon : value)
  (place : string) (w : world) (d : dict) :
  has_api_key E = true ->
  fst (load_json FORECAST_CACHE_FILE w) = Return (VDict d) ->
  (forall v, dict_get place d = Some v -> entry_shaped v) ->
  let now := time_time E (trace w) in
  let run := fetch_rain_probability E lat lon place w in
  let evs := new_events w (snd run) in
  (forall entry,
     dict_get place d = Some (VDict entry) -> entry_fresh now entry ->
     (exists data, dict_get "data" entry = Some data /\
                   fst run = Return data) /\
     forecast_fetches evs = 0%nat /\
     fs (snd run) = fs w) /\
  ((forall entry,
      dict_get place d = Some (VDict entry) -> ~ entry_fresh now entry) ->
   forecast_fetches evs = 1%nat /\
   In (HttpGet FORECAST_URL lat lon) evs).
Proof.
  intros K Hload Hshape now run evs.
  destruct (fresh_data_of_cache now place d Hshape) as [Hyes Hno].
  subst run evs now.
  split.
  - intros entry He Hf.
    destruct (Hyes entry He Hf) as (data & Hd & Hfresh).
    rain_cases E lat lon place w;
      try congruence;
      try (match goal with
           | L : loads _ _ _ _ |- _ =>
               pose proof (loads_fst _ _ _ _ _ L Hload) as Hv;
               try subst; try (inversion Hv; subst)
           end);
      try congruence; try discriminate.
    simpl. rewrite new_events_extend.
    split; [|split; [eapply loads_no_fetch; eauto|reflexivity]].
    exists (VDict data). split; [exact Hd|]. congruence.
  - intros Hn. specialize (Hno Hn).
    rain_cases E lat lon place w;
      try congruence;
      try (match goal with
           | L : loads _ _ _ _ |- _ =>
               pose proof (loads_fst _ _ _ _ _ L Hload) as Hv;
               try subst; try (inversion Hv; subst)
           end);
      try congruence; try discriminate;
      simpl snd;
      (erewrite new_events_app by reflexivity);
      (rewrite forecast_fetches_app;
       match goal with
       | L : loads _ _ _ _ |- _ => rewrite (loads_no_fetch _ _ _ _ L)
       end;
       split; [reflexivity|apply in_or_app; right; now left]).
Qed.

Lemma forecast_cache_freshness_witness :
  forecast_fetches
    (new_events (cached_world 7199)
       (snd (fetch_rain_probability sample_env (VNum 12) (VNum (17 # 2))
               "Kano, Kano, Nigeria" (cached_world 7199)))) = 0%nat.
Proof.
  apply (forecast_cache_freshness sample_env (VNum 12) (VNum (17 # 2))
           "Kano, Kano, Nigeria" (cached_world 7199)
           [("Kano, Kano, Nigeria", VDict (cached_entry 7199))])
    with (entry := cached_entry 7199).
  - reflexivity.
  - reflexivity.
  - simpl. intros v Hv. inversion Hv.
    exists (cached_entry 7199), (100000 - 7199). repeat split.
    simpl. intros x Hx. inversion Hx. now exists cached_summary.
  - reflexivity.
  - exists (100000 - 7199), cached_summary. repeat split.
Defined.

(** The boundary of the refresh interval on concrete runs: an entry of
    7199 seconds is served, one of 7200 or 7201 seconds is fetched
    again. *)
Example entry_aged_7199_is_served :
  fetch_rain_probability sample_env (VNum 12) (VNum (17 # 2))
    "Kano, Kano, Nigeria" (cached_world 7199)
  = (Return (VDict cached_summary), cached_world 7199).
Proof. vm_compute. reflexivity. Qed.

Example entry_aged_7201_is_fetched :
  forecast_fetches
    (new_events (cached_world 7201)
       (snd (fetch_rain_probability sample_env (VNum 12) (VNum (17 # 2))
               "Kano, Kano, Nigeria" (cached_world 7201)))) = 1%nat /\
  forecast_fetches
    (new_events (cached_world 7200)
       (snd (fetch_rain_probability sample_env (VNum 12) (VNum (17 # 2))
               "Kano, Kano, Nigeria" (cached_world 7200)))) = 1%nat.
Proof. split; vm_compute; reflexivity. Qed.

(** The guard at the head of [fetch_rain_probability]: without an API
    key the cache is not consulted and no request is made.  [main]
    returns before its loop in that case, so it never makes such a
    call. *)
Example fetch_rain_probability_without_key :
  dict_get "Kano, Kano, Nigeria"
    [("Kano, Kano, Nigeria", VDict (cached_entry 7199))]
  = Some (VDict (cached_entry 7199)) /\
  entry_fresh (time_time nokey_env (trace (cached_world 7199)))
    (cached_entry 7199) /\
  fetch_rain_probability nokey_env (VNum 12) (VNum (17 # 2))
    "Kano, Kano, Nigeria" (cached_world 7199)
  = (Return VNone, cached_world 7199) /\
  fst (fetch_rain_probability nokey_env (VNum 12) (VNum (17 # 2))
         "Kano, Kano, Nigeria" (cached_world 7199))
  <> Return (VDict cached_summary).
Proof.
  split; [reflexivity|]. split.
  - exists (100000 - 7199), cached_summary. repeat split.
  - split; [reflexivity|]. simpl. discriminate.
Qed.

(** ** Numbers

    Rounding to an integer and to binary64: [py_round] and [b64] meet
    the descriptions [nearest_integer] and [nearest_binary64]. *)

Lemma py_round_comp (q q' : Q) : q == q' -> py_round q = py_round q'.
Proof.
  intros H. unfold py_round.
  rewrite (Qfloor_comp _ _ H).
  assert (Hc : Qcompare (q - inject_Z (Qfloor q')) (1 # 2)
               = Qcompare (q' - inject_Z (Qfloor q')) (1 # 2)).
  { apply Qcompare_comp; [|reflexivity]. now rewrite H. }
  now rewrite Hc.
Qed.

Lemma py_round_near (q : Q) :
  inject_Z (py_round q) - (1 # 2) <= q /\ q <= inject_Z (py_round q) + (1 # 2).
Proof.
  unfold py_round.
  pose proof (Qfloor_le q) as Hlo.
  pose proof (Qlt_floor q) as Hhi.
  rewrite inject_Z_plus in Hhi. change (inject_Z 1) with 1 in Hhi.
  destruct (Qcompare (q - inject_Z (Qfloor q)) (1 # 2)) eqn:Hc.
  - apply Qeq_alt in Hc.
    destruct (Z.even (Qfloor q)); rewrite ?inject_Z_plus;
      change (inject_Z 1) with 1; split; lra.
  - apply Qlt_alt in Hc. split; lra.
  - apply Qgt_alt in Hc. rewrite inject_Z_plus.
    change (inject_Z 1) with 1. split; lra.
Qed.

Lemma py_round_mono (q q' : Q) : q <= q' -> (py_round q <= py_round q')%Z.
Proof.
  intros Hle.
  destruct (Z_le_gt_dec (py_round q) (py_round q')) as [H|H]; [exact H|].
  exfalso.
  assert (Hz : (py_round q' + 1 <= py_round q)%Z) by lia.
  rewrite Zle_Qle, inject_Z_plus in Hz. change (inject_Z 1) with 1 in Hz.
  destruct (py_round_near q) as [Hq _].
  destruct (py_round_near q') as [_ Hq'].
  assert (Heq : q == q') by lra.
  rewrite (py_round_comp q q' Heq) in H. lia.
Qed.

Lemma py_round_Z (z : Z) : py_round (inject_Z z) = z.
Proof.
  unfold py_round. rewrite Qfloor_Z.
  assert (H : Qcompare (inject_Z z - inject_Z z) (1 # 2) = Lt).
  { apply (proj1 (Qlt_alt _ _)). lra. }
  now rewrite H.
Qed.

Lemma Qabs_cases (x : Q) :
  (0 <= x /\ Qabs x == x) \/ (x <= 0 /\ Qabs x == - x).
Proof.
  destruct (Qlt_le_dec x 0) as [H|H].
  - right. split; [lra|]. apply Qabs_neg. lra.
  - left. split; [exact H|]. now apply Qabs_pos.
Qed.

Ltac qabs x :=
  let a := fresh "a" in
  let H := fresh "Ha" in
  pose proof (Qabs_cases x) as H;
  set (a := Qabs x) in *; clearbody a.

Lemma Qabs_scale (a b P : Q) :
  0 < P -> Qabs (a * P - b * P) == Qabs (a - b) * P.
Proof.
  intros HP.
  assert (E : a * P - b * P == (a - b) * P) by ring.
  rewrite E, Qabs_Qmult, (Qabs_pos P); [reflexivity|lra].
Qed.

Lemma py_round_tie (q : Q) :
  Qabs (q - inject_Z (py_round q)) == 1 # 2 -> Z.even (py_round q) = true.
Proof.
  unfold py_round.
  pose proof (Qfloor_le q) as Hlo.
  pose proof (Qlt_floor q) as Hhi.
  rewrite inject_Z_plus in Hhi. change (inject_Z 1) with 1 in Hhi.
  destruct (Qcompare (q - inject_Z (Qfloor q)) (1 # 2)) eqn:Hc.
  - intros _. destruct (Z.even (Qfloor q)) eqn:He; [exact He|].
    rewrite Z.even_add, He. reflexivity.
  - apply Qlt_alt in Hc. intros H. exfalso.
    qabs (q - inject_Z (Qfloor q)). lra.
  - apply Qgt_alt in Hc. rewrite inject_Z_plus.
    change (inject_Z 1) with 1. intros H. exfalso.
    qabs (q - (inject_Z (Qfloor q) + 1)). lra.
Qed.

Lemma py_round_half (q : Q) : Qabs (q - inject_Z (py_round q)) <= 1 # 2.
Proof.
  destruct (py_round_near q) as [H1 H2].
  qabs (q - inject_Z (py_round q)). lra.
Qed.

Lemma py_round_nearest_integer (q : Q) : nearest_integer q (py_round q).
Proof. split; [apply py_round_half|apply py_round_tie]. Qed.

Lemma Z_apart (n m : Z) :
  n <> m -> inject_Z n - inject_Z m <= -(1) \/ 1 <= inject_Z n - inject_Z m.
Proof.
  intros H. destruct (Z_lt_le_dec n m) as [L|L].
  - left. assert (Hz : (n + 1 <= m)%Z) by lia.
    rewrite Zle_Qle, inject_Z_plus in Hz. change (inject_Z 1) with 1 in Hz.
    lra.
  - right. assert (Hz : (m + 1 <= n)%Z) by lia.
    rewrite Zle_Qle, inject_Z_plus in Hz. change (inject_Z 1) with 1 in Hz.
    lra.
Qed.

(** No integer is nearer than the rounded one; one that is as near
    makes a tie. *)
Lemma py_round_closest (q : Q) (n : Z) :
  Qabs (q - inject_Z (py_round q)) <= Qabs (q - inject_Z n) /\
  (n <> py_round q ->
   Qabs (q - inject_Z n) == Qabs (q - inject_Z (py_round q)) ->
   Qabs (q - inject_Z (py_round q)) == 1 # 2).
Proof.
  pose proof (py_round_half q) as Hh.
  destruct (Z.eq_dec n (py_round q)) as [->|Hne].
  - split; [apply Qle_refl|]. intros H. now elim H.
  - pose proof (Z_apart n (py_round q) Hne) as Ha.
    qabs (q - inject_Z (py_round q)). qabs (q - inject_Z n).
    split; [lra|]. intros _ He. lra.
Qed.

Lemma pow2_pos (e : Z) : 0 < 2 ^ e.
Proof. apply Qpower_0_lt. reflexivity. Qed.

Lemma pow2_add (a b : Z) : 2 ^ (a + b) == 2 ^ a * 2 ^ b.
Proof. apply Qpower_plus. discriminate. Qed.

Lemma pow2_Z (k : Z) : (0 <= k)%Z -> 2 ^ k == inject_Z (2 ^ k).
Proof. intros H. symmetry. now apply (Zpower_Qpower 2 k). Qed.

Lemma pow2_le (a b : Z) : (a <= b)%Z -> 2 ^ a <= 2 ^ b.
Proof. intros H. apply Qpower_le_compat_l; [exact H|discriminate]. Qed.

Lemma b64_exponent_min (t : Q) : (-1074 <= b64_exponent t)%Z.
Proof. unfold b64_exponent. lia. Qed.

Lemma scaled_floor_nonneg (t : Q) : (0 <= Qfloor (Qabs t * 2 ^ 1074))%Z.
Proof.
  change 0%Z with (Qfloor 0). apply Qfloor_resp_le.
  apply Qmult_le_0_compat; [apply Qabs_nonneg|].
  apply Qlt_le_weak, pow2_pos.
Qed.

(** The number in units of its grid. *)
Lemma b64_scaled (t : Q) :
  let k := Z.max 0 (Z.log2 (Qfloor (Qabs t * 2 ^ 1074)) - 52) in
  Qabs t == (Qabs t * 2 ^ 1074) / 2 ^ k * 2 ^ b64_exponent t.
Proof.
  intros k. unfold b64_exponent. fold k.
  assert (E : 2 ^ k == 2 ^ (k - 1074) * 2 ^ 1074).
  { rewrite <- pow2_add. now replace (k - 1074 + 1074)%Z with k by lia. }
  pose proof (pow2_pos (k - 1074)) as H1.
  pose proof (pow2_pos 1074) as H2.
  rewrite E.
  set (A := 2 ^ (k - 1074)) in *. set (B := 2 ^ 1074) in *.
  clearbody A B. field. split; lra.
Qed.

Lemma b64_mantissa_bound (t : Q) :
  Qabs t < 2 ^ 53 * 2 ^ b64_exponent t.
Proof.
  pose proof (b64_scaled t) as Hs. cbv zeta in Hs.
  set (s := Qabs t * 2 ^ 1074) in *.
  set (a := Qfloor s) in *.
  set (k := Z.max 0 (Z.log2 a - 52)) in *.
  pose proof (pow2_pos (b64_exponent t)) as HP.
  pose proof (pow2_pos k) as Hk.
  assert (Ha : (0 <= a)%Z) by apply scaled_floor_nonneg.
  assert (Hz : (a + 1 <= 2 ^ (53 + k))%Z).
  { destruct (Z.eq_dec a 0) as [->|Hne].
    - assert (0 < 2 ^ (53 + k))%Z by (apply Z.pow_pos_nonneg; lia). lia.
    - destruct (Z.log2_spec a) as [_ Hu]; [lia|].
      assert (2 ^ Z.succ (Z.log2 a) <= 2 ^ (53 + k))%Z
        by (apply Z.pow_le_mono_r; lia).
      lia. }
  assert (Hq : s < 2 ^ 53 * 2 ^ k).
  { rewrite <- pow2_add, pow2_Z by lia.
    apply Qlt_le_trans with (inject_Z (a + 1)).
    - apply Qlt_floor.
    - now rewrite <- Zle_Qle. }
  rewrite Hs.
  apply Qmult_lt_compat_r; [exact HP|].
  apply Qlt_shift_div_r; [exact Hk|exact Hq].
Qed.

Lemma b64_normal_lower (t : Q) :
  (-1074 < b64_exponent t)%Z -> 2 ^ 52 * 2 ^ b64_exponent t <= Qabs t.
Proof.
  intros Hn.
  pose proof (b64_scaled t) as Hs. cbv zeta in Hs.
  unfold b64_exponent in Hn.
  set (s := Qabs t * 2 ^ 1074) in *.
  set (a := Qfloor s) in *.
  set (k := Z.max 0 (Z.log2 a - 52)) in *.
  pose proof (pow2_pos (b64_exponent t)) as HP.
  pose proof (pow2_pos k) as Hk.
  assert (Hl : (53 <= Z.log2 a)%Z) by lia.
  assert (Ha : (0 < a)%Z).
  { destruct (Z_lt_le_dec 0 a) as [H|H]; [exact H|].
    rewrite (Z.log2_nonpos a H) in Hl. lia. }
  assert (Hz : (2 ^ (52 + k) <= a)%Z).
  { destruct (Z.log2_spec a Ha) as [Hlo _].
    replace (52 + k)%Z with (Z.log2 a) by lia. exact Hlo. }
  assert (Hq : 2 ^ 52 * 2 ^ k <= s).
  { rewrite <- pow2_add, pow2_Z by lia.
    apply Qle_trans with (inject_Z a).
    - now rewrite <- Zle_Qle.
    - apply Qfloor_le. }
  rewrite Hs.
  apply Qmult_le_compat_r; [|lra].
  apply Qle_shift_div_l; [exact Hk|exact Hq].
Qed.

Lemma b64_unfold (t : Q) :
  b64 t = inject_Z (py_round (t / 2 ^ b64_exponent t)) * 2 ^ b64_exponent t.
Proof. reflexivity. Qed.

Lemma scaled_back (t P : Q) : 0 < P -> t == t / P * P.
Proof. intros H. field. lra. Qed.

(** Among the multiples of the grid step, [b64 t] is nearest to [t];
    another multiple that is as near makes a tie. *)
Lemma b64_grid_nearest (t : Q) (N : Z) :
  let P := 2 ^ b64_exponent t in
  let u := t / P in
  Qabs (t - b64 t) <= Qabs (t - inject_Z N * P) /\
  (N <> py_round u ->
   Qabs (t - inject_Z N * P) == Qabs (t - b64 t) ->
   Qabs (u - inject_Z (py_round u)) == 1 # 2).
Proof.
  intros P u. rewrite b64_unfold. fold P. fold u.
  pose proof (pow2_pos (b64_exponent t)) as HP. fold P in HP.
  assert (Ht : t == u * P) by (apply scaled_back; exact HP).
  assert (E1 : Qabs (t - inject_Z (py_round u) * P)
               == Qabs (u - inject_Z (py_round u)) * P).
  { rewrite <- Qabs_scale by exact HP. now rewrite <- Ht. }
  assert (E2 : Qabs (t - inject_Z N * P) == Qabs (u - inject_Z N) * P).
  { rewrite <- Qabs_scale by exact HP. now rewrite <- Ht. }
  rewrite E1, E2.
  destruct (py_round_closest u N) as [Hle Htie]. split.
  - apply Qmult_le_compat_r; [exact Hle|lra].
  - intros Hne Heq. apply Htie; [exact Hne|].
    apply Qmult_inj_r in Heq; [exact Heq|lra].
Qed.

Lemma b64_mantissa (t : Q) :
  (Z.abs (py_round (t / 2 ^ b64_exponent t)) <= 2 ^ 53)%Z.
Proof.
  pose proof (b64_mantissa_bound t) as Hb.
  pose proof (pow2_pos (b64_exponent t)) as HP.
  set (P := 2 ^ b64_exponent t) in *.
  assert (Hu : - 2 ^ 53 <= t / P /\ t / P <= 2 ^ 53).
  { qabs t. split.
    - apply Qle_shift_div_l; [exact HP|]. lra.
    - apply Qle_shift_div_r; [exact HP|]. lra. }
  destruct Hu as [Hlo Hhi].
  rewrite (pow2_Z 53) in Hlo, Hhi by lia.
  rewrite <- inject_Z_opp in Hlo.
  apply py_round_mono in Hlo, Hhi. rewrite py_round_Z in Hlo, Hhi.
  lia.
Qed.

Lemma b64_binary64 (t : Q) : binary64 (b64 t).
Proof.
  exists (py_round (t / 2 ^ b64_exponent t)), (b64_exponent t).
  split; [apply b64_mantissa|]. split; [apply b64_exponent_min|].
  reflexivity.
Qed.

(** A binary64 number is a multiple of the grid step around [t], or
    lies, in magnitude, at or below the least number of the binade of
    [t]. *)
Lemma binary64_on_grid (t y : Q) :
  binary64 y ->
  let P := 2 ^ b64_exponent t in
  (exists N, y == inject_Z N * P) \/
  (Qabs y <= 2 ^ 52 * P /\ 2 ^ 52 * P <= Qabs t).
Proof.
  intros (M & e & HM & He & Hy) P.
  destruct (Z_le_gt_dec (b64_exponent t) e) as [Hge|Hlt].
  - left. exists (M * 2 ^ (e - b64_exponent t))%Z.
    rewrite Hy, inject_Z_mult, <- pow2_Z by lia.
    unfold P. rewrite <- Qmult_assoc, <- pow2_add.
    now replace (e - b64_exponent t + b64_exponent t)%Z with e by lia.
  - right. split; [|apply b64_normal_lower; lia].
    pose proof (pow2_pos e) as HE.
    assert (H2 : 2 * 2 ^ e <= P).
    { unfold P. change 2 with (2 ^ 1) at 1. rewrite <- pow2_add.
      apply pow2_le. lia. }
    assert (Hm : - 2 ^ 53 <= inject_Z M /\ inject_Z M <= 2 ^ 53).
    { rewrite (pow2_Z 53) by lia. rewrite <- inject_Z_opp.
      rewrite <- !Zle_Qle. lia. }
    assert (H53 : 2 ^ 53 == 2 * 2 ^ 52) by reflexivity.
    rewrite Hy.
    set (m := inject_Z M) in *. set (E := 2 ^ e) in *.
    set (C53 := 2 ^ 53) in *. set (C52 := 2 ^ 52) in *.
    assert (H52 : 0 < C52) by apply pow2_pos.
    clearbody m E C53 C52 P.
    qabs (m * E). nra.
Qed.

(** [b64 t] is the binary64 nearest to [t], the one with the even
    mantissa when two are as near. *)
Lemma b64_nearest (t : Q) : nearest_binary64 t (b64 t).
Proof.
  pose proof (pow2_pos (b64_exponent t)) as HP.
  split; [apply b64_binary64|]. split.
  - intros y Hy.
    destruct (binary64_on_grid t y Hy) as [[N HN]|[Hy52 Ht52]].
    + rewrite HN. apply b64_grid_nearest.
    + destruct (b64_grid_nearest t (2 ^ 52)) as [Hp _].
      destruct (b64_grid_nearest t (- 2 ^ 52)) as [Hn _].
      rewrite inject_Z_opp in Hn.
      rewrite <- (pow2_Z 52) in Hp, Hn by lia.
      set (G := 2 ^ 52 * 2 ^ b64_exponent t) in *.
      assert (EG : - 2 ^ 52 * 2 ^ b64_exponent t == - G) by (unfold G; ring).
      rewrite EG in Hn.
      assert (HG : 0 < G).
      { unfold G. apply Qmult_lt_0_compat; [apply pow2_pos|exact HP]. }
      clearbody G.
      qabs (t - b64 t). qabs (t - y). qabs (t - G). qabs (t - - G).
      qabs y. qabs t. lra.
  - intros y Hy Hne Heq.
    assert (Htie : Qabs (t / 2 ^ b64_exponent t
                         - inject_Z (py_round (t / 2 ^ b64_exponent t)))
                   == 1 # 2).
    { destruct (binary64_on_grid t y Hy) as [[N HN]|[Hy52 Ht52]].
      - destruct (b64_grid_nearest t N) as [_ Ht]. apply Ht.
        + intros ->. apply Hne. now rewrite HN.
        + now rewrite <- HN.
      - destruct (b64_grid_nearest t (2 ^ 52)) as [Hp Hpt].
        destruct (b64_grid_nearest t (- 2 ^ 52)) as [Hn Hnt].
        rewrite inject_Z_opp in Hn, Hnt.
        rewrite <- (pow2_Z 52) in Hp, Hn, Hpt, Hnt by lia.
        set (G := 2 ^ 52 * 2 ^ b64_exponent t) in *.
        assert (EG : - 2 ^ 52 * 2 ^ b64_exponent t == - G)
          by (unfold G; ring).
        rewrite EG in Hn, Hnt.
        assert (HG : 0 < G).
        { unfold G. apply Qmult_lt_0_compat; [apply pow2_pos|exact HP]. }
        destruct (Qlt_le_dec t 0) as [Hneg|Hpos].
        + apply Hnt.
          * intros Hr. apply Hne. rewrite b64_unfold, <- Hr.
            rewrite inject_Z_opp, <- (pow2_Z 52) by lia. fold G.
            rewrite EG.
            clearbody G.
            qabs (t - b64 t). qabs (t - y). qabs (t - - G).
            qabs y. qabs t. lra.
          * clearbody G.
            qabs (t - b64 t). qabs (t - y). qabs (t - - G).
            qabs y. qabs t. lra.
        + apply Hpt.
          * intros Hr. apply Hne. rewrite b64_unfold, <- Hr.
            rewrite <- (pow2_Z 52) by lia. fold G.
            clearbody G.
            qabs (t - b64 t). qabs (t - y). qabs (t - G).
            qabs y. qabs t. lra.
          * clearbody G.
            qabs (t - b64 t). qabs (t - y). qabs (t - G).
            qabs y. qabs t. lra. }
    apply py_round_tie in Htie. apply Z.even_spec in Htie.
    destruct Htie as [m Hm].
    exists m, (b64_exponent t).
    rewrite <- Hm. split; [apply b64_mantissa|].
    split; [apply b64_exponent_min|reflexivity].
Qed.

(** The values of some float literals, as [float.as_integer_ratio]
    gives them. *)
Example b64_literals :
  Qred (b64 (7 # 10)) = 3152519739159347 # 4503599627370496 /\
  Qred (b64 (4 # 10)) = 3602879701896397 # 9007199254740992 /\
  Qred (b64 (1 # 10)) = 3602879701896397 # 36028797018963968 /\
  Qred (b64 (575 # 1000)) = 2589569785738035 # 4503599627370496 /\
  Qred (b64 (b64 (575 # 1000) * 100)) = 8092405580431359 # 140737488355328 /\
  Qred (b64 (1 # 2)) = 1 # 2.
Proof. vm_compute. repeat split. Qed.

(** ** The summary of a fetched forecast *)

Lemma fold_max_spec (xs : list Q) :
  forall x,
    let m := fold_left (fun m y => if Qlt_bool m y then y else m) xs x in
    In m (x :: xs) /\ forall y, In y (x :: xs) -> y <= m.
Proof.
  induction xs as [|a xs IH]; intros x; simpl.
  - split; [now left|]. intros y [<-|[]]. apply Qle_refl.
  - destruct (Qlt_bool x a) eqn:Hlt.
    + destruct (IH a) as [Hin Hle]. split.
      * destruct Hin as [H|H]; [right; left; exact H|right; right; exact H].
      * intros y [<-|[<-|Hy]].
        -- apply Qle_trans with a.
           ++ apply Qlt_le_weak. now apply Qlt_bool_iff.
           ++ apply Hle. now left.
        -- apply Hle. now left.
        -- apply Hle. now right.
    + destruct (IH x) as [Hin Hle]. split.
      * destruct Hin as [H|H]; [left; exact H|right; right; exact H].
      * intros y [<-|[<-|Hy]].
        -- apply Hle. now left.
        -- apply Qle_trans with x.
           ++ apply Qnot_lt_le. intros Hxa.
              apply Qlt_bool_iff in Hxa. congruence.
           ++ apply Hle. now left.
        -- apply Hle. now right.
Qed.

Lemma py_max_is_max (xs : list Q) (default : Q) :
  xs <> [] -> is_max (py_max xs default) xs.
Proof.
  destruct xs as [|x xs]; [congruence|]. intros _.
  unfold py_max, is_max. apply fold_max_spec.
Qed.

Lemma pops_of_spec (items : list value) :
  forall pops,
    pops_of items = Return pops ->
    exists literals,
      Forall2 is_pop items literals /\ pops = map py_number literals.
Proof.
  induction items as [|item rest IH]; simpl; intros pops H.
  - inversion H. exists []. split; [constructor|reflexivity].
  - destruct item as [| | | | |i]; try discriminate. simpl in H.
    destruct (dict_get "pop" i) as [v|] eqn:Hp.
    + destruct (as_num v) as [q|] eqn:Hq; [|discriminate].
      destruct (pops_of rest) as [qs|]; [|discriminate].
      destruct (IH qs eq_refl) as (ls & Hls & ->).
      inversion H. exists (q :: ls). split; [|reflexivity].
      constructor; [|exact Hls].
      exists i. split; [reflexivity|]. now rewrite Hp.
    + simpl in H.
      destruct (pops_of rest) as [qs|]; [|discriminate].
      destruct (IH qs eq_refl) as (ls & Hls & ->).
      inversion H. exists (0 :: ls). split; [|reflexivity].
      constructor; [|exact Hls].
      exists i. split; [reflexivity|]. now rewrite Hp.
Qed.

Lemma pops_of_complete (items : list value) (literals : list Q) :
  Forall2 is_pop items literals ->
  pops_of items = Return (map py_number literals).
Proof.
  induction 1 as [|item q items literals (i & -> & Hq) _ IH]; [reflexivity|].
  simpl. destruct (dict_get "pop" i) as [v|].
  - rewrite Hq, IH. reflexivity.
  - subst q. simpl. rewrite IH. reflexivity.
Qed.

(** A maximal probability comes out of the [try] block exactly from an
    answer whose series is a non-empty list of items with numeric
    probabilities. *)
Lemma forecast_outcome_some (resp : http_result) (m : Q) :
  forecast_outcome resp = Return (Some m) ->
  exists body series literals,
    resp = HttpJson body /\
    py_get body "list" (VList []) = Return (VList series) /\
    series <> [] /\
    Forall2 is_pop (firstn 4 series) literals /\
    literals <> [] /\
    m = py_max (map py_number literals) 0.
Proof.
  unfold forecast_outcome, next_12h_of.
  destruct resp as [e|body]; [discriminate|]. unfold http_json.
  destruct (py_get body "list" (VList [])) as [fl|e] eqn:Hfl; [|discriminate].
  destruct fl as [| | |s|series|dd]; try discriminate; unfold py_slice4.
  - destruct (substring 0 4 s) as [|c s']; simpl; discriminate.
  - destruct (firstn 4 series) as [|y next] eqn:Hnext; [discriminate|].
    change (negb (truthy (VList (y :: next)))) with false. cbv iota.
    unfold max_pop_of, py_iter.
    destruct (pops_of (y :: next)) as [pops|e] eqn:Hpops; [|discriminate].
    intros H. inversion H.
    destruct (pops_of_spec _ _ Hpops) as (literals & Hls & ->).
    exists body, series, literals.
    split; [reflexivity|]. split; [exact Hfl|].
    split; [intros ->; discriminate|].
    rewrite Hnext. split; [exact Hls|]. split; [|reflexivity].
    inversion Hls. discriminate.
Qed.

Lemma forecast_outcome_success (body : value) (series : list value)
  (literals : list Q) :
  py_get body "list" (VList []) = Return (VList series) ->
  series <> [] ->
  Forall2 is_pop (firstn 4 series) literals ->
  forecast_outcome (HttpJson body)
  = Return (Some (py_max (map py_number literals) 0)).
Proof.
  intros Hl Hne Hpops. unfold forecast_outcome, next_12h_of, http_json.
  rewrite Hl. unfold py_slice4.
  destruct (firstn 4 series) as [|y next] eqn:Hnext.
  { destruct series; [congruence|discriminate]. }
  change (negb (truthy (VList (y :: next)))) with false. cbv iota.
  unfold max_pop_of, py_iter.
  now rewrite (pops_of_complete _ _ Hpops).
Qed.

Lemma thresholds_ordered : b64 (4 # 10) <= b64 (7 # 10).
Proof. vm_compute. discriminate. Qed.

Lemma risk_of_bands (m : Q) :
  (risk_of m = "HIGH" <-> b64 (7 # 10) <= m) /\
  (risk_of m = "MODERATE" <-> b64 (4 # 10) <= m /\ m < b64 (7 # 10)) /\
  (risk_of m = "LOW" <-> m < b64 (4 # 10)).
Proof.
  unfold risk_of. pose proof thresholds_ordered as Ho.
  set (high := b64 (7 # 10)) in *. set (moderate := b64 (4 # 10)) in *.
  clearbody high moderate.
  destruct (Qle_bool high m) eqn:H7.
  - apply Qle_bool_iff in H7.
    assert (H4 : moderate <= m) by (apply Qle_trans with high; assumption).
    repeat split; try discriminate; auto.
    + intros [_ H]. exfalso. now apply (Qlt_not_le m high).
    + intros H. exfalso. now apply (Qlt_not_le m moderate).
  - assert (L7 : m < high).
    { apply Qnot_le_lt. intros H. apply Qle_bool_iff in H. congruence. }
    destruct (Qle_bool moderate m) eqn:H4.
    + apply Qle_bool_iff in H4.
      repeat split; try discriminate; auto.
      * intros H. exfalso. now apply (Qlt_not_le m high).
      * intros H. exfalso. now apply (Qlt_not_le m moderate).
    + assert (L4 : m < moderate).
      { apply Qnot_le_lt. intros H. apply Qle_bool_iff in H. congruence. }
      repeat split; try discriminate; auto.
      * intros H. exfalso. now apply (Qlt_not_le m high).
      * intros [H _]. exfalso. now apply (Qlt_not_le m moderate).
Qed.

Lemma is_integer_spec (q : Q) : is_integer q = true <-> is_int q.
Proof.
  unfold is_integer, is_int. rewrite Z.eqb_eq. split.
  - intros H. exists (Qnum q / Zpos (Qden q))%Z.
    unfold Qeq, inject_Z. simpl. rewrite Z.mul_1_r.
    apply Z.div_exact in H; [|lia]. rewrite Z.mul_comm. exact H.
  - intros [z H]. unfold Qeq, inject_Z in H. simpl in H.
    rewrite Z.mul_1_r in H. rewrite H. apply Z.mod_mul. lia.
Qed.

Lemma is_integer_false (q : Q) : is_integer q = false <-> ~ is_int q.
Proof.
  rewrite <- is_integer_spec. destruct (is_integer q); split; congruence.
Qed.

Lemma py_number_spec (x : Q) : python_number x (py_number x).
Proof.
  unfold python_number, py_number.
  destruct (is_integer x) eqn:Hx; split; intros H.
  - reflexivity.
  - now apply is_integer_spec in Hx.
  - now apply is_integer_false in Hx.
  - apply b64_nearest.
Qed.

Lemma py_mul_100_spec (x : Q) : times_100 x (py_mul x 100).
Proof.
  unfold times_100, py_mul.
  change (is_integer 100) with true. rewrite andb_true_r.
  destruct (is_integer x) eqn:Hx; split; intros H.
  - reflexivity.
  - now apply is_integer_spec in Hx.
  - now apply is_integer_false in Hx.
  - apply b64_nearest.
Qed.

Lemma python_numbers (literals : list Q) :
  Forall2 python_number literals (map py_number literals).
Proof.
  induction literals; constructor; [apply py_number_spec|assumption].
Qed.

Lemma new_events_same (w : world) : new_events w w = [].
Proof. unfold new_events. apply skipn_all. Qed.

(** A call that made a forecast request had an API key, found a mapping
    in the forecast cache and no fresh entry in it. *)
Ltac no_fetch Hin :=
  simpl in Hin;
  first
    [ rewrite new_events_same in Hin; contradiction
    | rewrite new_events_extend in Hin;
      match goal with
      | L : loads _ _ _ _ |- _ =>
          apply (loads_quiet _ _ _ _ _ L) in Hin; discriminate
      end ].

(** C2: the summary that a fetch returns and caches is computed from
    the answer to its request as Python computes it.  [m] is the
    maximum of the probabilities of the first four items of the series
    (0 for an item without one), each held as the number Python makes
    of it; [max_rain_prob] is [round(m * 100)], the integer nearest to
    the product, the even one on a tie, where the product of a float is
    the binary64 nearest to the exact one; and [risk_level] is HIGH
    exactly when [m >= 0.7], MODERATE exactly when [0.4 <= m < 0.7], LOW
    exactly when [m < 0.4], the thresholds being the binary64 values of
    the literals.  The same summary is stored under the place. *)
Theorem fetched_summary_bands (E : Env) (lat lon : value) (place : string)
  (w : world) (summary : value) :
  let run := fetch_rain_probability E lat lon place w in
  let evs := new_events w (snd run) in
  In (HttpGet FORECAST_URL lat lon) evs ->
  fst run = Return summary ->
  summary <> VNone ->
  exists pre post body series literals pops m product percent risk high
         moderate cache',
    evs = pre ++ HttpGet FORECAST_URL lat lon :: post /\
    requests_get E (trace w ++ pre) FORECAST_URL lat lon = HttpJson body /\
    py_get body "list" (VList []) = Return (VList series) /\
    Forall2 is_pop (firstn 4 series) literals /\
    Forall2 python_number literals pops /\
    is_max m pops /\
    times_100 m product /\
    nearest_integer product percent /\
    nearest_binary64 (7 # 10) high /\
    nearest_binary64 (4 # 10) moderate /\
    summary = VDict [("max_rain_prob", VNum (inject_Z percent));
                     ("risk_level", VStr risk)] /\
    (risk = "HIGH" <-> high <= m) /\
    (risk = "MODERATE" <-> moderate <= m /\ m < high) /\
    (risk = "LOW" <-> m < moderate) /\
    fs (snd run) FORECAST_CACHE_FILE = Content (VDict cache') /\
    dict_get place cache' =
      Some (VDict [("timestamp", VNum (time_time E (trace w)));
                   ("data", summary)]).
Proof.
  intros run evs Hin Hret Hsome. subst run evs.
  rain_cases E lat lon place w; simpl in Hret;
    try discriminate; try (inversion Hret; congruence);
    try (exfalso; no_fetch Hin; fail).
  inversion Hret as [Hsum].
  match goal with
  | Ho : forecast_outcome _ = Return (Some _) |- _ =>
      destruct (forecast_outcome_some _ _ Ho)
        as (body & series & literals & Hresp & Hlist & _ & Hpops & Hne & Hm)
  end.
  destruct (risk_of_bands m) as (Hh & Hmo & Hlo).
  exists evs0, [Save FORECAST_CACHE_FILE cache'], body, series, literals,
    (map py_number literals), m, (py_mul m 100),
    (py_round (py_mul m 100)), (risk_of m), (b64 (7 # 10)), (b64 (4 # 10)),
    (dict_set place (new_entry (time_time E (trace w)) m) d).
  split; [apply new_events_app; reflexivity|].
  split; [exact Hresp|]. split; [exact Hlist|]. split; [exact Hpops|].
  split; [apply python_numbers|].
  split.
  { rewrite Hm. apply py_max_is_max. destruct literals; [congruence|].
    discriminate. }
  split; [apply py_mul_100_spec|].
  split; [apply py_round_nearest_integer|].
  split; [apply b64_nearest|]. split; [apply b64_nearest|].
  split; [reflexivity|].
  split; [exact Hh|]. split; [exact Hmo|]. split; [exact Hlo|].
  split.
  - unfold cache'. simpl. reflexivity.
  - rewrite dict_get_set_same. reflexivity.
Qed.

Lemma fetched_summary_bands_witness :
  exists m product high,
    times_100 m product /\ nearest_integer product 70 /\
    nearest_binary64 (7 # 10) high /\ high <= m.
Proof.
  destruct (fetched_summary_bands sample_env (VNum 12) (VNum (17 # 2))
              "Kano, Kano, Nigeria" empty_world
              (VDict [("max_rain_prob", VNum 70);
                      ("risk_level", VStr "HIGH")]))
    as (pre & post & body & series & literals & pops & m & product
        & percent & risk & high & moderate & cache' & _ & _ & _ & _ & _ & _
        & Hprod & Hround & Hhigh & _ & Hsum & Hband & _).
  - vm_compute. now left.
  - reflexivity.
  - discriminate.
  - inversion Hsum as [[Hp Hr]]. subst percent risk.
    exists m, product, high.
    split; [exact Hprod|]. split; [exact Hround|]. split; [exact Hhigh|].
    now apply Hband.
Defined.

(** The literals of the specification fall in the bands it names, and
    a literal that the parser rounds to the threshold is in the upper
    band. *)
Example risk_boundaries :
  risk_of (py_number (70 # 100)) = "HIGH" /\
  risk_of (py_number (6999 # 10000)) = "MODERATE" /\
  risk_of (py_number (40 # 100)) = "MODERATE" /\
  risk_of (py_number (3999 # 10000)) = "LOW" /\
  risk_of (py_number (69999999999999999 # 100000000000000000)) = "HIGH".
Proof. vm_compute. repeat split. Qed.

(** The product is a float product: for 0.575 it is 57.49999999999999
    and the percentage 57, for 0.545 it is 54.50000000000001 and the
    percentage 55; an [int] is multiplied exactly. *)
Example float_products :
  summary_of (py_number (575 # 1000))
  = VDict [("max_rain_prob", VNum 57); ("risk_level", VStr "MODERATE")] /\
  summary_of (py_number (545 # 1000))
  = VDict [("max_rain_prob", VNum 55); ("risk_level", VStr "MODERATE")] /\
  summary_of (py_number 1)
  = VDict [("max_rain_prob", VNum 100); ("risk_level", VStr "HIGH")].
Proof. vm_compute. repeat split. Qed.

(** C4, as stated, fails: on an empty series the function returns
    [None], not a summary with LOW and 0. *)
Lemma empty_series_gives_no_summary :
  requests_get empty_series_env [] FORECAST_URL (VNum 12) (VNum (17 # 2))
  = HttpJson (VDict [("list", VList [])]) /\
  fst (fetch_rain_probability empty_series_env (VNum 12) (VNum (17 # 2))
         "Kano, Kano, Nigeria" empty_world)
  = Return VNone /\
  fst (fetch_rain_probability empty_series_env (VNum 12) (VNum (17 # 2))
         "Kano, Kano, Nigeria" empty_world)
  <> Return (VDict [("max_rain_prob", VNum 0); ("risk_level", VStr "LOW")]).
Proof.
  split; [reflexivity|]. split; [reflexivity|]. simpl. discriminate.
Qed.

(** C4, as amended: when the provider answers a forecast request with an
    empty series, [fetch_rain_probability] warns that no forecast data
    is available and returns [None]; no file is touched. *)
Theorem empty_series_returns_none (E : Env) (lat lon : value)
  (place : string) (w : world) (body : value) :
  let run := fetch_rain_probability E lat lon place w in
  let evs := new_events w (snd run) in
  (forall h, requests_get E h FORECAST_URL lat lon = HttpJson body) ->
  py_get body "list" (VList []) = Return (VList []) ->
  In (HttpGet FORECAST_URL lat lon) evs ->
  fst run = Return VNone /\
  In (Log WARNING (LogNoForecastData place)) evs /\
  fs (snd run) = fs w.
Proof.
  intros run evs Hresp Hlist Hin. subst run evs.
  assert (Ho : forall h,
             forecast_outcome (requests_get E h FORECAST_URL lat lon)
             = Return None).
  { intros h. rewrite Hresp. unfold forecast_outcome, next_12h_of. simpl.
    now rewrite Hlist. }
  rain_cases E lat lon place w;
    try (exfalso; no_fetch Hin; fail);
    try (match goal with
         | H : forecast_outcome _ = _ |- _ => rewrite Ho in H; discriminate
         end).
  simpl. rewrite new_events_extend.
  split; [reflexivity|]. split; [|reflexivity].
  apply in_or_app. right. right. now left.
Qed.

Lemma empty_series_returns_none_witness :
  fst (fetch_rain_probability empty_series_env (VNum 12) (VNum (17 # 2))
         "Kano, Kano, Nigeria" empty_world)
  = Return VNone.
Proof.
  apply (empty_series_returns_none empty_series_env (VNum 12) (VNum (17 # 2))
           "Kano, Kano, Nigeria" empty_world (VDict [("list", VList [])])).
  - reflexivity.
  - reflexivity.
  - vm_compute. now left.
Defined.

(** ** Isolation of failures *)

(** C5: once a forecast request is made, the call never raises, and
    its end is decided by the answer to that request.  When the request
    raises, or the answer holds an empty series, the call returns
    [None] and writes nothing.  When the answer holds a non-empty
    series whose first four items are items with numeric
    probabilities, the call returns a summary and persists the loaded
    mapping with the new entry under [place]: every other key keeps
    its entry and every other file its content.  Whatever the answer
    is, the call ends in one of these two ways. *)
Theorem forecast_failure_isolated (E : Env) (lat lon : value)
  (place : string) (w : world) :
  let run := fetch_rain_probability E lat lon place w in
  let evs := new_events w (snd run) in
  In (HttpGet FORECAST_URL lat lon) evs ->
  exists d pre post,
    fst (load_json FORECAST_CACHE_FILE w) = Return (VDict d) /\
    evs = pre ++ HttpGet FORECAST_URL lat lon :: post /\
    let answer := requests_get E (trace w ++ pre) FORECAST_URL lat lon in
    let now := time_time E (trace w) in
    (forall e, answer = HttpRaises e -> left_untouched w run) /\
    (forall body,
       answer = HttpJson body ->
       py_get body "list" (VList []) = Return (VList []) ->
       left_untouched w run) /\
    (forall body series literals,
       answer = HttpJson body ->
       py_get body "list" (VList []) = Return (VList series) ->
       series <> [] ->
       Forall2 is_pop (firstn 4 series) literals ->
       stored_under place now d w run) /\
    (left_untouched w run \/ stored_under place now d w run).
Proof.
  intros run evs Hin. subst run evs.
  assert (Hraise : forall e, forecast_outcome (HttpRaises e) = Raise e)
    by reflexivity.
  assert (Hempty : forall body,
             py_get body "list" (VList []) = Return (VList []) ->
             forecast_outcome (HttpJson body) = Return None).
  { intros body Hl. unfold forecast_outcome, next_12h_of. simpl.
    now rewrite Hl. }
  rain_cases E lat lon place w;
    try (exfalso; no_fetch Hin; fail);
    exists d, evs0;
    match goal with
    | H : forecast_outcome _ = _ |- _ => rename H into Ho
    end.
  - (* the answer could not be processed *)
    assert (Hnone : left_untouched w
              (Return VNone,
               extend w (evs0 ++ [HttpGet FORECAST_URL lat lon;
                                  Log ERROR (forecast_error_record place e)]))).
    { unfold left_untouched. cbn [fst snd].
      rewrite new_events_extend, saves_app.
      match goal with
      | L : loads _ _ _ _ |- _ => destruct L as [_ [-> | ->]]
      end; auto. }
    eexists.
    split; [match goal with
            | L : loads _ _ _ _ |- _ => destruct L as [-> _]; reflexivity
            end|].
    split; [cbn [snd]; apply new_events_extend|].
    cbv zeta. split; [intros; exact Hnone|]. split; [intros; exact Hnone|].
    split; [|left; exact Hnone].
    intros body series literals Ha Hl Hne Hp. exfalso.
    rewrite Ha, (forecast_outcome_success _ _ _ Hl Hne Hp) in Ho.
    discriminate.
  - (* an empty series *)
    assert (Hnone : left_untouched w
              (Return VNone,
               extend w (evs0 ++ [HttpGet FORECAST_URL lat lon;
                                  Log WARNING (LogNoForecastData place)]))).
    { unfold left_untouched. cbn [fst snd].
      rewrite new_events_extend, saves_app.
      match goal with
      | L : loads _ _ _ _ |- _ => destruct L as [_ [-> | ->]]
      end; auto. }
    eexists.
    split; [match goal with
            | L : loads _ _ _ _ |- _ => destruct L as [-> _]; reflexivity
            end|].
    split; [cbn [snd]; apply new_events_extend|].
    cbv zeta. split; [intros; exact Hnone|]. split; [intros; exact Hnone|].
    split; [|left; exact Hnone].
    intros body series literals Ha Hl Hne Hp. exfalso.
    rewrite Ha, (forecast_outcome_success _ _ _ Hl Hne Hp) in Ho.
    discriminate.
  - (* a summary *)
    assert (Hsome : stored_under place (time_time E (trace w)) d w
              (Return (summary_of m),
               extend (write_file FORECAST_CACHE_FILE cache' w)
                 (evs0 ++ [HttpGet FORECAST_URL lat lon;
                           Save FORECAST_CACHE_FILE cache']))).
    { exists (summary_of m),
        (dict_set place (new_entry (time_time E (trace w)) m) d).
      cbn [fst snd].
      split; [reflexivity|]. split; [discriminate|].
      split; [unfold cache'; simpl; reflexivity|].
      split; [apply dict_get_set_same|]. split.
      - intros other Hne. now apply dict_get_set_other.
      - intros path Hne. simpl.
        destruct (String.eqb_spec path FORECAST_CACHE_FILE);
          [contradiction|reflexivity]. }
    exists [Save FORECAST_CACHE_FILE cache'].
    split; [match goal with
            | L : loads _ _ _ _ |- _ => destruct L as [-> _]; reflexivity
            end|].
    split; [cbn [snd]; apply new_events_app; reflexivity|].
    cbv zeta. split; [|split; [|split; [intros; exact Hsome|right; exact Hsome]]].
    + intros e Ha. exfalso. rewrite Ha, Hraise in Ho. discriminate.
    + intros body Ha Hl. exfalso. rewrite Ha, (Hempty body Hl) in Ho.
      discriminate.
Qed.

Lemma forecast_failure_isolated_witness :
  exists summary cache',
    fst (fetch_rain_probability sample_env (VNum 12) (VNum (17 # 2))
           "Kano, Kano, Nigeria" other_place_world)
    = Return summary /\
    summary <> VNone /\
    fs (snd (fetch_rain_probability sample_env (VNum 12) (VNum (17 # 2))
               "Kano, Kano, Nigeria" other_place_world))
      FORECAST_CACHE_FILE = Content (VDict cache') /\
    dict_get "Jos, Plateau, Nigeria" cache'
    = Some (VDict (cached_entry 100)).
Proof.
  destruct (forecast_failure_isolated sample_env (VNum 12) (VNum (17 # 2))
              "Kano, Kano, Nigeria" other_place_world)
    as (d & pre & post & Hload & _ & _ & _ & Hsuccess & _).
  - vm_compute. now left.
  - simpl in Hload. inversion Hload; subst d.
    destruct (Hsuccess sample_forecast
                [VDict [("pop", VNum (7 # 10))]; VDict []] [7 # 10; 0])
      as (summary & cache' & Hret & Hsome & Hfs & _ & Hother & _).
    + reflexivity.
    + reflexivity.
    + discriminate.
    + repeat constructor.
      * eexists. split; reflexivity.
      * eexists. split; reflexivity.
    + exists summary, cache'.
      split; [exact Hret|]. split; [exact Hsome|]. split; [exact Hfs|].
      rewrite Hother; [reflexivity|discriminate].
Defined.

(** ** Historical record *)

Section Historical.

Import TestHistorical.

Lemma load_historical_data_world (w : world) :
  exists l evs, load_historical_data w = (Return l, extend w evs).
Proof.
  unfold load_historical_data.
  destruct (fs w HISTORICAL_DATA_FILE) as [| |v].
  - exists [], []. now rewrite extend_nil.
  - eexists [], [_]. reflexivity.
  - destruct v; try (eexists [], [_]; reflexivity).
    exists l, []. now rewrite extend_nil.
Qed.

Lemma load_historical_data_content (w : world) (l : list value) :
  fs w HISTORICAL_DATA_FILE = Content (VList l) ->
  load_historical_data w = (Return l, w).
Proof. intros H. unfold load_historical_data. now rewrite H. Qed.

(** One run of the script on a record that loads as [l]. *)
Lemma append_snapshot_spec (s : value) (w : world) (l : list value) :
  fst (load_historical_data w) = Return l ->
  fst (append_snapshot s w) = Return (l ++ [s]) /\
  fs (snd (append_snapshot s w)) HISTORICAL_DATA_FILE
  = Content (VList (l ++ [s])).
Proof.
  intros Hl.
  destruct (load_historical_data_world w) as (l' & evs & H).
  rewrite H in Hl. inversion Hl; subst l'.
  unfold append_snapshot, bind. rewrite H.
  unfold tell, save_json, ret. simpl. now split.
Qed.

Lemma append_all_spec (snapshots : list value) :
  forall (w : world) (l : list value),
    fst (load_historical_data w) = Return l ->
    fst (load_historical_data (append_all snapshots w))
    = Return (l ++ snapshots).
Proof.
  induction snapshots as [|s rest IH]; intros w l Hl; simpl.
  - now rewrite app_nil_r.
  - destruct (append_snapshot_spec s w l Hl) as [_ Hfs].
    rewrite (IH _ (l ++ [s])).
    + now rewrite <- app_assoc.
    + now rewrite (load_historical_data_content _ _ Hfs).
Qed.

End Historical.

(** C6: [load_historical_data] returns the parsed list when the file
    holds a JSON array, and the empty list, without raising, when the
    file is absent, does not parse, or holds another kind of value.
    Running the script once per snapshot on a record that loads as
    empty leaves a record that loads as exactly those snapshots, in
    order; on a file that holds a non-array, one run leaves a record of
    length one. *)
Theorem historical_record_recovery (w : world) (snapshots : list value)
  (s : value) :
  (forall l, fs w TestHistorical.HISTORICAL_DATA_FILE = Content (VList l) ->
             fst (TestHistorical.load_historical_data w) = Return l) /\
  (fs w TestHistorical.HISTORICAL_DATA_FILE = Missing \/
   fs w TestHistorical.HISTORICAL_DATA_FILE = Corrupt \/
   (exists v, fs w TestHistorical.HISTORICAL_DATA_FILE = Content v /\
              forall l, v <> VList l) ->
   fst (TestHistorical.load_historical_data w) = Return []) /\
  (fst (TestHistorical.load_historical_data w) = Return [] ->
   exists record,
     fst (TestHistorical.load_historical_data
            (TestHistorical.append_all snapshots w)) = Return record /\
     List.length record = List.length snapshots /\
     forall i, nth_error record i = nth_error snapshots i) /\
  ((exists v, fs w TestHistorical.HISTORICAL_DATA_FILE = Content v /\
              forall l, v <> VList l) ->
   fst (TestHistorical.append_snapshot s w) = Return [s] /\
   fs (snd (TestHistorical.append_snapshot s w))
     TestHistorical.HISTORICAL_DATA_FILE = Content (VList [s])).
Proof.
  assert (Hbad : fs w TestHistorical.HISTORICAL_DATA_FILE = Missing \/
                 fs w TestHistorical.HISTORICAL_DATA_FILE = Corrupt \/
                 (exists v,
                    fs w TestHistorical.HISTORICAL_DATA_FILE = Content v /\
                    forall l, v <> VList l) ->
                 fst (TestHistorical.load_historical_data w) = Return []).
  { unfold TestHistorical.load_historical_data.
    intros [H|[H|(v & H & Hv)]]; rewrite H; try reflexivity.
    destruct v; try reflexivity. now destruct (Hv l). }
  split.
  - intros l H. now rewrite (load_historical_data_content w l H).
  - split; [exact Hbad|]. split.
    + intros Hl. exists snapshots.
      rewrite (append_all_spec snapshots w [] Hl). simpl. auto.
    + intros H.
      apply (append_snapshot_spec s w []). apply Hbad. auto.
Qed.

Lemma historical_record_recovery_witness :
  fst (TestHistorical.append_snapshot (sample_snapshot "t1")
         malformed_history)
  = Return [sample_snapshot "t1"] /\
  fst (TestHistorical.load_historical_data
         (TestHistorical.append_all
            [sample_snapshot "t1"; sample_snapshot "t2";
             sample_snapshot "t3"] empty_world))
  = Return [sample_snapshot "t1"; sample_snapshot "t2"; sample_snapshot "t3"].
Proof.
  destruct (historical_record_recovery malformed_history []
              (sample_snapshot "t1")) as (_ & _ & _ & Hrec).
  split.
  - apply Hrec.
    exists (VDict [("generated_at", VStr "2024-01-01T00:00:00+00:00")]).
    split; [reflexivity|]. intros l. discriminate.
  - reflexivity.
Defined.

(** ** What a computation records and returns *)

Section Emits.

Variable P : event -> bool.

Lemma emits_ret {A} (a : A) : emits P (ret a).
Proof. intros w. exists []. simpl. now rewrite app_nil_r. Qed.

Lemma emits_lift {A} (o : outcome A) : emits P (lift o).
Proof. intros w. exists []. simpl. now rewrite app_nil_r. Qed.

Lemma emits_history : emits P history.
Proof. intros w. exists []. simpl. now rewrite app_nil_r. Qed.

Lemma emits_tell (e : event) : P e = true -> emits P (tell e).
Proof. intros H w. exists [e]. simpl. now rewrite H. Qed.

Lemma emits_bind {A B} (m : M A) (k : A -> M B) :
  emits P m -> (forall a, emits P (k a)) -> emits P (bind m k).
Proof.
  intros Hm Hk w. unfold bind.
  destruct (Hm w) as (evs1 & H1 & P1).
  destruct (m w) as [[a|e] w1]; simpl in H1.
  - destruct (Hk a w1) as (evs2 & H2 & P2).
    exists (evs1 ++ evs2). rewrite H2, H1, app_assoc, forallb_app, P1, P2.
    now split.
  - exists evs1. now split.
Qed.

Lemma emits_try_except {A} (m : M A) (h : exn -> M A) :
  emits P m -> (forall e, emits P (h e)) -> emits P (try_except m h).
Proof.
  intros Hm Hh w. unfold try_except.
  destruct (Hm w) as (evs1 & H1 & P1).
  destruct (m w) as [[a|e] w1]; simpl in H1.
  - exists evs1. now split.
  - destruct (Hh e w1) as (evs2 & H2 & P2).
    exists (evs1 ++ evs2). rewrite H2, H1, app_assoc, forallb_app, P1, P2.
    now split.
Qed.

Lemma emits_for_each {A B} (body : A -> M B) (xs : list A) :
  (forall x, emits P (body x)) -> emits P (for_each body xs).
Proof.
  intros Hb. induction xs as [|x xs IH]; simpl.
  - apply emits_ret.
  - apply emits_bind; [apply Hb|]. intros y.
    apply emits_bind; [apply IH|]. intros ys. apply emits_ret.
Qed.

Lemma emits_load_json (path : string) :
  P (Log ERROR (LogDecodeFailed path)) = true -> emits P (load_json path).
Proof.
  intros H w. destruct (load_json_world path w) as (v & evs & Hl & Hq & _).
  exists evs. rewrite Hl. split; [reflexivity|].
  destruct Hq as [-> | ->]; simpl; [reflexivity|now rewrite H].
Qed.

Lemma emits_save_json (path : string) (data : value) :
  P (Save path data) = true -> emits P (save_json path data).
Proof. intros H w. exists [Save path data]. simpl. now rewrite H. Qed.

End Emits.

Lemma returns_bind {A B} (Q0 : A -> Prop) (Q : B -> Prop)
  (m : M A) (k : A -> M B) :
  returns Q0 m -> (forall a, Q0 a -> returns Q (k a)) ->
  returns Q (bind m k).
Proof.
  intros Hm Hk w b w' H. unfold bind in H.
  destruct (m w) as [[a|e] w1] eqn:Hmw; [|discriminate].
  eapply Hk; [eapply Hm; exact Hmw|exact H].
Qed.

Lemma returns_any {A} (m : M A) : returns (fun _ => True) m.
Proof. intros w a w' _. exact I. Qed.

Lemma returns_ret {A} (Q : A -> Prop) (a : A) : Q a -> returns Q (ret a).
Proof. intros H w b w' E. unfold ret in E. inversion E. now subst. Qed.

Lemma returns_lift {A} (Q : A -> Prop) (o : outcome A) :
  (forall a, o = Return a -> Q a) -> returns Q (lift o).
Proof. intros H w b w' E. unfold lift in E. inversion E. now apply H. Qed.

Lemma returns_for_each {A B} (Q : B -> Prop) (body : A -> M B)
  (xs : list A) :
  (forall x, returns Q (body x)) -> returns (Forall Q) (for_each body xs).
Proof.
  intros Hb. induction xs as [|x xs IH]; simpl.
  - apply returns_ret. constructor.
  - apply returns_bind with Q; [apply Hb|]. intros y Hy.
    apply returns_bind with (Forall Q); [apply IH|]. intros ys Hys.
    apply returns_ret. now constructor.
Qed.

Ltac emits_step :=
  match goal with
  | |- emits _ (bind _ _) => apply emits_bind; [|intros]
  | |- emits _ (ret _) => apply emits_ret
  | |- emits _ (lift _) => apply emits_lift
  | |- emits _ history => apply emits_history
  | |- emits _ (logging _ _) => apply emits_tell; reflexivity
  | |- emits _ (tell _) => apply emits_tell; reflexivity
  | |- emits _ (try_except _ _) => apply emits_try_except; [|intros]
  | |- emits _ (load_json _) => apply emits_load_json; reflexivity
  | |- emits _ (save_json _ _) => apply emits_save_json; reflexivity
  | |- emits _ (if ?b then _ else _) => destruct b
  | |- emits _ (match ?x with _ => _ end) => destruct x
  end.

(** ** The snapshot *)

Lemma geocode_all_keeps_snapshot (E : Env) (places : list string) :
  forall entries, emits not_snapshot (geocode_all E entries places).
Proof.
  induction places as [|place rest IH]; intros entries; simpl.
  - apply emits_ret.
  - apply emits_bind; [|intros; apply IH].
    unfold geocode_place. repeat emits_step.
Qed.

Lemma get_location_cache_keeps_snapshot (E : Env) :
  emits not_snapshot (get_location_cache E).
Proof.
  unfold get_location_cache, build_location_cache.
  repeat first [apply geocode_all_keeps_snapshot | emits_step].
Qed.

Lemma fetch_weather_keeps_snapshot (E : Env) (lat lon : value) :
  emits not_snapshot (fetch_weather E lat lon).
Proof. unfold fetch_weather, http_get_json. repeat emits_step. Qed.

Lemma fetch_rain_probability_keeps_snapshot (E : Env) (lat lon : value)
  (place : string) :
  emits not_snapshot (fetch_rain_probability E lat lon place).
Proof.
  unfold fetch_rain_probability, fetch_forecast, http_get_json.
  repeat emits_step.
Qed.

Lemma process_location_keeps_snapshot (E : Env) (item : string * value) :
  emits not_snapshot (process_location E item).
Proof.
  unfold process_location. cbv zeta.
  repeat first [apply fetch_weather_keeps_snapshot
               | apply fetch_rain_probability_keeps_snapshot
               | emits_step].
Qed.

Lemma update_from_keeps_absent (key : string) (src : value)
  (keys : list (string * string)) :
  forall d d',
    ~ In key (map fst keys) ->
    dict_get key d = None ->
    update_from src keys d = Return d' ->
    dict_get key d' = None.
Proof.
  induction keys as [|[k k'] rest IH]; simpl; intros d d' Hnin Hd H.
  - congruence.
  - destruct (py_getitem src k') as [v|]; [|discriminate].
    destruct (update_from src rest d) as [d0|] eqn:Hrest; [|discriminate].
    inversion H. rewrite dict_get_set_other.
    + apply (IH d d0); auto.
    + intros ->. apply Hnin. now left.
Qed.

Lemma process_location_no_stamp (E : Env) (item : string * value) :
  returns no_stamp (process_location E item).
Proof.
  unfold process_location. cbv zeta.
  do 4 (apply returns_bind with (fun _ => True); [apply returns_any|];
        intros ? _).
  apply returns_bind with (fun d => dict_get "generated_at" d = None).
  { destruct (truthy a1).
    - apply returns_lift. intros d Hd.
      refine (update_from_keeps_absent "generated_at" a1 _
                (empty_result (fst item)) d _ eq_refl Hd).
      simpl. intros [H|[H|[H|[H|[H|[H|[]]]]]]]; discriminate.
    - apply returns_bind with (fun _ => True); [apply returns_any|].
      intros _ _. now apply returns_ret. }
  intros d1 Hd1.
  apply returns_bind with (fun d => dict_get "generated_at" d = None).
  { destruct (truthy a2).
    - apply returns_lift. intros d Hd.
      refine (update_from_keeps_absent "generated_at" a2 _ d1 d _ Hd1 Hd).
      simpl. intros [H|[H|[]]]; discriminate.
    - now apply returns_ret. }
  intros d2 Hd2.
  apply returns_bind with (fun _ => True); [apply returns_any|].
  intros _ _. apply returns_ret. now exists d2.
Qed.

(** The [try] block of [main] either records no write of the snapshot
    file, or ends with the one write of a snapshot stamped from the
    history of all that went before. *)
Lemma main_try_snapshot (E : Env) (w w' : world) (r : outcome unit) :
  main_try E w = (r, w') ->
  exists evs,
    trace w' = trace w ++ evs /\
    (forallb not_snapshot evs = true \/
     exists pre results,
       r = Return tt /\
       evs = pre ++ [Save WEATHER_DATA_FILE
                       (VDict [("generated_at",
                                VStr (utcnow_isoformat E (trace w ++ pre)));
                               ("locations", VList results)]);
                     Log INFO LogSaved] /\
       forallb not_snapshot pre = true /\
       Forall no_stamp results).
Proof.
  unfold main_try. intros H.
  destruct (get_location_cache_keeps_snapshot E w) as (evs1 & H1 & P1).
  unfold bind at 1 in H.
  destruct (get_location_cache E w) as [[lc|e] w1]; simpl in H1;
    [|inversion H; subst; exists evs1; auto].
  unfold bind at 1 in H. unfold lift at 1 in H.
  destruct (py_get lc "locations" (VDict [])) as [ld|e];
    [|inversion H; subst; exists evs1; auto].
  destruct (truthy ld); cbv beta iota delta [negb] in H.
  - unfold bind at 1 in H. unfold lift at 1 in H.
    destruct (py_len ld) as [n|e]; [|inversion H; subst; exists evs1; auto].
    unfold bind, history, save_json, logging, tell, ret, lift in H.
    cbv beta in H.
    set (w2 := emit (Log INFO (LogStarting n)) w1) in *.
    assert (H2 : trace w2 = trace w ++ evs1 ++ [Log INFO (LogStarting n)]).
    { unfold w2. simpl. now rewrite H1, <- app_assoc. }
    destruct (py_items ld) as [items|e].
    2:{ inversion H; subst. exists (evs1 ++ [Log INFO (LogStarting n)]).
        split; [exact H2|]. left. now rewrite forallb_app, P1. }
    destruct (emits_for_each not_snapshot (process_location E) items
                (process_location_keeps_snapshot E) w2) as (evs2 & H3 & P2).
    pose proof (returns_for_each no_stamp (process_location E) items
                  (process_location_no_stamp E) w2) as Hres.
    destruct (for_each (process_location E) items w2) as [[results|e] w3];
      cbn [snd] in H3; rewrite H2 in H3; inversion H; subst.
    + specialize (Hres results w3 eq_refl).
      exists ((evs1 ++ [Log INFO (LogStarting n)] ++ evs2)
              ++ [Save WEATHER_DATA_FILE
                    (VDict [("generated_at",
                             VStr (utcnow_isoformat E (trace w3)));
                            ("locations", VList results)]);
                  Log INFO LogSaved]).
      split.
      * simpl. rewrite H3. now rewrite <- !app_assoc.
      * right. exists (evs1 ++ [Log INFO (LogStarting n)] ++ evs2), results.
        split; [reflexivity|].
        split; [rewrite H3; now rewrite <- !app_assoc|].
        split; [|exact Hres].
        rewrite !forallb_app, P1, P2. reflexivity.
    + exists (evs1 ++ [Log INFO (LogStarting n)] ++ evs2).
      split; [rewrite H3; now rewrite <- !app_assoc|].
      left. rewrite !forallb_app, P1, P2. reflexivity.
  - unfold logging, tell in H. inversion H; subst.
    exists (evs1 ++ [Log ERROR LogNoLocations]). simpl.
    rewrite H1, <- app_assoc, forallb_app, P1. auto.
Qed.

Lemma not_snapshot_no_save (evs : list event) (v : value) :
  forallb not_snapshot evs = true -> ~ In (Save WEATHER_DATA_FILE v) evs.
Proof.
  intros H Hin. rewrite forallb_forall in H. apply H in Hin. discriminate.
Qed.

Lemma not_snapshot_saves (evs : list event) :
  forallb not_snapshot evs = true -> saves WEATHER_DATA_FILE evs = 0%nat.
Proof.
  apply count_none. intros e. unfold not_snapshot.
  now rewrite negb_true_iff.
Qed.

(** Without an API key [main] logs one critical line and stops: it
    makes no call of [fetch_weather] or [fetch_rain_probability]. *)
Lemma main_without_key (E : Env) (w : world) :
  has_api_key E = false ->
  main E w = (Return tt, emit (Log CRITICAL LogKeyNotSet) w).
Proof. intros H. unfold main. now rewrite H. Qed.

(** Where the snapshot is written and how it is stamped. *)
Lemma main_snapshot_place (E : Env) (w : world) (snapshot : value) :
  let run := main E w in
  let evs := new_events w (snd run) in
  In (Save WEATHER_DATA_FILE snapshot) evs ->
  exists pre results,
    evs = pre ++ [Save WEATHER_DATA_FILE snapshot; Log INFO LogSaved] /\
    saves WEATHER_DATA_FILE pre = 0%nat /\
    saves WEATHER_DATA_FILE evs = 1%nat /\
    snapshot = VDict [("generated_at",
                       VStr (utcnow_isoformat E (trace w ++ pre)));
                      ("locations", VList results)] /\
    Forall no_stamp results.
Proof.
  intros run evs. subst run evs.
  destruct (main E w) as [r w'] eqn:Hmain. cbn [snd]. intros Hin.
  unfold main in Hmain.
  destruct (has_api_key E); cbv beta iota delta [negb] in Hmain.
  2:{ unfold logging, tell in Hmain. inversion Hmain; subst.
      rewrite emit_extend, new_events_extend in Hin.
      destruct Hin as [H|[]]. discriminate. }
  unfold try_except in Hmain.
  destruct (main_try E w) as [r1 w1] eqn:Hrun.
  destruct (main_try_snapshot E w w1 r1 Hrun) as (evs & Htr & Hcase).
  destruct r1 as [[]|e].
  - inversion Hmain; subst. rewrite (new_events_app _ _ _ Htr) in *.
    destruct Hcase as [Hq|(pre & results & _ & Hevs & Hpre & Hres)].
    + exfalso. now apply (not_snapshot_no_save evs snapshot).
    + subst evs. apply in_app_or in Hin.
      destruct Hin as [Hin|[Hin|[Hin|[]]]]; try discriminate.
      * exfalso. now apply (not_snapshot_no_save pre snapshot).
      * inversion Hin; subst snapshot.
        exists pre, results. split; [reflexivity|].
        split; [now apply not_snapshot_saves|].
        split; [|split; [reflexivity|exact Hres]].
        rewrite saves_app, (not_snapshot_saves pre Hpre). reflexivity.
  - destruct Hcase as [Hq|(pre & results & Hret & _)]; [|discriminate].
    unfold logging, tell in Hmain. inversion Hmain; subst.
    erewrite new_events_app in Hin
      by (simpl; rewrite Htr, <- app_assoc; reflexivity).
    apply in_app_or in Hin. destruct Hin as [Hin|[Hin|[]]]; try discriminate.
    exfalso. now apply (not_snapshot_no_save evs snapshot).
Qed.

(** A run records no write of the snapshot, or it had an API key, its
    [try] block returned and it recorded exactly one. *)
Lemma main_saves (E : Env) (w : world) :
  let evs := new_events w (snd (main E w)) in
  saves WEATHER_DATA_FILE evs = 0%nat \/
  has_api_key E = true /\ fst (main_try E w) = Return tt /\
  saves WEATHER_DATA_FILE evs = 1%nat.
Proof.
  cbv zeta.
  destruct (main E w) as [r w'] eqn:Hmain. cbn [snd]. unfold main in Hmain.
  destruct (has_api_key E); cbv beta iota delta [negb] in Hmain.
  2:{ unfold logging, tell in Hmain. inversion Hmain; subst.
      rewrite emit_extend, new_events_extend. now left. }
  unfold try_except in Hmain.
  destruct (main_try E w) as [r1 w1] eqn:Hrun.
  destruct (main_try_snapshot E w w1 r1 Hrun) as (evs & Htr & Hcase).
  destruct r1 as [[]|e].
  - inversion Hmain; subst. rewrite (new_events_app _ _ _ Htr).
    destruct Hcase as [Hq|(pre & results & _ & Hevs & Hpre & _)].
    + left. now apply not_snapshot_saves.
    + right. split; [reflexivity|]. split; [reflexivity|].
      subst evs. rewrite saves_app, (not_snapshot_saves pre Hpre).
      reflexivity.
  - left. destruct Hcase as [Hq|(pre & results & Hret & _)]; [|discriminate].
    unfold logging, tell in Hmain. inversion Hmain; subst.
    erewrite new_events_app
      by (simpl; rewrite Htr, <- app_assoc; reflexivity).
    rewrite saves_app, (not_snapshot_saves evs Hq). reflexivity.
Qed.

(** With a non-empty [locations] in the cache, a [try] block that
    returns has written the snapshot. *)
Lemma main_try_completes (E : Env) (w w1 : world) (cache ld : value) :
  get_location_cache E w = (Return cache, w1) ->
  py_get cache "locations" (VDict []) = Return ld ->
  truthy ld = true ->
  fst (main_try E w) = Return tt ->
  saves WEATHER_DATA_FILE (new_events w (snd (main_try E w))) = 1%nat.
Proof.
  intros Hc Hl Ht Hret.
  destruct (get_location_cache_keeps_snapshot E w) as (evs1 & H1 & P1).
  rewrite Hc in H1. cbn [snd] in H1.
  destruct (main_try E w) as [r w'] eqn:Hrun. cbn [fst snd] in *. subst r.
  unfold main_try in Hrun. unfold bind at 1 in Hrun. rewrite Hc in Hrun.
  unfold bind at 1 in Hrun. unfold lift at 1 in Hrun. rewrite Hl, Ht in Hrun.
  cbv beta iota delta [negb] in Hrun.
  unfold bind at 1 in Hrun. unfold lift at 1 in Hrun.
  destruct (py_len ld) as [n|e]; [|discriminate].
  unfold bind, history, save_json, logging, tell, ret, lift in Hrun.
  cbv beta in Hrun.
  set (w2 := emit (Log INFO (LogStarting n)) w1) in *.
  destruct (py_items ld) as [items|e]; [|discriminate].
  destruct (emits_for_each not_snapshot (process_location E) items
              (process_location_keeps_snapshot E) w2) as (evs2 & H2 & P2).
  destruct (for_each (process_location E) items w2) as [[results|e] w3];
    [|discriminate].
  cbn [snd] in H2. inversion Hrun; subst w'.
  rewrite (new_events_app _ _
             (evs1 ++ [Log INFO (LogStarting n)] ++ evs2
                ++ [Save WEATHER_DATA_FILE
                      (VDict [("generated_at",
                               VStr (utcnow_isoformat E (trace w3)));
                              ("locations", VList results)]);
                    Log INFO LogSaved]))
    by (simpl; rewrite H2; unfold w2; simpl; rewrite H1;
        now rewrite <- !app_assoc).
  rewrite !saves_app, (not_snapshot_saves evs1 P1),
    (not_snapshot_saves evs2 P2).
  reflexivity.
Qed.

Lemma main_try_returns (E : Env) (w : world) :
  has_api_key E = true ->
  fst (main_try E w) = Return tt ->
  main E w = main_try E w.
Proof.
  intros K H. unfold main. rewrite K. cbv beta iota delta [negb].
  unfold try_except. destruct (main_try E w) as [[[]|e] w1];
    [reflexivity|discriminate].
Qed.

Lemma main_try_no_cached_locations (E : Env) (w w1 : world)
  (cache ld : value) :
  get_location_cache E w = (Return cache, w1) ->
  py_get cache "locations" (VDict []) = Return ld ->
  truthy ld = false ->
  main_try E w = (Return tt, emit (Log ERROR LogNoLocations) w1).
Proof.
  intros Hc Hl Ht. unfold main_try. unfold bind at 1. rewrite Hc.
  unfold bind at 1. unfold lift at 1. rewrite Hl, Ht. reflexivity.
Qed.

(** C8, as amended: a run writes at most one snapshot.  It writes
    exactly one when an API key is set, the location cache holds
    locations and no exception is raised inside the [try] block; it
    writes none when the key is missing, when an exception is raised,
    or when the cache holds no location and the run returns early.
    When it writes one, the write is the last action of the run but for
    the closing log line, [generated_at] is read from the clock once,
    after all the per-location processing, and sits at the top of the
    snapshot: no location result carries a stamp of its own. *)
Theorem snapshot_stamped_once_after_processing (E : Env) (w : world) :
  let run := main E w in
  let evs := new_events w (snd run) in
  (saves WEATHER_DATA_FILE evs <= 1)%nat /\
  (forall cache w1 locations_data,
     has_api_key E = true ->
     get_location_cache E w = (Return cache, w1) ->
     py_get cache "locations" (VDict []) = Return locations_data ->
     truthy locations_data = true ->
     fst (main_try E w) = Return tt ->
     saves WEATHER_DATA_FILE evs = 1%nat) /\
  (has_api_key E = false -> saves WEATHER_DATA_FILE evs = 0%nat) /\
  (forall e, fst (main_try E w) = Raise e ->
             saves WEATHER_DATA_FILE evs = 0%nat) /\
  (forall cache w1 locations_data,
     get_location_cache E w = (Return cache, w1) ->
     py_get cache "locations" (VDict []) = Return locations_data ->
     truthy locations_data = false ->
     saves WEATHER_DATA_FILE evs = 0%nat) /\
  (forall snapshot,
     In (Save WEATHER_DATA_FILE snapshot) evs ->
     exists pre results,
       evs = pre ++ [Save WEATHER_DATA_FILE snapshot; Log INFO LogSaved] /\
       saves WEATHER_DATA_FILE pre = 0%nat /\
       snapshot = VDict [("generated_at",
                          VStr (utcnow_isoformat E (trace w ++ pre)));
                         ("locations", VList results)] /\
       Forall no_stamp results).
Proof.
  intros run evs. subst run evs.
  pose proof (main_saves E w) as Hs. cbv zeta in Hs.
  split; [destruct Hs as [->|(_ & _ & ->)]; lia|].
  split.
  { intros cache w1 ld K Hc Hl Ht Hret.
    rewrite (main_try_returns E w K Hret).
    now apply (main_try_completes E w w1 cache ld). }
  split.
  { intros K. destruct Hs as [H|(K' & _)]; [exact H|congruence]. }
  split.
  { intros e Hraise. destruct Hs as [H|(_ & Hret & _)]; [exact H|congruence]. }
  split.
  { intros cache w1 ld Hc Hl Ht.
    destruct Hs as [H|(K & Hret & _)]; [exact H|].
    rewrite (main_try_returns E w K Hret).
    rewrite (main_try_no_cached_locations E w w1 cache ld Hc Hl Ht).
    cbn [snd].
    destruct (get_location_cache_keeps_snapshot E w) as (evs1 & H1 & P1).
    rewrite Hc in H1. cbn [snd] in H1.
    rewrite (new_events_app _ _ (evs1 ++ [Log ERROR LogNoLocations]))
      by (simpl; rewrite H1; now rewrite <- app_assoc).
    rewrite saves_app, (not_snapshot_saves evs1 P1). reflexivity. }
  intros snapshot Hin.
  destruct (main_snapshot_place E w snapshot Hin)
    as (pre & results & Hevs & Hpre & _ & Hsnap & Hres).
  exists pre, results. auto.
Qed.

Lemma snapshot_stamped_once_after_processing_witness :
  saves WEATHER_DATA_FILE
    (new_events empty_world (snd (main sample_env empty_world))) = 1%nat.
Proof.
  destruct (snapshot_stamped_once_after_processing sample_env empty_world)
    as (_ & Hone & _).
  apply (Hone sample_cache
              (snd (get_location_cache sample_env empty_world))
              (VDict sample_items)).
  - reflexivity.
  - vm_compute. reflexivity.
  - reflexivity.
  - reflexivity.
  - vm_compute. reflexivity.
Defined.

(** C8, as stated, fails: the stamp is not the reading of the clock at
    the start of the assembly.  In the sample run the loop is entered at
    second 8, four events are recorded while the one location is
    processed, and the snapshot is stamped with second 12. *)
Lemma snapshot_not_stamped_at_start :
  fs (snd (main sample_env empty_world)) WEATHER_DATA_FILE
  = Content (VDict [("generated_at", VStr "2024-01-01T00:00:12+00:00");
                    ("locations", VList [sample_result])]) /\
  utcnow_isoformat sample_env
    (assembly_start (trace (snd (main sample_env empty_world))))
  = "2024-01-01T00:00:08+00:00" /\
  VStr "2024-01-01T00:00:12+00:00"
  <> VStr (utcnow_isoformat sample_env
             (assembly_start (trace (snd (main sample_env empty_world))))).
Proof.
  split; [vm_compute; reflexivity|].
  split; [vm_compute; reflexivity|].
  vm_compute. discriminate.
Qed.

(** * Further properties *)

(** ** Files change only through recorded saves *)

Lemma saves_app_zero (p : string) (a b : list event) :
  saves p (a ++ b) = 0%nat -> saves p a = 0%nat /\ saves p b = 0%nat.
Proof. rewrite saves_app. lia. Qed.

Lemma tracks_ret {A} (a : A) : tracks (ret a).
Proof. intros w. exists []. simpl. now rewrite app_nil_r. Qed.

Lemma tracks_lift {A} (o : outcome A) : tracks (lift o).
Proof. intros w. exists []. simpl. now rewrite app_nil_r. Qed.

Lemma tracks_history : tracks history.
Proof. intros w. exists []. simpl. now rewrite app_nil_r. Qed.

Lemma tracks_tell (e : event) : tracks (tell e).
Proof. intros w. exists [e]. simpl. auto. Qed.

Lemma tracks_bind {A B} (m : M A) (k : A -> M B) :
  tracks m -> (forall a, tracks (k a)) -> tracks (bind m k).
Proof.
  intros Hm Hk w. unfold bind.
  destruct (Hm w) as (evs1 & H1 & F1).
  destruct (m w) as [[a|e] w1]; simpl in H1, F1.
  - destruct (Hk a w1) as (evs2 & H2 & F2).
    exists (evs1 ++ evs2). split.
    + now rewrite H2, H1, app_assoc.
    + intros p Hp. apply saves_app_zero in Hp. destruct Hp as [Hp1 Hp2].
      now rewrite F2, F1.
  - exists evs1. now split.
Qed.

Lemma tracks_try_except {A} (m : M A) (h : exn -> M A) :
  tracks m -> (forall e, tracks (h e)) -> tracks (try_except m h).
Proof.
  intros Hm Hh w. unfold try_except.
  destruct (Hm w) as (evs1 & H1 & F1).
  destruct (m w) as [[a|e] w1]; simpl in H1, F1.
  - exists evs1. now split.
  - destruct (Hh e w1) as (evs2 & H2 & F2).
    exists (evs1 ++ evs2). split.
    + now rewrite H2, H1, app_assoc.
    + intros p Hp. apply saves_app_zero in Hp. destruct Hp as [Hp1 Hp2].
      now rewrite F2, F1.
Qed.

Lemma tracks_for_each {A B} (body : A -> M B) (xs : list A) :
  (forall x, tracks (body x)) -> tracks (for_each body xs).
Proof.
  intros Hb. induction xs as [|x xs IH]; simpl.
  - apply tracks_ret.
  - apply tracks_bind; [apply Hb|]. intros y.
    apply tracks_bind; [apply IH|]. intros ys. apply tracks_ret.
Qed.

Lemma tracks_load_json (path : string) : tracks (load_json path).
Proof.
  intros w. destruct (load_json_world path w) as (v & evs & Hl & _).
  exists evs. rewrite Hl. now split.
Qed.

Lemma tracks_save_json (path : string) (data : value) :
  tracks (save_json path data).
Proof.
  intros w. exists [Save path data]. split; [reflexivity|].
  intros p Hp. unfold saves in Hp. simpl in Hp |- *.
  destruct (p =? path) eqn:He; [|reflexivity].
  apply String.eqb_eq in He. subst p.
  rewrite String.eqb_refl in Hp. discriminate.
Qed.

Ltac tracks_step :=
  match goal with
  | |- tracks (bind _ _) => apply tracks_bind; [|intros]
  | |- tracks (ret _) => apply tracks_ret
  | |- tracks (lift _) => apply tracks_lift
  | |- tracks history => apply tracks_history
  | |- tracks (logging _ _) => apply tracks_tell
  | |- tracks (tell _) => apply tracks_tell
  | |- tracks (try_except _ _) => apply tracks_try_except; [|intros]
  | |- tracks (load_json _) => apply tracks_load_json
  | |- tracks (save_json _ _) => apply tracks_save_json
  | |- tracks (for_each _ _) => apply tracks_for_each; intros
  | |- tracks (if ?b then _ else _) => destruct b
  | |- tracks (match ?x with _ => _ end) => destruct x
  end.

Lemma tracks_geocode_all (E : Env) (places : list string) :
  forall entries, tracks (geocode_all E entries places).
Proof.
  induction places as [|place rest IH]; intros entries; simpl.
  - apply tracks_ret.
  - apply tracks_bind; [|intros; apply IH].
    unfold geocode_place. repeat tracks_step.
Qed.

Lemma tracks_get_location_cache (E : Env) : tracks (get_location_cache E).
Proof.
  unfold get_location_cache, build_location_cache.
  repeat first [apply tracks_geocode_all | tracks_step].
Qed.

Lemma tracks_process_location (E : Env) (item : string * value) :
  tracks (process_location E item).
Proof.
  unfold process_location, fetch_weather, fetch_rain_probability,
    fetch_forecast, http_get_json. cbv zeta.
  repeat tracks_step.
Qed.

Lemma tracks_main (E : Env) : tracks (main E).
Proof.
  unfold main, main_try.
  repeat first [apply tracks_get_location_cache
               | apply tracks_process_location
               | tracks_step].
Qed.

Lemma tracks_new_events {A} (m : M A) (w : world) (p : string) :
  tracks m ->
  saves p (new_events w (snd (m w))) = 0%nat ->
  fs (snd (m w)) p = fs w p.
Proof.
  intros Hm. destruct (Hm w) as (evs & Htr & Hfs).
  rewrite (new_events_app _ _ _ Htr). apply Hfs.
Qed.

Lemma emits_new_events {A} (P : event -> bool) (m : M A) (w : world) :
  emits P m -> forallb P (new_events w (snd (m w))) = true.
Proof.
  intros Hm. destruct (Hm w) as (evs & Htr & HP).
  now rewrite (new_events_app _ _ _ Htr).
Qed.

Lemma emits_geocode_all_known (E : Env) (places : list string) :
  forall entries, emits writes_known (geocode_all E entries places).
Proof.
  induction places as [|place rest IH]; intros entries; simpl.
  - apply emits_ret.
  - apply emits_bind; [|intros; apply IH].
    unfold geocode_place. repeat emits_step.
Qed.

Lemma emits_main_known (E : Env) : emits writes_known (main E).
Proof.
  unfold main, main_try, get_location_cache, build_location_cache.
  repeat first
    [ apply emits_geocode_all_known
    | apply emits_for_each; intros;
      unfold process_location, fetch_weather, fetch_rain_probability,
        fetch_forecast, http_get_json; cbv zeta
    | emits_step ].
Qed.

(** ** The run as a whole *)

Lemma writes_known_saves (p : string) (evs : list event) :
  known_file p = false ->
  forallb writes_known evs = true -> saves p evs = 0%nat.
Proof.
  intros Hp. apply count_none. intros [| | | | |q d]; simpl; try reflexivity.
  intros Hq. destruct (String.eqb_spec q p); [congruence|reflexivity].
Qed.

(** X2: no exception leaves [main], and the only files a run can change
    are the location cache, the forecast cache and the snapshot. *)
Theorem main_returns_and_writes_its_files (E : Env) (w : world) :
  fst (main E w) = Return tt /\
  forall p, known_file p = false -> fs (snd (main E w)) p = fs w p.
Proof.
  split.
  - unfold main. destruct (has_api_key E); simpl; [|reflexivity].
    unfold try_except. destruct (main_try E w) as [[[]|e] w1]; reflexivity.
  - intros p Hp. apply tracks_new_events; [apply tracks_main|].
    apply writes_known_saves; [exact Hp|].
    apply emits_new_events, emits_main_known.
Qed.

Lemma main_returns_and_writes_its_files_witness :
  fs (snd (main sample_env empty_world)) "notes.txt"
  = fs empty_world "notes.txt".
Proof.
  apply (proj2 (main_returns_and_writes_its_files sample_env empty_world)).
  reflexivity.
Defined.

(** X3: when anything raises inside the [try] block of [main], the run
    ends with one critical log line and the snapshot file keeps the
    content it had: no snapshot is written. *)
Theorem aborted_run_keeps_snapshot (E : Env) (w : world) (e : exn) :
  has_api_key E = true ->
  fst (main_try E w) = Raise e ->
  main E w
  = (Return tt, emit (Log CRITICAL LogCriticalError) (snd (main_try E w))) /\
  saves WEATHER_DATA_FILE (new_events w (snd (main E w))) = 0%nat /\
  fs (snd (main E w)) WEATHER_DATA_FILE = fs w WEATHER_DATA_FILE.
Proof.
  intros K Hraise.
  assert (Hmain : main E w
                  = (Return tt,
                     emit (Log CRITICAL LogCriticalError)
                       (snd (main_try E w)))).
  { unfold main. rewrite K. simpl. unfold try_except.
    destruct (main_try E w) as [r w1]. simpl in *. now subst r. }
  destruct (main_try E w) as [r w1] eqn:Hrun. simpl in Hraise. subst r.
  destruct (main_try_snapshot E w w1 (Raise e) Hrun) as (evs & Htr & Hcase).
  destruct Hcase as [Hq|(pre & results & Hret & _)]; [|discriminate].
  assert (Hs : saves WEATHER_DATA_FILE (new_events w (snd (main E w)))
               = 0%nat).
  { rewrite Hmain. simpl snd.
    erewrite new_events_app
      by (simpl; rewrite Htr, <- app_assoc; reflexivity).
    rewrite saves_app, (not_snapshot_saves evs Hq). reflexivity. }
  split; [exact Hmain|]. split; [exact Hs|].
  apply tracks_new_events; [apply tracks_main|exact Hs].
Qed.

(** ** Current weather *)

Ltac destruct_outcomes :=
  repeat match goal with
         | |- context [match ?x with Return _ => _ | Raise _ => _ end] =>
             destruct x
         end.

(** The contract of [fetch_weather]. *)
Lemma fetch_weather_contract_aux (E : Env) (lat lon : value) (w : world) :
  exists r evs,
    fetch_weather E lat lon w = (Return r, extend w evs) /\
    requests_get_calls evs
    = (if has_api_key E then [HttpGet WEATHER_URL lat lon] else []) /\
    (r = VNone \/
     exists temp feels_like temp_min temp_max humidity speed clouds desc,
       r = VDict [("temp", temp); ("feels_like", feels_like);
                  ("temp_min", temp_min); ("temp_max", temp_max);
                  ("humidity", humidity); ("wind_speed", speed);
                  ("clouds", clouds); ("description", desc)]).
Proof.
  unfold fetch_weather. destruct (has_api_key E).
  2:{ exists VNone, [Log ERROR LogApiKeyNotFound]. auto. }
  cbv beta iota zeta
    delta [negb try_except bind lift ret history tell logging http_get_json].
  destruct_outcomes;
    try (match goal with
         | |- context [match ?e with AttributeError => _ | _ => _ end] =>
             destruct e
         end);
    cbv beta iota;
    first
      [ exists VNone; eexists [_; _];
        rewrite !emit_extend, !extend_extend; split; [reflexivity|];
        split; [reflexivity|]; now left
      | eexists; exists [HttpGet WEATHER_URL lat lon];
        rewrite emit_extend; split; [reflexivity|];
        split; [reflexivity|]; right; eauto 12 ].
Qed.

(** X4: [fetch_weather] never raises and never writes a file.  With an
    API key it makes exactly one request, to the weather endpoint with
    the coordinates it was given; without one it makes none.  Its value
    is [None] or a mapping with the eight weather fields. *)
Theorem fetch_weather_contract (E : Env) (lat lon : value) (w : world) :
  exists r evs,
    fetch_weather E lat lon w = (Return r, extend w evs) /\
    requests_get_calls evs
    = (if has_api_key E then [HttpGet WEATHER_URL lat lon] else []) /\
    (r = VNone \/
     exists temp feels_like temp_min temp_max humidity speed clouds desc,
       r = VDict [("temp", temp); ("feels_like", feels_like);
                  ("temp_min", temp_min); ("temp_max", temp_max);
                  ("humidity", humidity); ("wind_speed", speed);
                  ("clouds", clouds); ("description", desc)]).
Proof. apply fetch_weather_contract_aux. Qed.

(** X5: how [fetch_weather] classifies failures.  A request that raises
    a [requests] exception is logged as a connection error; an answer
    without the [main] or the [weather] key is logged as a parsing
    error.  Either way the whole record is dropped: the value is [None],
    after the one request, with no file touched. *)
Theorem fetch_weather_failures (E : Env) (lat lon : value) (w : world) :
  has_api_key E = true ->
  (requests_get E (trace w) WEATHER_URL lat lon = HttpRaises RequestException ->
   fetch_weather E lat lon w
   = (Return VNone,
      extend w [HttpGet WEATHER_URL lat lon;
                Log ERROR LogWeatherConnection])) /\
  (forall d,
     requests_get E (trace w) WEATHER_URL lat lon = HttpJson (VDict d) ->
     dict_get "main" d = None \/ dict_get "weather" d = None ->
     fetch_weather E lat lon w
     = (Return VNone,
        extend w [HttpGet WEATHER_URL lat lon;
                  Log ERROR LogWeatherParsing])).
Proof.
  intros K. unfold fetch_weather. rewrite K.
  cbv beta iota zeta
    delta [negb try_except bind lift ret history tell logging http_get_json].
  split.
  - intros ->. simpl. now rewrite !emit_extend, !extend_extend.
  - intros d -> Hmiss. simpl http_json. cbv iota. unfold py_getitem at 1.
    destruct (dict_get "main" d) as [m|] eqn:Hm.
    + destruct Hmiss as [Hmiss|Hmiss]; [discriminate|].
      unfold py_getitem at 1. rewrite Hmiss.
      now rewrite !emit_extend, !extend_extend.
    + now rewrite !emit_extend, !extend_extend.
Qed.

Lemma fetch_weather_failures_witness :
  fetch_weather empty_series_env (VNum 12) (VNum (17 # 2)) empty_world
  = (Return VNone,
     extend empty_world
       [HttpGet WEATHER_URL (VNum 12) (VNum (17 # 2));
        Log ERROR LogWeatherParsing]).
Proof.
  apply (fetch_weather_failures empty_series_env (VNum 12) (VNum (17 # 2))
           empty_world eq_refl) with (d := [("list", VList [])]).
  - reflexivity.
  - now left.
Defined.

(** X6: the optional fields of the weather answer default to 0, not to
    [None]: an answer with the required fields and without [wind] and
    [clouds] gives a record with [wind_speed = 0] and [clouds = 0], and
    the description goes through [capitalize]. *)
Theorem fetch_weather_defaults (E : Env) (lat lon : value) (w : world)
  (d m : dict) (rest : list value) (first : dict) (s : string)
  (temp feels_like temp_min temp_max humidity : value) :
  has_api_key E = true ->
  requests_get E (trace w) WEATHER_URL lat lon = HttpJson (VDict d) ->
  dict_get "main" d = Some (VDict m) ->
  dict_get "weather" d = Some (VList (VDict first :: rest)) ->
  dict_get "description" first = Some (VStr s) ->
  dict_get "temp" m = Some temp ->
  dict_get "feels_like" m = Some feels_like ->
  dict_get "temp_min" m = Some temp_min ->
  dict_get "temp_max" m = Some temp_max ->
  dict_get "humidity" m = Some humidity ->
  dict_get "wind" d = None ->
  dict_get "clouds" d = None ->
  fetch_weather E lat lon w
  = (Return (VDict [("temp", temp); ("feels_like", feels_like);
                    ("temp_min", temp_min); ("temp_max", temp_max);
                    ("humidity", humidity); ("wind_speed", VNum 0);
                    ("clouds", VNum 0);
                    ("description", VStr (capitalize E s))]),
     extend w [HttpGet WEATHER_URL lat lon]).
Proof.
  intros K Hresp Hmain Hweather Hdesc Ht Hf Hmin Hmax Hh Hwind Hclouds.
  unfold fetch_weather. rewrite K.
  cbv beta iota zeta
    delta [negb try_except bind lift ret history tell logging http_get_json].
  rewrite Hresp. simpl http_json. cbv iota.
  unfold py_getitem, py_getitem0, py_capitalize, py_get.
  rewrite Hmain, Hweather, Hdesc, Ht, Hf, Hmin, Hmax, Hh, Hwind, Hclouds.
  simpl. now rewrite emit_extend.
Qed.

Lemma fetch_weather_defaults_witness :
  fst (fetch_weather bare_weather_env (VNum 12) (VNum (17 # 2)) empty_world)
  = Return (VDict [("temp", VNum 31); ("feels_like", VNum 33);
                   ("temp_min", VNum 30); ("temp_max", VNum 32);
                   ("humidity", VNum 40); ("wind_speed", VNum 0);
                   ("clouds", VNum 0); ("description", VStr "Clear sky")]).
Proof.
  erewrite (fetch_weather_defaults bare_weather_env (VNum 12)
              (VNum (17 # 2)) empty_world);
    reflexivity.
Defined.

(** ** Rebuilding the location cache *)

Lemma dict_mem_set (k k' : string) (v : value) (d : dict) :
  dict_mem k (dict_set k' v d) = (k =? k') || dict_mem k d.
Proof.
  unfold dict_mem. destruct (String.eqb_spec k k') as [->|Hne].
  - now rewrite dict_get_set_same.
  - now rewrite dict_get_set_other.
Qed.

(** One iteration of the geocoding loop: the answer of the geocoder
    decides the entry and the events. *)
Lemma geocode_place_run (E : Env) (entries : dict) (place : string)
  (w : world) :
  let answer :=
    geolocator_geocode E (trace w ++ [Log INFO (LogGeocoding place)]) place in
  exists evs,
    geocode_place E entries place w
    = (Return (match answer with
               | Located lat lon =>
                   dict_set place
                     (VDict [("lat", VNum lat); ("lon", VNum lon)]) entries
               | _ => entries
               end),
       extend w evs) /\
    geocode_calls evs = [Geocode place] /\
    geocoder_steps evs
    = match answer with
      | GeocodeRaises _ => [Geocode place]
      | _ => [Geocode place; Sleep 1]
      end.
Proof.
  intros answer. subst answer.
  unfold geocode_place, bind, logging, tell, history, ret; simpl.
  destruct (geolocator_geocode E (trace w ++ [Log INFO (LogGeocoding place)])
              place) as [lat lon| |e]; simpl.
  - eexists [_; _; _]. rewrite !emit_extend, !extend_extend.
    split; [reflexivity|]. split; reflexivity.
  - eexists [_; _; _; _]. rewrite !emit_extend, !extend_extend.
    split; [reflexivity|]. split; reflexivity.
  - destruct e; simpl;
      eexists [_; _; _]; rewrite !emit_extend, !extend_extend;
      (split; [reflexivity|]; split; reflexivity).
Qed.

Lemma geocode_calls_app (a b : list event) :
  geocode_calls (a ++ b) = geocode_calls a ++ geocode_calls b.
Proof. apply filter_app. Qed.

Lemma geocoder_steps_app (a b : list event) :
  geocoder_steps (a ++ b) = geocoder_steps a ++ geocoder_steps b.
Proof. apply filter_app. Qed.

(** The geocoding loop as a whole. *)
Lemma geocode_all_run (E : Env) (places : list string) :
  forall (entries : dict) (w : world),
  exists entries' evs,
    geocode_all E entries places w = (Return entries', extend w evs) /\
    geocode_calls evs = map Geocode places /\
    ((forall h p e, geolocator_geocode E h p <> GeocodeRaises e) ->
     geocoder_steps evs = flat_map (fun p => [Geocode p; Sleep 1]) places) /\
    (forall k v, dict_get k entries' = Some v ->
                 dict_get k entries = Some v \/
                 (In k places /\ is_coordinates v)) /\
    (forall k, dict_mem k entries = true -> dict_mem k entries' = true) /\
    ((forall h p, In p places ->
                  exists lat lon, geolocator_geocode E h p = Located lat lon) ->
     forall p, In p places -> dict_mem p entries' = true) /\
    (forall p, (forall h lat lon,
                  geolocator_geocode E h p <> Located lat lon) ->
               dict_mem p entries = false -> dict_mem p entries' = false).
Proof.
  induction places as [|place rest IH]; intros entries w.
  - exists entries, []. simpl. rewrite extend_nil.
    repeat split; auto; try (intros _ p []).
  - destruct (geocode_place_run E entries place w) as (evs1 & H1 & C1 & S1).
    set (answer := geolocator_geocode E
                     (trace w ++ [Log INFO (LogGeocoding place)]) place) in *.
    set (entries1 := match answer with
                     | Located lat lon =>
                         dict_set place
                           (VDict [("lat", VNum lat); ("lon", VNum lon)])
                           entries
                     | _ => entries
                     end) in *.
    destruct (IH entries1 (extend w evs1))
      as (entries' & evs2 & H2 & C2 & S2 & Hval & Hmono & Hall & Hnone).
    exists entries', (evs1 ++ evs2).
    split.
    { simpl. unfold bind. rewrite H1, H2, extend_extend. reflexivity. }
    split.
    { rewrite geocode_calls_app, C1, C2. reflexivity. }
    split.
    { intros Hnr. rewrite geocoder_steps_app, S1, (S2 Hnr). simpl.
      destruct answer eqn:Ha; try reflexivity.
      exfalso. exact (Hnr _ _ _ Ha). }
    split.
    { intros k v Hk. destruct (Hval k v Hk) as [Hk1|[Hin Hc]].
      - unfold entries1 in Hk1. destruct answer as [lat lon| |e]; auto.
        destruct (String.eqb_spec k place) as [->|Hne].
        + rewrite dict_get_set_same in Hk1. inversion Hk1.
          right. split; [now left|]. now exists lat, lon.
        + rewrite dict_get_set_other in Hk1 by exact Hne. auto.
      - right. split; [now right|exact Hc]. }
    split.
    { intros k Hk. apply Hmono. unfold entries1.
      destruct answer; auto. rewrite dict_mem_set, Hk. apply orb_true_r. }
    split.
    { intros Hloc p [<-|Hin].
      - apply Hmono. unfold entries1.
        destruct (Hloc (trace w ++ [Log INFO (LogGeocoding place)]) place
                    (or_introl eq_refl)) as (lat & lon & Ha).
        fold answer in Ha. rewrite Ha.
        now rewrite dict_mem_set, String.eqb_refl.
      - apply Hall; [|exact Hin]. intros h q Hq. apply Hloc. now right. }
    { intros p Hnever Hp. apply Hnone; [exact Hnever|].
      unfold entries1. destruct answer as [lat lon| |e] eqn:Ha; auto.
      rewrite dict_mem_set, Hp, orb_false_r.
      destruct (String.eqb_spec p place) as [->|Hne]; [|reflexivity].
      exfalso. exact (Hnever _ _ _ Ha). }
Qed.

(** [build_location_cache] in terms of its loop. *)
Lemma build_location_cache_run (E : Env) (w : world) (entries : dict)
  (evs : list event) :
  geocode_all E [] (LOCATIONS E) (emit (Log INFO LogBuilding) w)
  = (Return entries, extend (emit (Log INFO LogBuilding) w) evs) ->
  let cache :=
    VDict [("version", VStr (hash_locations E (LOCATIONS E)));
           ("locations", VDict entries)] in
  build_location_cache E w
  = (Return cache,
     extend (write_file LOCATION_CACHE_FILE cache w)
       (Log INFO LogBuilding :: evs
          ++ [Save LOCATION_CACHE_FILE cache; Log INFO LogCacheBuilt])).
Proof.
  intros H cache. unfold build_location_cache, bind, logging, tell,
    save_json, ret.
  rewrite H. subst cache. f_equal.
  unfold extend, emit, write_file; simpl.
  f_equal. rewrite <- !app_assoc. reflexivity.
Qed.

Lemma build_location_cache_geocodes_each_place_aux (E : Env) (w : world) :
  exists evs,
    trace (snd (build_location_cache E w)) = trace w ++ evs /\
    geocode_calls evs = map Geocode (LOCATIONS E).
Proof.
  destruct (geocode_all_run E (LOCATIONS E) [] (emit (Log INFO LogBuilding) w))
    as (entries & evs & H & C & _).
  pose proof (build_location_cache_run E w entries evs H) as Hb.
  simpl in Hb. rewrite Hb. simpl snd.
  eexists. split; [reflexivity|].
  change (Log INFO LogBuilding :: ?l) with ([Log INFO LogBuilding] ++ l).
  rewrite !geocode_calls_app, C. simpl. now rewrite app_nil_r.
Qed.

(** X7: a rebuild calls the geocoder once for every configured name, in
    the order of the configuration, whatever the answers are: a failure
    for one place does not stop the loop.  When no call raises, every
    call is followed by a pause of one second. *)
Theorem build_location_cache_geocodes_each_place (E : Env) (w : world) :
  let evs := new_events w (snd (build_location_cache E w)) in
  geocode_calls evs = map Geocode (LOCATIONS E) /\
  ((forall h p e, geolocator_geocode E h p <> GeocodeRaises e) ->
   geocoder_steps evs
   = flat_map (fun p => [Geocode p; Sleep 1]) (LOCATIONS E)).
Proof.
  destruct (geocode_all_run E (LOCATIONS E) [] (emit (Log INFO LogBuilding) w))
    as (entries & evs & H & C & S & _).
  pose proof (build_location_cache_run E w entries evs H) as Hb.
  simpl in Hb. rewrite Hb. simpl snd.
  erewrite new_events_app by reflexivity.
  change (Log INFO LogBuilding :: ?l) with ([Log INFO LogBuilding] ++ l).
  split.
  - rewrite !geocode_calls_app, C. simpl. now rewrite app_nil_r.
  - intros Hnr. rewrite !geocoder_steps_app, (S Hnr). simpl.
    now rewrite app_nil_r.
Qed.

Lemma build_location_cache_geocodes_each_place_witness :
  geocoder_steps
    (new_events empty_world (snd (build_location_cache half_located_env
                                    empty_world)))
  = [Geocode "Kano, Kano, Nigeria"; Sleep 1; Geocode "Atlantis"; Sleep 1].
Proof.
  apply (build_location_cache_geocodes_each_place half_located_env
           empty_world).
  intros h p e. simpl. destruct (p =? "Atlantis"); discriminate.
Defined.

Lemma build_location_cache_postcondition_aux (E : Env) (w : world) :
  exists entries,
    let cache :=
      VDict [("version", VStr (hash_locations E (LOCATIONS E)));
             ("locations", VDict entries)] in
    fst (build_location_cache E w) = Return cache /\
    fs (snd (build_location_cache E w)) LOCATION_CACHE_FILE = Content cache /\
    (forall p, p <> LOCATION_CACHE_FILE ->
               fs (snd (build_location_cache E w)) p = fs w p) /\
    (forall k v, dict_get k entries = Some v ->
                 In k (LOCATIONS E) /\ is_coordinates v).
Proof.
  destruct (geocode_all_run E (LOCATIONS E) [] (emit (Log INFO LogBuilding) w))
    as (entries & evs & H & _ & _ & Hval & _).
  pose proof (build_location_cache_run E w entries evs H) as Hb.
  exists entries. simpl in Hb |- *. rewrite Hb. simpl.
  split; [reflexivity|]. split; [reflexivity|]. split.
  - intros p Hp. destruct (String.eqb_spec p LOCATION_CACHE_FILE);
      [contradiction|reflexivity].
  - intros k v Hk. destruct (Hval k v Hk) as [Hk0|Hin]; [discriminate|exact Hin].
Qed.

(** X8: a rebuild never raises.  The cache it returns is the one it
    persists; it carries the fingerprint of the configured list, its
    entries are coordinates of configured names only, and no other file
    is touched.  The cache is persisted even when no place was
    located. *)
Theorem build_location_cache_postcondition (E : Env) (w : world) :
  exists entries,
    let cache :=
      VDict [("version", VStr (hash_locations E (LOCATIONS E)));
             ("locations", VDict entries)] in
    fst (build_location_cache E w) = Return cache /\
    fs (snd (build_location_cache E w)) LOCATION_CACHE_FILE = Content cache /\
    (forall p, p <> LOCATION_CACHE_FILE ->
               fs (snd (build_location_cache E w)) p = fs w p) /\
    (forall k v, dict_get k entries = Some v ->
                 In k (LOCATIONS E) /\ is_coordinates v).
Proof. exact (build_location_cache_postcondition_aux E w). Qed.

Lemma build_location_cache_postcondition_witness :
  fs (snd (build_location_cache sample_env empty_world)) WEATHER_DATA_FILE
  = fs empty_world WEATHER_DATA_FILE.
Proof.
  destruct (build_location_cache_postcondition sample_env empty_world)
    as (entries & _ & _ & H & _).
  apply H. intros Heq. discriminate Heq.
Defined.

(** ** Reading the location cache *)

Lemma version_matches (v : value) (h : string) :
  version_differs v h = Return false ->
  exists d, v = VDict d /\ dict_get "version" d = Some (VStr h).
Proof.
  unfold version_differs, py_get. destruct v as [| | | | |d]; try discriminate.
  intros H. exists d. split; [reflexivity|].
  destruct (dict_get "version" d) as [x|]; simpl in H; [|discriminate].
  inversion H as [Hx]. apply negb_false_iff, is_str_true in Hx. now subst.
Qed.

(** The two ways [get_location_cache] returns: the file as it is, or the
    value of one rebuild. *)
Lemma get_location_cache_cases (E : Env) (w w' : world) (c : value) :
  get_location_cache E w = (Return c, w') ->
  (exists d,
     c = VDict d /\
     fs w LOCATION_CACHE_FILE = Content c /\
     dict_get "version" d = Some (VStr (hash_locations E (LOCATIONS E))) /\
     all_present c (LOCATIONS E) = Return true /\
     w' = extend w [Log INFO LogCacheLoaded]) \/
  (exists w0, fs w0 = fs w /\ build_location_cache E w0 = (Return c, w')).
Proof.
  unfold get_location_cache. intros H. unfold bind at 1 in H.
  destruct (load_json_world LOCATION_CACHE_FILE w)
    as (v & evs0 & Hl & Hq & Hcontent & Hmissing).
  rewrite Hl in H.
  unfold bind at 1 in H.
  destruct (truthy v) eqn:Ht; cbv beta iota delta [negb] in H.
  - unfold lift at 1 in H.
    destruct (version_differs v (hash_locations E (LOCATIONS E)))
      as [[|]|e] eqn:Hv; [| |discriminate].
    + right. unfold bind, logging, tell in H.
      exists (emit (Log INFO LogCacheOutdated) (extend w evs0)). now split.
    + unfold bind at 1 in H. unfold lift at 1 in H.
      destruct (all_present v (LOCATIONS E)) as [[|]|e] eqn:Ha;
        [| |discriminate].
      * left. unfold bind, logging, tell, ret in H. inversion H; subst c w'.
        destruct (version_matches _ _ Hv) as (d & -> & Hver).
        assert (Hf : fs w LOCATION_CACHE_FILE = Content (VDict d)).
        { destruct (fs w LOCATION_CACHE_FILE) as [| |x] eqn:Hf.
          - rewrite Hmissing in Ht by auto. discriminate.
          - rewrite Hmissing in Ht by auto. discriminate.
          - now rewrite (Hcontent x eq_refl). }
        exists d. repeat split; auto.
        rewrite (load_json_content _ _ _ Hf) in Hl.
        assert (He : evs0 = []).
        { apply (f_equal (fun x => trace (snd x))) in Hl. simpl in Hl.
          rewrite <- (app_nil_r (trace w)) in Hl at 1.
          now apply app_inv_head in Hl. }
        subst evs0. now rewrite extend_nil, emit_extend.
      * right. unfold bind, logging, tell in H.
        exists (emit (Log INFO LogCacheIncomplete) (extend w evs0)).
        now split.
  - right. unfold ret, bind, logging, tell in H.
    exists (emit (Log INFO LogCacheOutdated) (extend w evs0)). now split.
Qed.

Lemma get_location_cache_postcondition_aux (E : Env) (w w' : world)
  (c : value) :
  get_location_cache E w = (Return c, w') ->
  (exists d, c = VDict d /\
             dict_get "version" d
             = Some (VStr (hash_locations E (LOCATIONS E)))) /\
  fs w' LOCATION_CACHE_FILE = Content c /\
  (forall p, p <> LOCATION_CACHE_FILE -> fs w' p = fs w p).
Proof.
  intros H. destruct (get_location_cache_cases E w w' c H)
    as [(d & -> & Hf & Hv & _ & ->)|(w0 & Hfs & Hb)].
  - split; [now exists d|]. split; [exact Hf|reflexivity].
  - destruct (build_location_cache_postcondition_aux E w0)
      as (entries & Hr & Hfile & Hother & _).
    rewrite Hb in Hr, Hfile, Hother. simpl in Hr, Hfile, Hother.
    inversion Hr; subst c.
    split; [eexists; split; reflexivity|]. split; [exact Hfile|].
    intros p Hp. rewrite (Hother p Hp). now rewrite Hfs.
Qed.

(** X9: whenever [get_location_cache] returns, the cache it returns is a
    mapping that carries the fingerprint of the configured list and is
    the content of the cache file; no other file has changed. *)
Theorem get_location_cache_postcondition (E : Env) (w w' : world)
  (c : value) :
  get_location_cache E w = (Return c, w') ->
  (exists d, c = VDict d /\
             dict_get "version" d
             = Some (VStr (hash_locations E (LOCATIONS E)))) /\
  fs w' LOCATION_CACHE_FILE = Content c /\
  (forall p, p <> LOCATION_CACHE_FILE -> fs w' p = fs w p).
Proof. exact (get_location_cache_postcondition_aux E w w' c). Qed.

Lemma get_location_cache_postcondition_witness :
  fs (snd (get_location_cache sample_env empty_world)) LOCATION_CACHE_FILE
  = Content
      (VDict [("version", VStr "Kano, Kano, Nigeria");
              ("locations",
               VDict [("Kano, Kano, Nigeria",
                       VDict [("lat", VNum 12); ("lon", VNum (17 # 2))])])]).
Proof.
  eapply (get_location_cache_postcondition sample_env empty_world).
  vm_compute. reflexivity.
Defined.

Lemma get_location_cache_hit (E : Env) (w : world) (d : dict) :
  fs w LOCATION_CACHE_FILE = Content (VDict d) ->
  dict_get "version" d = Some (VStr (hash_locations E (LOCATIONS E))) ->
  all_present (VDict d) (LOCATIONS E) = Return true ->
  get_location_cache E w
  = (Return (VDict d), extend w [Log INFO LogCacheLoaded]).
Proof.
  intros Hf Hv Ha. unfold get_location_cache, bind.
  rewrite (load_json_content _ _ _ Hf).
  assert (Ht : truthy (VDict d) = true).
  { destruct d; [discriminate|reflexivity]. }
  rewrite Ht. cbv beta iota delta [negb].
  unfold lift, version_differs, py_get. rewrite Hv.
  rewrite (proj2 (is_str_true _ _) eq_refl).
  cbv beta iota delta [negb]. rewrite Ha.
  unfold logging, tell, ret. now rewrite emit_extend.
Qed.

(** X10: when the geocoder locates every configured place, a second
    call of [get_location_cache] returns the cache of the first as it
    is: no rebuild, no call of the geocoder, no write. *)
Theorem get_location_cache_settles (E : Env) (w w1 : world) (c : value) :
  (forall h p, In p (LOCATIONS E) ->
               exists lat lon, geolocator_geocode E h p = Located lat lon) ->
  get_location_cache E w = (Return c, w1) ->
  get_location_cache E w1 = (Return c, extend w1 [Log INFO LogCacheLoaded]).
Proof.
  intros Hloc H.
  destruct (get_location_cache_postcondition_aux E w w1 c H)
    as ((d & -> & Hv) & Hf & _).
  apply get_location_cache_hit; [exact Hf|exact Hv|].
  destruct (get_location_cache_cases E w w1 (VDict d) H)
    as [(d' & Hd & _ & _ & Ha & _)|(w0 & _ & Hb)]; [exact Ha|].
  destruct (geocode_all_run E (LOCATIONS E) []
              (emit (Log INFO LogBuilding) w0))
    as (entries & evs & Hg & _ & _ & _ & _ & Hall & _).
  pose proof (build_location_cache_run E w0 entries evs Hg) as Hb'.
  simpl in Hb'. rewrite Hb' in Hb. inversion Hb as [[Hd Hw]].
  rewrite all_present_typed.
  - f_equal. apply forallb_forall. intros p Hp.
    unfold locations_of. simpl. now apply Hall.
  - simpl. intros v Hv'. inversion Hv'. now exists entries.
Qed.

Lemma get_location_cache_settles_witness :
  get_location_cache sample_env
    (snd (get_location_cache sample_env empty_world))
  = (fst (get_location_cache sample_env empty_world),
     extend (snd (get_location_cache sample_env empty_world))
       [Log INFO LogCacheLoaded]).
Proof.
  apply (get_location_cache_settles sample_env empty_world).
  - intros h p _. now exists 12, (17 # 2).
  - vm_compute. reflexivity.
Defined.

Lemma get_location_cache_incomplete (E : Env) (w : world) (d : dict) :
  fs w LOCATION_CACHE_FILE = Content (VDict d) ->
  dict_get "version" d = Some (VStr (hash_locations E (LOCATIONS E))) ->
  all_present (VDict d) (LOCATIONS E) = Return false ->
  get_location_cache E w
  = build_location_cache E (extend w [Log INFO LogCacheIncomplete]).
Proof.
  intros Hf Hv Ha. unfold get_location_cache, bind.
  rewrite (load_json_content _ _ _ Hf).
  assert (Ht : truthy (VDict d) = true).
  { destruct d; [discriminate|reflexivity]. }
  rewrite Ht. cbv beta iota delta [negb].
  unfold lift, version_differs, py_get. rewrite Hv.
  rewrite (proj2 (is_str_true _ _) eq_refl).
  cbv beta iota delta [negb]. rewrite Ha.
  unfold logging, tell. now rewrite emit_extend.
Qed.

(** X11: a place the geocoder never locates keeps the cache invalid:
    the rebuild persists a cache without it, and the next call of
    [get_location_cache] rebuilds the whole cache again, with one call
    of the geocoder for every configured name. *)
Theorem unlocated_place_forces_rebuild (E : Env) (w : world) (p : string) :
  In p (LOCATIONS E) ->
  (forall h lat lon, geolocator_geocode E h p <> Located lat lon) ->
  let w1 := snd (build_location_cache E w) in
  rebuilds (new_events w1 (snd (get_location_cache E w1))) = 1%nat /\
  geocode_calls (new_events w1 (snd (get_location_cache E w1)))
  = map Geocode (LOCATIONS E).
Proof.
  intros Hin Hnever w1. subst w1.
  destruct (geocode_all_run E (LOCATIONS E) []
              (emit (Log INFO LogBuilding) w))
    as (entries & evs & Hg & _ & _ & _ & _ & _ & Hnone).
  pose proof (build_location_cache_run E w entries evs Hg) as Hb.
  simpl in Hb. rewrite Hb. simpl snd.
  set (cache := [("version", VStr (hash_locations E (LOCATIONS E)));
                 ("locations", VDict entries)]) in *.
  set (w1 := extend (write_file LOCATION_CACHE_FILE (VDict cache) w) _).
  assert (Hf : fs w1 LOCATION_CACHE_FILE = Content (VDict cache))
    by reflexivity.
  assert (Ha : all_present (VDict cache) (LOCATIONS E) = Return false).
  { rewrite all_present_typed.
    - f_equal. apply not_true_is_false. intros Hall.
      rewrite forallb_forall in Hall. specialize (Hall p Hin).
      unfold locations_of in Hall. simpl in Hall.
      rewrite (Hnone p Hnever eq_refl) in Hall. discriminate.
    - simpl. intros v Hv. inversion Hv. now exists entries. }
  rewrite (get_location_cache_incomplete E w1 cache Hf eq_refl Ha).
  split.
  - rewrite <- (build_location_cache_rebuilds E
                  (extend w1 [Log INFO LogCacheIncomplete])).
    destruct (build_location_cache_world E
                (extend w1 [Log INFO LogCacheIncomplete]))
      as (es & bevs & Hb2 & _).
    simpl in Hb2. rewrite Hb2. simpl snd.
    erewrite new_events_app
      by (unfold extend; simpl; rewrite <- app_assoc; reflexivity).
    erewrite (new_events_app (extend w1 [Log INFO LogCacheIncomplete]))
      by reflexivity.
    change (Log INFO LogCacheIncomplete :: ?l)
      with ([Log INFO LogCacheIncomplete] ++ l).
    now rewrite rebuilds_app.
  - destruct (build_location_cache_geocodes_each_place_aux E
                (extend w1 [Log INFO LogCacheIncomplete]))
      as (bevs & Htr & Hc).
    erewrite new_events_app
      by (rewrite Htr; unfold extend; simpl; rewrite <- app_assoc;
          reflexivity).
    change (Log INFO LogCacheIncomplete :: ?l)
      with ([Log INFO LogCacheIncomplete] ++ l).
    now rewrite geocode_calls_app, Hc.
Qed.

Lemma unlocated_place_forces_rebuild_witness :
  rebuilds
    (new_events (snd (build_location_cache half_located_env empty_world))
       (snd (get_location_cache half_located_env
               (snd (build_location_cache half_located_env empty_world)))))
  = 1%nat.
Proof.
  apply (unlocated_place_forces_rebuild half_located_env empty_world
           "Atlantis").
  - right. now left.
  - intros h lat lon. simpl. discriminate.
Defined.

(** ** Reading the forecast cache *)

(** A second call on the world a successful fetch leaves behind. *)
Lemma fetch_rain_probability_hit (E : Env) (lat lon : value)
  (place : string) (w : world) (d : dict) (now m : Q) :
  has_api_key E = true ->
  fs w FORECAST_CACHE_FILE = Content (VDict d) ->
  dict_get place d = Some (new_entry now m) ->
  time_time E (trace w) - now < FORECAST_REFRESH_INTERVAL ->
  fetch_rain_probability E lat lon place w = (Return (summary_of m), w).
Proof.
  intros K Hf Hd Hage. unfold fetch_rain_probability. rewrite K.
  cbv beta iota zeta delta [negb bind history lift ret].
  rewrite (load_json_content _ _ _ Hf). unfold py_get. rewrite Hd.
  unfold fresh_data, new_entry, py_get, py_age. simpl truthy. cbv iota.
  simpl dict_get. cbv iota. simpl as_num. cbv iota.
  rewrite (proj2 (Qlt_bool_iff _ _) Hage). reflexivity.
Qed.

(** X12: what a fetch stores is what the next call finds.  After a call
    that fetched a summary, a call for the same place that starts less
    than 7200 seconds after the first started returns that summary with
    no request and no write, whatever coordinates it is given: the
    cache is keyed by the place name alone. *)
Theorem fetched_summary_is_served_next (E : Env) (lat lon lat' lon' : value)
  (place : string) (w : world) (summary : value) :
  let run := fetch_rain_probability E lat lon place w in
  In (HttpGet FORECAST_URL lat lon) (new_events w (snd run)) ->
  fst run = Return summary ->
  summary <> VNone ->
  time_time E (trace (snd run)) - time_time E (trace w)
  < FORECAST_REFRESH_INTERVAL ->
  fetch_rain_probability E lat' lon' place (snd run)
  = (Return summary, snd run).
Proof.
  intros run Hin Hret Hsome Hage. subst run.
  rain_cases E lat lon place w; simpl in Hret;
    try discriminate; try (inversion Hret; congruence);
    try (exfalso; no_fetch Hin; fail).
  inversion Hret as [Hsum]. simpl snd in *.
  eapply fetch_rain_probability_hit; eauto.
  - reflexivity.
  - apply dict_get_set_same.
Qed.

Lemma fetched_summary_is_served_next_witness :
  fetch_rain_probability sample_env (VNum 0) (VNum 0) "Kano, Kano, Nigeria"
    (snd (fetch_rain_probability sample_env (VNum 12) (VNum (17 # 2))
            "Kano, Kano, Nigeria" empty_world))
  = (Return (VDict [("max_rain_prob", VNum 70);
                    ("risk_level", VStr "HIGH")]),
     snd (fetch_rain_probability sample_env (VNum 12) (VNum (17 # 2))
            "Kano, Kano, Nigeria" empty_world)).
Proof.
  apply (fetched_summary_is_served_next sample_env (VNum 12) (VNum (17 # 2))).
  - vm_compute. now left.
  - reflexivity.
  - discriminate.
  - vm_compute. reflexivity.
Defined.

(** X13: a forecast cache file that holds valid JSON of the wrong shape
    is not recovered from.  When the document is not an object, or the
    entry of the place has a timestamp that is not a number, the call
    raises before any request is made, outside its own [try] block. *)
Theorem malformed_forecast_cache_raises (E : Env) (lat lon : value)
  (place : string) (w : world) (v : value) :
  has_api_key E = true ->
  fs w FORECAST_CACHE_FILE = Content v ->
  ((forall d, v <> VDict d) ->
   fetch_rain_probability E lat lon place w = (Raise AttributeError, w)) /\
  (forall d k x entry ts,
     v = VDict d ->
     dict_get place d = Some (VDict ((k, x) :: entry)) ->
     dict_get "timestamp" ((k, x) :: entry) = Some ts ->
     as_num ts = None ->
     fetch_rain_probability E lat lon place w = (Raise TypeError, w)).
Proof.
  intros K Hf. unfold fetch_rain_probability. rewrite K.
  cbv beta iota zeta delta [negb bind history lift ret].
  rewrite (load_json_content _ _ _ Hf). split.
  - intros Hv. destruct v as [| | | | |d]; try reflexivity.
    now destruct (Hv d).
  - intros d k x entry ts -> Hd Hts Hnum. unfold py_get at 1. rewrite Hd.
    unfold fresh_data. simpl truthy. cbv iota.
    unfold py_get at 1. rewrite Hts.
    unfold py_get at 1.
    destruct (dict_get "data" ((k, x) :: entry)); unfold py_age;
      rewrite Hnum; reflexivity.
Qed.

Lemma malformed_forecast_cache_raises_witness :
  fetch_rain_probability sample_env (VNum 12) (VNum (17 # 2))
    "Kano, Kano, Nigeria"
    (world_with FORECAST_CACHE_FILE (VList [VStr "Kano, Kano, Nigeria"]))
  = (Raise AttributeError,
     world_with FORECAST_CACHE_FILE (VList [VStr "Kano, Kano, Nigeria"])).
Proof.
  apply (malformed_forecast_cache_raises sample_env (VNum 12) (VNum (17 # 2))
           "Kano, Kano, Nigeria"
           (world_with FORECAST_CACHE_FILE (VList [VStr "Kano, Kano, Nigeria"]))
           (VList [VStr "Kano, Kano, Nigeria"]) eq_refl eq_refl).
  intros d. discriminate.
Defined.

(** ** The percentage and the band *)

Lemma Forall2_In_r {A B} (R : A -> B -> Prop) (l : list A) (l' : list B)
  (y : B) :
  Forall2 R l l' -> In y l' -> exists x, In x l /\ R x y.
Proof.
  induction 1 as [|x y' l l' Hxy _ IH]; intros Hin; [contradiction|].
  destruct Hin as [<-|Hin].
  - exists x. split; [now left|exact Hxy].
  - destruct (IH Hin) as (x' & Hx' & HR). exists x'. split; [now right|auto].
Qed.

Lemma binary64_Z (z : Z) : (Z.abs z <= 2 ^ 53)%Z -> binary64 (inject_Z z).
Proof.
  intros H. exists z, 0%Z. split; [exact H|]. split; [lia|].
  change (2 ^ 0) with 1. ring.
Qed.

(** Rounding to binary64 does not cross a binary64 number. *)
Lemma b64_ge (t y : Q) : binary64 y -> y <= t -> y <= b64 t.
Proof.
  intros Hy Hle. destruct (b64_nearest t) as (_ & Hn & _).
  specialize (Hn y Hy). qabs (t - b64 t). qabs (t - y). lra.
Qed.

Lemma b64_le (t y : Q) : binary64 y -> t <= y -> b64 t <= y.
Proof.
  intros Hy Hle. destruct (b64_nearest t) as (_ & Hn & _).
  specialize (Hn y Hy). qabs (t - b64 t). qabs (t - y). lra.
Qed.

Lemma b64_near (t y : Q) :
  binary64 y -> Qabs (t - b64 t) <= Qabs (t - y).
Proof. intros Hy. destruct (b64_nearest t) as (_ & Hn & _). now apply Hn. Qed.

Lemma py_number_range (q : Q) :
  0 <= q -> q <= 1 -> 0 <= py_number q /\ py_number q <= 1.
Proof.
  intros H0 H1. unfold py_number. destruct (is_integer q); [auto|]. split.
  - apply (b64_ge q (inject_Z 0)); [apply binary64_Z; vm_compute; discriminate|exact H0].
  - apply (b64_le q (inject_Z 1)); [apply binary64_Z; vm_compute; discriminate|exact H1].
Qed.

(** The percentage that goes with each band, in the arithmetic of the
    program. *)
Lemma summary_of_consistent (m : Q) :
  let percent := py_round (py_mul m 100) in
  (risk_of m = "HIGH" -> (70 <= percent)%Z) /\
  (risk_of m = "MODERATE" -> (40 <= percent <= 70)%Z) /\
  (risk_of m = "LOW" -> (percent <= 40)%Z) /\
  (0 <= m -> m <= 1 -> (0 <= percent <= 100)%Z).
Proof.
  intros percent. subst percent.
  destruct (risk_of_bands m) as (Hh & Hm & Hl).
  assert (T7 : b64 (7 # 10) = 6305039478318694 # 9007199254740992)
    by (vm_compute; reflexivity).
  assert (T4 : b64 (4 # 10) = 7205759403792794 # 18014398509481984)
    by (vm_compute; reflexivity).
  rewrite T7, T4 in *.
  unfold py_mul. change (is_integer 100) with true. rewrite andb_true_r.
  destruct (is_integer m) eqn:Hint.
  - (* an int is multiplied exactly *)
    apply is_integer_spec in Hint. destruct Hint as [z Hz].
    assert (Hp : py_round (m * 100) = (z * 100)%Z).
    { rewrite <- (py_round_Z (z * 100)). apply py_round_comp.
      rewrite Hz, inject_Z_mult. reflexivity. }
    rewrite Hp.
    assert (Hpos : 0 < m -> (1 <= z)%Z).
    { intros H. rewrite Hz in H. change 0 with (inject_Z 0) in H.
      rewrite <- Zlt_Qlt in H. lia. }
    assert (Hsmall : m < 1 -> (z <= 0)%Z).
    { intros H. rewrite Hz in H. change 1 with (inject_Z 1) in H.
      rewrite <- Zlt_Qlt in H. lia. }
    assert (Hnn : 0 <= m -> (0 <= z)%Z).
    { intros H. rewrite Hz in H. change 0 with (inject_Z 0) in H.
      now rewrite <- Zle_Qle in H. }
    assert (Hle1 : m <= 1 -> (z <= 1)%Z).
    { intros H. rewrite Hz in H. change 1 with (inject_Z 1) in H.
      now rewrite <- Zle_Qle in H. }
    repeat split.
    + intros H. apply Hh in H. assert (1 <= z)%Z by (apply Hpos; lra). lia.
    + apply Hm in H. assert (1 <= z)%Z by (apply Hpos; lra).
      assert (z <= 0)%Z by (apply Hsmall; lra). lia.
    + apply Hm in H. assert (1 <= z)%Z by (apply Hpos; lra).
      assert (z <= 0)%Z by (apply Hsmall; lra). lia.
    + intros H. apply Hl in H. assert (z <= 0)%Z by (apply Hsmall; lra). lia.
    + specialize (Hnn H). lia.
    + specialize (Hle1 H0). lia.
  - (* a float product is rounded to binary64 *)
    assert (B0 : binary64 (inject_Z 0)) by (apply binary64_Z; vm_compute; discriminate).
    assert (B40 : binary64 (inject_Z 40)) by (apply binary64_Z; vm_compute; discriminate).
    assert (B70 : binary64 (inject_Z 70)) by (apply binary64_Z; vm_compute; discriminate).
    assert (B100 : binary64 (inject_Z 100)) by (apply binary64_Z; vm_compute; discriminate).
    pose proof (b64_ge (m * 100) _ B0) as G0.
    pose proof (b64_ge (m * 100) _ B40) as G40.
    pose proof (b64_ge (m * 100) _ B70) as G70.
    pose proof (b64_le (m * 100) _ B40) as L40.
    pose proof (b64_le (m * 100) _ B70) as L70.
    pose proof (b64_le (m * 100) _ B100) as L100.
    pose proof (b64_near (m * 100) _ B40) as N40.
    pose proof (b64_near (m * 100) _ B70) as N70.
    unfold inject_Z in G0, G40, G70, L40, L70, L100, N40, N70.
    set (x := b64 (m * 100)) in *. clearbody x.
    assert (R70 : py_round (279 # 4) = 70%Z) by reflexivity.
    assert (R40 : py_round (161 # 4) = 40%Z) by reflexivity.
    assert (Z0 : py_round (0 # 1) = 0%Z) by reflexivity.
    assert (Z40 : py_round (40 # 1) = 40%Z) by reflexivity.
    assert (Z70 : py_round (70 # 1) = 70%Z) by reflexivity.
    assert (Z100 : py_round (100 # 1) = 100%Z) by reflexivity.
    repeat split.
    + intros H. apply Hh in H. rewrite <- R70. apply py_round_mono.
      qabs (m * 100 - x). qabs (m * 100 - (70 # 1)).
      destruct (Qlt_le_dec (m * 100) (70 # 1)); lra.
    + apply Hm in H. rewrite <- Z40. apply py_round_mono. apply G40. lra.
    + apply Hm in H. rewrite <- Z70. apply py_round_mono. apply L70. lra.
    + intros H. apply Hl in H. rewrite <- R40. apply py_round_mono.
      qabs (m * 100 - x). qabs (m * 100 - (40 # 1)).
      destruct (Qlt_le_dec (m * 100) (40 # 1)); lra.
    + rewrite <- Z0. apply py_round_mono. apply G0. lra.
    + rewrite <- Z100. apply py_round_mono. apply L100. lra.
Qed.

Lemma risk_of_values (m : Q) :
  risk_of m = "HIGH" \/ risk_of m = "MODERATE" \/ risk_of m = "LOW".
Proof.
  unfold risk_of. destruct (Qle_bool (b64 (7 # 10)) m); [now left|].
  destruct (Qle_bool (b64 (4 # 10)) m); auto.
Qed.

(** X14: the two fields of a fetched summary agree one way only, in
    the float arithmetic of the program.  The band is one of HIGH,
    MODERATE and LOW, and HIGH comes with a percentage of at least 70,
    MODERATE with one from 40 to 70, LOW with one of at most 40: the
    band is decided on the probability before it is multiplied and
    rounded, so a rounded 70 can be MODERATE and a rounded 40 can be
    LOW.  When the probabilities in the answer to the request lie
    between 0 and 1 the percentage lies between 0 and 100. *)
Theorem fetched_percentage_and_band (E : Env) (lat lon : value)
  (place : string) (w : world) (summary : value) :
  let run := fetch_rain_probability E lat lon place w in
  let evs := new_events w (snd run) in
  In (HttpGet FORECAST_URL lat lon) evs ->
  fst run = Return summary ->
  summary <> VNone ->
  exists pre post percent risk,
    evs = pre ++ HttpGet FORECAST_URL lat lon :: post /\
    summary = VDict [("max_rain_prob", VNum (inject_Z percent));
                     ("risk_level", VStr risk)] /\
    (risk = "HIGH" /\ (70 <= percent)%Z \/
     risk = "MODERATE" /\ (40 <= percent <= 70)%Z \/
     risk = "LOW" /\ (percent <= 40)%Z) /\
    ((forall body series item q,
        requests_get E (trace w ++ pre) FORECAST_URL lat lon
        = HttpJson body ->
        py_get body "list" (VList []) = Return (VList series) ->
        In item (firstn 4 series) -> is_pop item q -> 0 <= q /\ q <= 1) ->
     (0 <= percent <= 100)%Z).
Proof.
  intros run evs Hin Hret Hsome. subst run evs.
  rain_cases E lat lon place w; simpl in Hret;
    try discriminate; try (inversion Hret; congruence);
    try (exfalso; no_fetch Hin; fail).
  inversion Hret as [Hsum].
  destruct (summary_of_consistent m) as (Hh & Hm & Hl & Hrange).
  exists evs0, [Save FORECAST_CACHE_FILE cache'],
    (py_round (py_mul m 100)), (risk_of m).
  split; [apply new_events_app; reflexivity|].
  split; [reflexivity|]. split.
  - destruct (risk_of_values m) as [Hr|[Hr|Hr]]; auto.
  - intros Hpops.
    match goal with
    | Ho : forecast_outcome _ = Return (Some _) |- _ =>
        destruct (forecast_outcome_some _ _ Ho)
          as (body & series & literals & Hresp & Hlist & _ & Hp & Hne & Hmax)
    end.
    assert (Hne' : map py_number literals <> [])
      by (destruct literals; [congruence|discriminate]).
    destruct (py_max_is_max (map py_number literals) 0 Hne') as [Hmem _].
    rewrite <- Hmax in Hmem. apply in_map_iff in Hmem.
    destruct Hmem as (q & Hq & Hin').
    destruct (Forall2_In_r _ _ _ _ Hp Hin') as (item & Hitem & Hpop).
    destruct (Hpops body series item q Hresp Hlist Hitem Hpop) as [Hq0 Hq1].
    destruct (py_number_range q Hq0 Hq1) as [Hm0 Hm1].
    rewrite Hq in Hm0, Hm1. now apply Hrange.
Qed.

Lemma fetched_percentage_and_band_witness :
  exists percent risk,
    VDict [("max_rain_prob", VNum 70); ("risk_level", VStr "HIGH")]
    = VDict [("max_rain_prob", VNum (inject_Z percent));
             ("risk_level", VStr risk)] /\
    (0 <= percent <= 100)%Z.
Proof.
  destruct (fetched_percentage_and_band sample_env (VNum 12) (VNum (17 # 2))
              "Kano, Kano, Nigeria" empty_world
              (VDict [("max_rain_prob", VNum 70);
                      ("risk_level", VStr "HIGH")]))
    as (pre & post & percent & risk & _ & Hsum & _ & Hrange).
  - vm_compute. now left.
  - reflexivity.
  - discriminate.
  - exists percent, risk. split; [exact Hsum|]. apply Hrange.
    intros body series item q Hresp Hlist Hitem (i & -> & Hq).
    simpl in Hresp. inversion Hresp; subst body.
    simpl in Hlist. inversion Hlist; subst series.
    simpl in Hitem. destruct Hitem as [Hi|[Hi|[]]]; inversion Hi; subst i;
      simpl in Hq.
    + inversion Hq. split; discriminate.
    + subst q. split; discriminate.
Defined.

(** A probability written 0.695 gives a percentage of 70 and stays
    MODERATE. *)
Example rounded_70_is_moderate :
  summary_of (py_number (139 # 200))
  = VDict [("max_rain_prob", VNum 70); ("risk_level", VStr "MODERATE")].
Proof. vm_compute. reflexivity. Qed.

(** ** The results of a run *)

Lemma bind_eq {A B} (m : M A) (k : A -> M B) (w w1 : world) (a : A) :
  m w = (Return a, w1) -> bind m k w = k a w1.
Proof. intros H. unfold bind. now rewrite H. Qed.

Lemma bind_raise {A B} (m : M A) (k : A -> M B) (w w1 : world) (e : exn) :
  m w = (Raise e, w1) -> bind m k w = (Raise e, w1).
Proof. intros H. unfold bind. now rewrite H. Qed.

Lemma dict_set_keys (k : string) (v : value) (d : dict) :
  In k (keys d) -> keys (dict_set k v d) = keys d.
Proof.
  unfold keys. induction d as [|[k' v'] d IH]; simpl; [contradiction|].
  intros Hin. destruct (String.eqb_spec k' k) as [->|Hne]; [reflexivity|].
  simpl. f_equal. apply IH. destruct Hin as [Hin|Hin]; [contradiction|exact Hin].
Qed.

(** [update] with keys the mapping already has keeps the keys and their
    order, and the value of every key it does not name. *)
Lemma update_from_frame (src : value) (ks : list (string * string)) :
  forall d d',
    update_from src ks d = Return d' ->
    (forall k, In k (map fst ks) -> In k (keys d)) ->
    keys d' = keys d /\
    forall key, ~ In key (map fst ks) -> dict_get key d' = dict_get key d.
Proof.
  induction ks as [|[k k'] rest IH]; simpl; intros d d' H Hin.
  - inversion H. auto.
  - destruct (py_getitem src k') as [v|]; [|discriminate].
    destruct (update_from src rest d) as [d0|] eqn:Hrest; [|discriminate].
    inversion H; subst d'.
    destruct (IH d d0 Hrest) as [Hk Hv]; [auto|].
    split.
    + rewrite dict_set_keys; [exact Hk|]. rewrite Hk. auto.
    + intros key Hn. rewrite dict_get_set_other.
      * apply Hv. intros Hc. apply Hn. now right.
      * intros ->. apply Hn. now left.
Qed.

Lemma process_location_result (E : Env) (item : string * value) :
  returns (result_of item) (process_location E item).
Proof.
  unfold process_location. cbv zeta.
  do 4 (apply returns_bind with (fun _ => True); [apply returns_any|];
        intros ? _).
  apply returns_bind
    with (fun d => keys d = RESULT_KEYS /\
                   dict_get "place" d = Some (VStr (fst item))).
  { destruct (truthy a1).
    - apply returns_lift. intros d Hd.
      apply update_from_frame in Hd.
      + destruct Hd as [Hk Hv]. split; [exact Hk|].
        rewrite Hv; [reflexivity|].
        simpl. intros [H|[H|[H|[H|[H|[H|[]]]]]]]; discriminate.
      + simpl. intros k [<-|[<-|[<-|[<-|[<-|[<-|[]]]]]]]; simpl; auto 10.
    - apply returns_bind with (fun _ => True); [apply returns_any|].
      intros _ _. apply returns_ret. now split. }
  intros d1 [Hk1 Hp1].
  apply returns_bind
    with (fun d => keys d = RESULT_KEYS /\
                   dict_get "place" d = Some (VStr (fst item))).
  { destruct (truthy a2).
    - apply returns_lift. intros d Hd.
      apply update_from_frame in Hd.
      + destruct Hd as [Hk Hv]. split; [congruence|].
        rewrite Hv; [exact Hp1|].
        simpl. intros [H|[H|[]]]; discriminate.
      + rewrite Hk1. simpl. intros k [<-|[<-|[]]]; simpl; auto 10.
    - apply returns_ret. now split. }
  intros d2 [Hk2 Hp2].
  apply returns_bind with (fun _ => True); [apply returns_any|].
  intros _ _. apply returns_ret. now exists d2.
Qed.

Lemma for_each_Forall2 {A B} (R : A -> B -> Prop) (body : A -> M B) :
  (forall x, returns (R x) (body x)) ->
  forall xs w ys w',
    for_each body xs w = (Return ys, w') -> Forall2 R xs ys.
Proof.
  intros Hb. induction xs as [|x xs IH]; simpl; intros w ys w' H.
  - unfold ret in H. inversion H. constructor.
  - unfold bind in H.
    destruct (body x w) as [[y|e] w1] eqn:Hx; [|discriminate].
    destruct (for_each body xs w1) as [[ys'|e] w2] eqn:Hxs; [|discriminate].
    unfold ret in H. inversion H; subst.
    constructor; [eapply Hb; eauto|eapply IH; eauto].
Qed.

(** The [try] block of [main] once the location cache is at hand. *)
Lemma main_try_unfold (E : Env) (w w1 : world) (cache : value)
  (item : string * value) (items : dict) :
  get_location_cache E w = (Return cache, w1) ->
  py_get cache "locations" (VDict []) = Return (VDict (item :: items)) ->
  main_try E w
  = bind (for_each (process_location E) (item :: items))
      (fun weather_results =>
         bind history
           (fun h =>
              bind (save_json WEATHER_DATA_FILE
                      (VDict [("generated_at", VStr (utcnow_isoformat E h));
                              ("locations", VList weather_results)]))
                (fun _ => logging INFO LogSaved)))
      (emit (Log INFO (LogStarting (S (List.length items)))) w1).
Proof.
  intros Hc Hl. unfold main_try.
  rewrite (bind_eq _ _ _ _ _ Hc). cbv beta.
  unfold lift at 1. unfold bind at 1. rewrite Hl.
  cbv beta iota delta [negb truthy].
  unfold lift, py_len, py_items. unfold bind at 1. cbv beta iota.
  unfold bind at 1. unfold logging at 1, tell at 1. cbv beta iota.
  unfold bind at 1. reflexivity.
Qed.

Lemma main_try_no_locations (E : Env) (w w1 : world) (cache : value) :
  get_location_cache E w = (Return cache, w1) ->
  py_get cache "locations" (VDict []) = Return (VDict []) ->
  main_try E w = (Return tt, emit (Log ERROR LogNoLocations) w1).
Proof.
  intros Hc Hl. unfold main_try.
  rewrite (bind_eq _ _ _ _ _ Hc). cbv beta.
  unfold lift at 1. unfold bind at 1. rewrite Hl. reflexivity.
Qed.

(** X15: the snapshot follows the location cache, not the configured
    list: it holds one result for every entry of the cache that
    [get_location_cache] returned, in the order of the cache, each with
    the nine fields of a location result and the name of its entry as
    [place]. *)
Theorem snapshot_lists_cached_locations (E : Env) (w w1 : world)
  (cache snapshot : value) (items : dict) :
  get_location_cache E w = (Return cache, w1) ->
  py_get cache "locations" (VDict []) = Return (VDict items) ->
  In (Save WEATHER_DATA_FILE snapshot) (new_events w (snd (main E w))) ->
  exists stamp results,
    snapshot = VDict [("generated_at", VStr stamp);
                      ("locations", VList results)] /\
    Forall2 result_of items results.
Proof.
  intros Hc Hl Hin.
  destruct (get_location_cache_keeps_snapshot E w) as (evs1 & H1 & P1).
  rewrite Hc in H1. simpl in H1.
  unfold main in Hin.
  destruct (has_api_key E); cbv beta iota delta [negb] in Hin.
  2:{ unfold logging, tell in Hin. simpl in Hin.
      rewrite emit_extend, new_events_extend in Hin.
      destruct Hin as [H|[]]. discriminate. }
  unfold try_except in Hin.
  destruct items as [|item items].
  { rewrite (main_try_no_locations E w w1 cache Hc Hl) in Hin.
    simpl in Hin.
    erewrite new_events_app in Hin
      by (simpl; rewrite H1, <- app_assoc; reflexivity).
    apply in_app_or in Hin. destruct Hin as [Hin|[Hin|[]]]; try discriminate.
    exfalso. now apply (not_snapshot_no_save evs1 snapshot). }
  rewrite (main_try_unfold E w w1 cache item items Hc Hl) in Hin.
  set (w2 := emit (Log INFO (LogStarting (S (List.length items)))) w1) in *.
  destruct (emits_for_each not_snapshot (process_location E) (item :: items)
              (process_location_keeps_snapshot E) w2) as (evs2 & H2 & P2).
  pose proof (for_each_Forall2 result_of (process_location E)
                (process_location_result E) (item :: items) w2) as HF.
  unfold bind at 1 in Hin.
  destruct (for_each (process_location E) (item :: items) w2)
    as [[results|e] w3]; cbn [snd] in H2.
  - specialize (HF results w3 eq_refl).
    unfold bind, history, save_json, logging, tell in Hin. simpl in Hin.
    rewrite (new_events_app _ _
               (evs1 ++ [Log INFO (LogStarting (S (List.length items)))]
                  ++ evs2
                  ++ [Save WEATHER_DATA_FILE
                        (VDict [("generated_at",
                                 VStr (utcnow_isoformat E (trace w3)));
                                ("locations", VList results)]);
                      Log INFO LogSaved])) in Hin
      by (simpl; rewrite H2; unfold w2; simpl; rewrite H1;
          now rewrite <- !app_assoc).
    apply in_app_or in Hin. destruct Hin as [Hin|Hin];
      [exfalso; now apply (not_snapshot_no_save evs1 snapshot)|].
    destruct Hin as [Hin|Hin]; [discriminate|]. simpl in Hin.
    apply in_app_or in Hin. destruct Hin as [Hin|Hin];
      [exfalso; now apply (not_snapshot_no_save evs2 snapshot)|].
    simpl in Hin. destruct Hin as [Hin|[Hin|Hin]];
      [|discriminate|contradiction].
    inversion Hin. eexists _, results. split; [reflexivity|exact HF].
  - unfold logging, tell in Hin. simpl in Hin.
    rewrite (new_events_app _ _
               (evs1 ++ [Log INFO (LogStarting (S (List.length items)))]
                  ++ evs2 ++ [Log CRITICAL LogCriticalError])) in Hin
      by (simpl; rewrite H2; unfold w2; simpl; rewrite H1;
          now rewrite <- !app_assoc).
    apply in_app_or in Hin. destruct Hin as [Hin|Hin];
      [exfalso; now apply (not_snapshot_no_save evs1 snapshot)|].
    destruct Hin as [Hin|Hin]; [discriminate|]. simpl in Hin.
    apply in_app_or in Hin. destruct Hin as [Hin|Hin];
      [exfalso; now apply (not_snapshot_no_save evs2 snapshot)|].
    simpl in Hin. destruct Hin as [Hin|Hin]; [discriminate|contradiction].
Qed.

Lemma snapshot_lists_cached_locations_witness :
  exists stamp results,
    sample_run_snapshot = VDict [("generated_at", VStr stamp);
                                 ("locations", VList results)] /\
    Forall2 result_of sample_items results.
Proof.
  apply (snapshot_lists_cached_locations sample_env empty_world
           (snd (get_location_cache sample_env empty_world)) sample_cache).
  - vm_compute. reflexivity.
  - reflexivity.
  - vm_compute. repeat first [left; reflexivity | right].
Defined.

(** ** One location at a time *)

(** A forecast request that raises, with nothing cached. *)
Lemma fetch_rain_probability_fails (E : Env) (lat lon : value)
  (place : string) (w : world) (e : exn) :
  has_api_key E = true ->
  fs w FORECAST_CACHE_FILE = Missing ->
  requests_get E (trace w) FORECAST_URL lat lon = HttpRaises e ->
  fetch_rain_probability E lat lon place w
  = (Return VNone,
     extend w [HttpGet FORECAST_URL lat lon;
               Log ERROR (forecast_error_record place e)]).
Proof.
  intros K Hf Hresp. unfold fetch_rain_probability. rewrite K.
  cbv beta iota zeta delta [negb bind history lift ret].
  unfold load_json. rewrite Hf. cbv beta iota.
  unfold py_get at 1. simpl dict_get. cbv beta iota.
  unfold fresh_data. simpl truthy. cbv beta iota.
  unfold try_except, fetch_forecast, http_get_json.
  cbv beta iota zeta delta [bind history lift ret tell logging].
  simpl trace. rewrite Hresp. simpl http_json. cbv beta iota.
  destruct e; simpl; now rewrite !emit_extend, !extend_extend.
Qed.

(** X16: a failed forecast is isolated to its field.  With no cached
    forecast and a forecast request that raises, [process_location]
    still returns: the result has its place, [rain_probability = None]
    and [risk = "UNKNOWN"] (never LOW), the weather fields are those of
    [fetch_weather], and no file is written. *)
Theorem forecast_failure_leaves_risk_unknown (E : Env) (place : string)
  (coords lat lon : value) (w : world) (e : exn) :
  has_api_key E = true ->
  py_getitem coords "lat" = Return lat ->
  py_getitem coords "lon" = Return lon ->
  fs w FORECAST_CACHE_FILE = Missing ->
  (forall h, requests_get E h FORECAST_URL lat lon = HttpRaises e) ->
  exists d evs,
    process_location E (place, coords) w = (Return (VDict d), extend w evs) /\
    keys d = RESULT_KEYS /\
    dict_get "place" d = Some (VStr place) /\
    dict_get "rain_probability" d = Some VNone /\
    dict_get "risk" d = Some (VStr "UNKNOWN") /\
    (forall k, In k ["temp"; "feels_like"; "humidity"; "wind_speed";
                     "clouds"; "description"] ->
               dict_get k d
               = match fst (fetch_weather E lat lon w) with
                 | Return (VDict weather) => dict_get k weather
                 | _ => Some VNone
                 end).
Proof.
  intros K Hlat Hlon Hf Hresp.
  unfold process_location. cbv zeta. simpl fst. simpl snd.
  rewrite (bind_eq (lift (py_getitem coords "lat")) _ w w lat)
    by (unfold lift; now rewrite Hlat).
  cbv beta.
  rewrite (bind_eq (lift (py_getitem coords "lon")) _ w w lon)
    by (unfold lift; now rewrite Hlon).
  cbv beta.
  destruct (fetch_weather_contract_aux E lat lon w)
    as (r & evs & Hw & _ & Hr).
  rewrite Hw. simpl fst.
  rewrite (bind_eq _ _ _ _ _ Hw). cbv beta.
  rewrite (bind_eq _ _ _ _ _
             (fetch_rain_probability_fails E lat lon place (extend w evs) e
                K Hf (Hresp _))).
  cbv beta. simpl truthy at 2. cbv iota.
  destruct Hr as [->|(t & fl & tmin & tmax & hu & sp & cl & de & ->)].
  - exists (empty_result place). eexists.
    split.
    { simpl truthy. cbv iota.
      unfold bind, logging, tell, ret. simpl.
      rewrite !emit_extend, !extend_extend. reflexivity. }
    split; [reflexivity|]. split; [reflexivity|]. split; [reflexivity|].
    split; [reflexivity|].
    intros k [<-|[<-|[<-|[<-|[<-|[<-|[]]]]]]]; reflexivity.
  - eexists. eexists.
    split.
    { simpl truthy. cbv iota.
      unfold bind, logging, tell, ret, lift. simpl.
      rewrite !emit_extend, !extend_extend. reflexivity. }
    split; [reflexivity|]. split; [reflexivity|]. split; [reflexivity|].
    split; [reflexivity|].
    intros k [<-|[<-|[<-|[<-|[<-|[<-|[]]]]]]]; reflexivity.
Qed.

Lemma forecast_failure_leaves_risk_unknown_witness :
  exists d evs,
    process_location forecast_down_env
      ("Kano, Kano, Nigeria",
       VDict [("lat", VNum 12); ("lon", VNum (17 # 2))]) empty_world
    = (Return (VDict d), extend empty_world evs) /\
    dict_get "temp" d = Some (VNum 31) /\
    dict_get "risk" d = Some (VStr "UNKNOWN").
Proof.
  destruct (forecast_failure_leaves_risk_unknown forecast_down_env
              "Kano, Kano, Nigeria"
              (VDict [("lat", VNum 12); ("lon", VNum (17 # 2))])
              (VNum 12) (VNum (17 # 2)) empty_world RequestException)
    as (d & evs & Hrun & _ & _ & _ & Hrisk & Hweather);
    try reflexivity.
  exists d, evs. split; [exact Hrun|]. split; [|exact Hrisk].
  rewrite (Hweather "temp"); [reflexivity|now left].
Defined.

(** ** Requests *)

Lemma requests_get_calls_app (a b : list event) :
  requests_get_calls (a ++ b) = requests_get_calls a ++ requests_get_calls b.
Proof. apply filter_app. Qed.

Lemma requests_at_most_weaken {A} (n n' : nat) (m : M A) :
  (n <= n')%nat -> requests_at_most n m -> requests_at_most n' m.
Proof.
  intros Hle Hm w. destruct (Hm w) as (evs & H & Hn).
  exists evs. split; [exact H|lia].
Qed.

Lemma requests_at_most_quiet {A} (m : M A) :
  emits (fun e => negb (is_requests_get e)) m -> requests_at_most 0 m.
Proof.
  intros Hm w. destruct (Hm w) as (evs & H & Hq).
  exists evs. split; [exact H|].
  unfold requests_get_calls.
  rewrite (count_none (fun e => negb (is_requests_get e)) is_requests_get evs); auto.
  intros e He. now apply negb_true_iff.
Qed.

Lemma requests_at_most_bind {A B} (n1 n2 : nat) (m : M A) (k : A -> M B) :
  requests_at_most n1 m -> (forall a, requests_at_most n2 (k a)) ->
  requests_at_most (n1 + n2) (bind m k).
Proof.
  intros Hm Hk w. unfold bind.
  destruct (Hm w) as (evs1 & H1 & N1).
  destruct (m w) as [[a|e] w1]; simpl in H1.
  - destruct (Hk a w1) as (evs2 & H2 & N2).
    exists (evs1 ++ evs2). split; [now rewrite H2, H1, app_assoc|].
    rewrite requests_get_calls_app, length_app. lia.
  - exists evs1. split; [exact H1|lia].
Qed.

Lemma requests_at_most_for_each {A B} (n : nat) (body : A -> M B)
  (xs : list A) :
  (forall x, requests_at_most n (body x)) ->
  requests_at_most (n * List.length xs) (for_each body xs).
Proof.
  intros Hb. induction xs as [|x xs IH]; simpl.
  - intros w. exists []. simpl. split; [now rewrite app_nil_r|lia].
  - apply requests_at_most_weaken with (n + (n * List.length xs + 0))%nat;
      [lia|].
    apply requests_at_most_bind; [apply Hb|]. intros y.
    apply requests_at_most_bind; [apply IH|]. intros ys.
    intros w. exists []. simpl. split; [now rewrite app_nil_r|lia].
Qed.

Lemma fetch_weather_requests (E : Env) (lat lon : value) :
  requests_at_most 1 (fetch_weather E lat lon).
Proof.
  intros w. destruct (fetch_weather_contract_aux E lat lon w)
    as (r & evs & H & Hreq & _).
  exists evs. rewrite H. split; [reflexivity|].
  rewrite Hreq. destruct (has_api_key E); simpl; lia.
Qed.

Lemma fetch_rain_probability_requests (E : Env) (lat lon : value)
  (place : string) :
  requests_at_most 1 (fetch_rain_probability E lat lon place).
Proof.
  intros w. rain_cases E lat lon place w; simpl snd.
  - exists []. split; [now rewrite app_nil_r|simpl; lia].
  - exists evs0. split; [reflexivity|].
    match goal with L : loads _ _ _ _ |- _ => destruct L as [_ [-> | ->]] end;
      simpl; lia.
  - exists evs0. split; [reflexivity|].
    match goal with L : loads _ _ _ _ |- _ => destruct L as [_ [-> | ->]] end;
      simpl; lia.
  - exists evs0. split; [reflexivity|].
    match goal with L : loads _ _ _ _ |- _ => destruct L as [_ [-> | ->]] end;
      simpl; lia.
  - eexists. split; [reflexivity|].
    match goal with L : loads _ _ _ _ |- _ => destruct L as [_ [-> | ->]] end;
      simpl; lia.
  - eexists. split; [reflexivity|].
    match goal with L : loads _ _ _ _ |- _ => destruct L as [_ [-> | ->]] end;
      simpl; lia.
  - eexists. split; [reflexivity|].
    match goal with L : loads _ _ _ _ |- _ => destruct L as [_ [-> | ->]] end;
      simpl; lia.
Qed.

Ltac quiet_requests :=
  apply requests_at_most_quiet; repeat emits_step.

Lemma process_location_requests (E : Env) (item : string * value) :
  requests_at_most 2 (process_location E item).
Proof.
  unfold process_location. cbv zeta.
  change 2%nat with (0 + (0 + (1 + (1 + (0 + (0 + (0 + 0)))))))%nat.
  apply requests_at_most_bind; [quiet_requests|]. intros lat.
  apply requests_at_most_bind; [quiet_requests|]. intros lon.
  apply requests_at_most_bind; [apply fetch_weather_requests|]. intros weather.
  apply requests_at_most_bind; [apply fetch_rain_probability_requests|].
  intros rain.
  apply requests_at_most_bind; [quiet_requests|]. intros d1.
  apply requests_at_most_bind; [quiet_requests|]. intros d2.
  apply requests_at_most_bind; [quiet_requests|intros; quiet_requests].
Qed.

Lemma geocode_all_quiet (E : Env) (places : list string) :
  forall entries,
    emits (fun e => negb (is_requests_get e)) (geocode_all E entries places).
Proof.
  induction places as [|place rest IH]; intros entries; simpl.
  - apply emits_ret.
  - apply emits_bind; [|intros; apply IH].
    unfold geocode_place. repeat emits_step.
Qed.

Lemma get_location_cache_quiet (E : Env) :
  emits (fun e => negb (is_requests_get e)) (get_location_cache E).
Proof.
  unfold get_location_cache, build_location_cache.
  repeat first [apply geocode_all_quiet | emits_step].
Qed.

Lemma process_location_no_geocode (E : Env) (item : string * value) :
  emits (fun e => negb (is_geocode e)) (process_location E item).
Proof.
  unfold process_location, fetch_weather, fetch_rain_probability,
    fetch_forecast, http_get_json. cbv zeta.
  repeat emits_step.
Qed.

Lemma no_geocode_calls (evs : list event) :
  forallb (fun e => negb (is_geocode e)) evs = true -> geocode_calls evs = [].
Proof.
  intros H. apply length_zero_iff_nil.
  apply (count_none (fun e => negb (is_geocode e)) is_geocode evs); auto.
  intros e He. now apply negb_true_iff.
Qed.

(** Reading the location cache calls the geocoder not at all, or once
    for every configured name in the one rebuild. *)
Lemma get_location_cache_geocode_calls (E : Env) (w : world) :
  let evs := new_events w (snd (get_location_cache E w)) in
  geocode_calls evs = [] \/ geocode_calls evs = map Geocode (LOCATIONS E).
Proof.
  cbv zeta.
  destruct (get_location_cache E w) as [r w'] eqn:Hrun. cbn [snd].
  unfold get_location_cache in Hrun. unfold bind at 1 in Hrun.
  destruct (load_json_world LOCATION_CACHE_FILE w)
    as (v & evs0 & Hl & Hq & _).
  rewrite Hl in Hrun.
  assert (G0 : geocode_calls evs0 = [])
    by (destruct Hq as [-> | ->]; reflexivity).
  assert (Hbuild : forall rec,
             build_location_cache E (emit (Log INFO rec) (extend w evs0))
             = (r, w') ->
             geocode_calls (new_events w w') = map Geocode (LOCATIONS E)).
  { intros rec Hb.
    destruct (build_location_cache_geocodes_each_place_aux E
                (emit (Log INFO rec) (extend w evs0))) as (evs & Ht & Hg).
    rewrite Hb in Ht. cbn [snd] in Ht.
    rewrite (new_events_app _ _ (evs0 ++ [Log INFO rec] ++ evs))
      by (rewrite Ht; simpl; now rewrite <- !app_assoc).
    rewrite !geocode_calls_app, G0, Hg. reflexivity. }
  assert (Hquiet : forall evs w'',
             geocode_calls evs = [] ->
             w'' = extend (extend w evs0) evs ->
             geocode_calls (new_events w w'') = []).
  { intros evs w'' He ->.
    now rewrite extend_extend, new_events_extend, geocode_calls_app, G0, He. }
  unfold bind at 1 in Hrun.
  destruct (truthy v); cbv beta iota delta [negb] in Hrun.
  - unfold lift at 1 in Hrun.
    destruct (version_differs v (hash_locations E (LOCATIONS E)))
      as [[|]|e].
    + right. unfold bind, logging, tell in Hrun. now apply (Hbuild _ Hrun).
    + unfold bind at 1 in Hrun. unfold lift at 1 in Hrun.
      destruct (all_present v (LOCATIONS E)) as [[|]|e].
      * left. unfold bind, logging, tell, ret in Hrun.
        injection Hrun as _ <-.
        apply (Hquiet [Log INFO LogCacheLoaded] _ eq_refl).
        now rewrite emit_extend.
      * right. unfold bind, logging, tell in Hrun. now apply (Hbuild _ Hrun).
      * left. injection Hrun as _ <-. apply (Hquiet [] _ eq_refl).
        now rewrite extend_nil.
    + left. injection Hrun as _ <-. apply (Hquiet [] _ eq_refl).
      now rewrite extend_nil.
  - right. unfold ret at 1 in Hrun. unfold bind, logging, tell in Hrun.
    now apply (Hbuild _ Hrun).
Qed.

(** X17: the outside calls of a run are bounded.  A run calls
    [requests.get] at most twice for every entry of the location cache
    that [get_location_cache] returned (once for the weather, once for
    the forecast) and never while it reads or rebuilds that cache.  It
    calls the geocoder not at all or, in the one rebuild, once for
    every configured name in order: the loop over the locations never
    calls it. *)
Theorem main_requests_bounded (E : Env) (w w1 : world) (cache : value)
  (items : dict) :
  get_location_cache E w = (Return cache, w1) ->
  py_get cache "locations" (VDict []) = Return (VDict items) ->
  let evs := new_events w (snd (main E w)) in
  requests_get_calls (new_events w w1) = [] /\
  (List.length (requests_get_calls evs) <= 2 * List.length items)%nat /\
  (geocode_calls evs = [] \/ geocode_calls evs = map Geocode (LOCATIONS E)).
Proof.
  intros Hc Hl. cbv zeta.
  destruct (get_location_cache_quiet E w) as (evs1 & H1 & Q1).
  pose proof (get_location_cache_geocode_calls E w) as G1. cbv zeta in G1.
  rewrite Hc in H1, G1. simpl in H1, G1.
  rewrite (new_events_app _ _ _ H1) in G1.
  assert (R1 : requests_get_calls evs1 = []).
  { apply length_zero_iff_nil.
    apply (count_none (fun e => negb (is_requests_get e)) is_requests_get
             evs1); auto.
    intros e He. now apply negb_true_iff. }
  split; [now rewrite (new_events_app _ _ _ H1)|].
  destruct (has_api_key E) eqn:K.
  2:{ rewrite (main_without_key E w K). cbn [snd].
      rewrite emit_extend, new_events_extend. simpl. split; [lia|now left]. }
  assert (Hevs : exists middle,
             new_events w (snd (main E w)) = evs1 ++ middle /\
             (List.length (requests_get_calls middle)
              <= 2 * List.length items)%nat /\
             geocode_calls middle = []).
  { unfold main. rewrite K. cbv beta iota delta [negb]. unfold try_except.
    destruct items as [|item items].
    { rewrite (main_try_no_locations E w w1 cache Hc Hl). simpl snd.
      exists [Log ERROR LogNoLocations].
      split; [|split; [simpl; lia|reflexivity]].
      apply new_events_app. simpl. now rewrite H1, <- app_assoc. }
    rewrite (main_try_unfold E w w1 cache item items Hc Hl).
    set (w2 := emit (Log INFO (LogStarting (S (List.length items)))) w1) in *.
    destruct (requests_at_most_for_each 2 (process_location E)
                (item :: items) (process_location_requests E) w2)
      as (evs2 & H2 & N2).
    destruct (emits_for_each (fun e => negb (is_geocode e))
                (process_location E) (item :: items)
                (process_location_no_geocode E) w2) as (evs2' & H2' & Q2).
    assert (evs2' = evs2)
      by (rewrite H2 in H2'; now apply app_inv_head in H2').
    subst evs2'. apply no_geocode_calls in Q2.
    unfold bind at 1.
    destruct (for_each (process_location E) (item :: items) w2)
      as [[results|e] w3]; cbn [snd] in H2.
    - unfold bind, history, save_json, logging, tell. simpl snd.
      exists ([Log INFO (LogStarting (S (List.length items)))]
                ++ evs2
                ++ [Save WEATHER_DATA_FILE
                      (VDict [("generated_at",
                               VStr (utcnow_isoformat E (trace w3)));
                              ("locations", VList results)]);
                    Log INFO LogSaved]).
      split; [|split].
      + apply new_events_app. simpl. rewrite H2. unfold w2. simpl.
        rewrite H1. now rewrite <- !app_assoc.
      + rewrite !requests_get_calls_app, !length_app. simpl.
        simpl in N2. lia.
      + rewrite !geocode_calls_app, Q2. reflexivity.
    - unfold logging, tell. simpl snd.
      exists ([Log INFO (LogStarting (S (List.length items)))]
                ++ evs2 ++ [Log CRITICAL LogCriticalError]).
      split; [|split].
      + apply new_events_app. simpl. rewrite H2. unfold w2. simpl.
        rewrite H1. now rewrite <- !app_assoc.
      + rewrite !requests_get_calls_app, !length_app. simpl.
        simpl in N2. lia.
      + rewrite !geocode_calls_app, Q2. reflexivity. }
  destruct Hevs as (middle & -> & Hn & Hg).
  rewrite requests_get_calls_app, geocode_calls_app, R1, Hg, app_nil_r.
  split; [exact Hn|exact G1].
Qed.

Lemma main_requests_bounded_witness :
  (List.length
     (requests_get_calls
        (new_events empty_world (snd (main sample_env empty_world))))
   <= 2 * List.length sample_items)%nat.
Proof.
  apply (main_requests_bounded sample_env empty_world
           (snd (get_location_cache sample_env empty_world)) sample_cache).
  - vm_compute. reflexivity.
  - reflexivity.
Defined.

Lemma aborted_run_keeps_snapshot_witness :
  fs (snd (main sample_env array_world)) WEATHER_DATA_FILE
  = fs array_world WEATHER_DATA_FILE.
Proof.
  apply (aborted_run_keeps_snapshot sample_env array_world AttributeError);
    reflexivity.
Defined.

(** ** The historical record grows at its end *)

Lemma append_all_frame (snapshots : list value) :
  forall (w : world) (p : string),
    p <> TestHistorical.HISTORICAL_DATA_FILE ->
    fs (TestHistorical.append_all snapshots w) p = fs w p.
Proof.
  induction snapshots as [|s rest IH]; intros w p Hp; simpl; [reflexivity|].
  rewrite IH by exact Hp.
  unfold TestHistorical.append_snapshot, bind.
  destruct (load_historical_data_world w) as (l & evs & H). rewrite H.
  unfold tell, TestHistorical.save_json, ret. simpl.
  destruct (String.eqb_spec p TestHistorical.HISTORICAL_DATA_FILE);
    [contradiction|reflexivity].
Qed.

(** X18: the historical record is append-only.  On a record that loads
    as [l], running the script once per snapshot leaves a record that
    loads as [l] followed by those snapshots, in order: earlier
    snapshots keep their place, nothing is deduplicated or trimmed, and
    no other file is touched. *)
Theorem historical_record_append_only (w : world) (l snapshots : list value) :
  fst (TestHistorical.load_historical_data w) = Return l ->
  fst (TestHistorical.load_historical_data
         (TestHistorical.append_all snapshots w))
  = Return (l ++ snapshots) /\
  forall p, p <> TestHistorical.HISTORICAL_DATA_FILE ->
            fs (TestHistorical.append_all snapshots w) p = fs w p.
Proof.
  intros H. split; [now apply append_all_spec|].
  intros p Hp. now apply append_all_frame.
Qed.

Lemma historical_record_append_only_witness :
  fst (TestHistorical.load_historical_data
         (TestHistorical.append_all
            [sample_snapshot "t2"; sample_snapshot "t2"]
            (world_with TestHistorical.HISTORICAL_DATA_FILE
               (VList [sample_snapshot "t1"]))))
  = Return [sample_snapshot "t1"; sample_snapshot "t2"; sample_snapshot "t2"].
Proof.
  apply (historical_record_append_only
           (world_with TestHistorical.HISTORICAL_DATA_FILE
              (VList [sample_snapshot "t1"]))
           [sample_snapshot "t1"]
           [sample_snapshot "t2"; sample_snapshot "t2"]).
  reflexivity.
Defined.

(** ** The export follows the snapshots *)

Lemma cells_of_result (d : dict) :
  keys d = RESULT_KEYS ->
  TestCsvConversion.cells (VDict d) TestCsvConversion.COLUMNS
  = Return (map snd d).
Proof.
  unfold keys, RESULT_KEYS. intros H.
  do 9 (destruct d as [|[? ?] d]; [discriminate|];
        simpl in H; injection H as -> H).
  destruct d; [|discriminate]. reflexivity.
Qed.

Lemma location_rows_of_results (stamp : string) (ds : list dict) :
  Forall (fun d => keys d = RESULT_KEYS) ds ->
  TestCsvConversion.location_rows (VStr stamp) (map VDict ds)
  = (map (row_of stamp) ds, None).
Proof.
  induction 1 as [|d ds Hd _ IH]; [reflexivity|].
  cbn [map TestCsvConversion.location_rows].
  now rewrite (cells_of_result d Hd), IH.
Qed.

(** X19: the export lines up with the snapshots of [main].  On a
    historical record whose snapshots have the shape [main] gives them
    (a stamp and location results with the nine fields in order), the
    loop ends without an exception and writes exactly one row for every
    location result, in order: the stamp of its snapshot followed by
    the nine values of the result, in the order of the header. *)
Theorem export_rows_follow_snapshots (record : list (string * list dict)) :
  Forall (fun s => Forall (fun d => keys d = RESULT_KEYS) (snd s)) record ->
  TestCsvConversion.convert_rows (VList (map snapshot_of record))
  = (flat_map (fun s => map (row_of (fst s)) (snd s)) record, None) /\
  TestCsvConversion.HEADER = "timestamp" :: RESULT_KEYS.
Proof.
  intros H. split; [|reflexivity].
  unfold TestCsvConversion.convert_rows. simpl py_iter.
  induction H as [|s record Hs _ IH]; [reflexivity|].
  cbn [map TestCsvConversion.flatten flat_map].
  unfold TestCsvConversion.snapshot_rows, snapshot_of at 1.
  simpl py_get. cbv beta iota. simpl py_iter. cbv beta iota.
  rewrite (location_rows_of_results (fst s) (snd s) Hs).
  now rewrite IH.
Qed.

Lemma export_rows_follow_snapshots_witness :
  TestCsvConversion.convert_rows
    (VList [snapshot_of ("2024-01-01T00:00:12+00:00",
                         [[("place", VStr "Kano, Kano, Nigeria");
                           ("temp", VNum 31); ("feels_like", VNum 33);
                           ("humidity", VNum 40); ("wind_speed", VNum 3);
                           ("clouds", VNum 5);
                           ("description", VStr "Clear sky");
                           ("rain_probability", VNum 70);
                           ("risk", VStr "HIGH")]])])
  = ([[VStr "2024-01-01T00:00:12+00:00"; VStr "Kano, Kano, Nigeria";
       VNum 31; VNum 33; VNum 40; VNum 3; VNum 5; VStr "Clear sky";
       VNum 70; VStr "HIGH"]], None).
Proof.
  apply (export_rows_follow_snapshots
           [("2024-01-01T00:00:12+00:00",
             [[("place", VStr "Kano, Kano, Nigeria");
               ("temp", VNum 31); ("feels_like", VNum 33);
               ("humidity", VNum 40); ("wind_speed", VNum 3);
               ("clouds", VNum 5); ("description", VStr "Clear sky");
               ("rain_probability", VNum 70); ("risk", VStr "HIGH")]])]).
  repeat constructor.
Defined.

Lemma flatten_app (good rest : list value) (rows : list (list value)) :
  TestCsvConversion.flatten good = (rows, None) ->
  TestCsvConversion.flatten (good ++ rest)
  = (rows ++ fst (TestCsvConversion.flatten rest),
     snd (TestCsvConversion.flatten rest)).
Proof.
  revert rows. induction good as [|s good IH]; intros rows H.
  - injection H as <-. simpl. now destruct (TestCsvConversion.flatten rest).
  - cbn [app TestCsvConversion.flatten] in H |- *.
    destruct (TestCsvConversion.snapshot_rows s) as [rs [e|]];
      [discriminate|].
    destruct (TestCsvConversion.flatten good) as [rs' [e|]] eqn:Hg;
      [discriminate|].
    injection H as <-. rewrite (IH rs' eq_refl). cbn [fst snd].
    now rewrite app_assoc.
Qed.

Lemma flatten_snapshots (record : list (string * list dict)) :
  Forall (fun s => Forall (fun d => keys d = RESULT_KEYS) (snd s)) record ->
  TestCsvConversion.flatten (map snapshot_of record)
  = (flat_map (fun s => map (row_of (fst s)) (snd s)) record, None).
Proof.
  induction 1 as [|s record Hs _ IH]; [reflexivity|].
  cbn [map TestCsvConversion.flatten flat_map].
  unfold TestCsvConversion.snapshot_rows, snapshot_of at 1.
  simpl py_get. cbv beta iota. simpl py_iter. cbv beta iota.
  rewrite (location_rows_of_results (fst s) (snd s) Hs).
  now rewrite IH.
Qed.

(** X20: the export stops at the first entry that is not an object.
    When the record holds well-formed snapshots followed by an entry
    that is not a dictionary, the loop raises [AttributeError] at that
    entry: the rows of the snapshots before it have been written, and
    nothing of the entries after it is. *)
Theorem export_stops_at_malformed_entry
    (record : list (string * list dict)) (bad : value) (rest : list value) :
  Forall (fun s => Forall (fun d => keys d = RESULT_KEYS) (snd s)) record ->
  (forall d, bad <> VDict d) ->
  TestCsvConversion.convert_rows
    (VList (map snapshot_of record ++ bad :: rest))
  = (flat_map (fun s => map (row_of (fst s)) (snd s)) record,
     Some AttributeError).
Proof.
  intros H Hbad. unfold TestCsvConversion.convert_rows. simpl py_iter.
  cbv beta iota.
  rewrite (flatten_app _ _ _ (flatten_snapshots record H)).
  cbn [TestCsvConversion.flatten].
  assert (Hs : TestCsvConversion.snapshot_rows bad = ([], Some AttributeError)).
  { destruct bad; try reflexivity. now elim (Hbad d). }
  rewrite Hs. cbn [fst snd]. now rewrite app_nil_r.
Qed.

Lemma export_stops_at_malformed_entry_witness :
  TestCsvConversion.convert_rows
    (VList (map snapshot_of [("2024-01-01T00:00:12+00:00", [])]
            ++ VStr "note" :: [snapshot_of ("2024-01-02T00:00:12+00:00", [])]))
  = ([], Some AttributeError).
Proof.
  apply (export_stops_at_malformed_entry
           [("2024-01-01T00:00:12+00:00", [])] (VStr "note")
           [snapshot_of ("2024-01-02T00:00:12+00:00", [])]).
  - repeat constructor.
  - intros d H. discriminate H.
Defined.

Lemma cells_length (location : value) (ks : list string) (cs : list value) :
  TestCsvConversion.cells location ks = Return cs ->
  length cs = length ks.
Proof.
  revert cs. induction ks as [|k ks IH]; intros cs H; simpl in H.
  - now injection H as <-.
  - destruct (py_get location k (VStr "")); [|discriminate].
    simpl in H.
    destruct (TestCsvConversion.cells location ks) as [cs'|];
      [|discriminate].
    simpl in H. injection H as <-. simpl. now rewrite (IH cs' eq_refl).
Qed.

Lemma location_rows_width (timestamp : value) (locations : list value) :
  Forall (fun row => length row = length TestCsvConversion.HEADER)
         (fst (TestCsvConversion.location_rows timestamp locations)).
Proof.
  induction locations as [|location rest IH]; [constructor|].
  cbn [TestCsvConversion.location_rows].
  destruct (TestCsvConversion.cells location TestCsvConversion.COLUMNS)
    as [cs|] eqn:Hc; [|constructor].
  destruct (TestCsvConversion.location_rows timestamp rest) as [rows err].
  cbn [fst] in *. constructor; [|exact IH].
  simpl. now rewrite (cells_length _ _ _ Hc).
Qed.

Lemma snapshot_rows_width (snapshot : value) :
  Forall (fun row => length row = length TestCsvConversion.HEADER)
         (fst (TestCsvConversion.snapshot_rows snapshot)).
Proof.
  unfold TestCsvConversion.snapshot_rows.
  destruct (py_get snapshot "generated_at" (VStr "")); [|constructor].
  destruct (py_get snapshot "locations" (VList [])) as [l|]; [|constructor].
  destruct (py_iter l); [|constructor].
  apply location_rows_width.
Qed.

(** X21: every row of the export is as wide as the header.  Whatever the
    historical record holds (snapshots without a stamp or without
    locations, location results with missing or extra fields, a record
    on which the loop stops with an exception), each row handed to the
    writer has exactly the ten cells of the header. *)
Theorem export_rows_match_header (historical_data : value) :
  Forall (fun row => length row = length TestCsvConversion.HEADER)
         (fst (TestCsvConversion.convert_rows historical_data)).
Proof.
  unfold TestCsvConversion.convert_rows.
  destruct (py_iter historical_data) as [snapshots|]; [|constructor].
  induction snapshots as [|s rest IH]; [constructor|].
  cbn [TestCsvConversion.flatten].
  pose proof (snapshot_rows_width s) as Hs.
  destruct (TestCsvConversion.snapshot_rows s) as [rows [e|]];
    [exact Hs|].
  destruct (TestCsvConversion.flatten rest) as [rows' err].
  cbn [fst] in *. apply Forall_app. now split.
Qed.
